(** * smartmeter: the MT174 reader, the scheduler and the telemetry sinks

    A shallow embedding of [mt174.py].  Python [str] values are Rocq
    strings, Python floats are the kernel's binary64 floats, a [dict] is a
    [gmap], exceptions are an explicit result type, and every piece of
    code that talks to the outside (serial line, clock, logging,
    subprocesses) runs in a small state-and-trace monad. *)

From Stdlib Require Import ZArith NArith List Ascii String Floats Lia Bool.
From Stdlib Require DecimalString.
From stdpp Require Import base option list gmap strings.

Set Default Proof Using "Type".
Set Warnings "-inexact-float".

(** ** The fragment of the Python runtime the program relies on *)

Module Py.

(** Exception classes.  [Exception msg] is [raise Exception(msg)]; the
    next five are the builtin subclasses of [Exception] the program can
    trigger; the last two derive from [BaseException] only. *)
Inductive exn : Type :=
| Exception (msg : string)
| TypeError
| KeyError (key : string)
| ValueError
| IndexError
| ZeroDivisionError
| KeyboardInterrupt
| SystemExit.

(** [isinstance(e, Exception)] *)
Definition is_Exception (e : exn) : bool :=
  match e with
  | KeyboardInterrupt | SystemExit => false
  | _ => true
  end.

(** [isinstance(e, KeyboardInterrupt)] *)
Definition is_KeyboardInterrupt (e : exn) : bool :=
  match e with
  | KeyboardInterrupt => true
  | _ => false
  end.

Inductive res (A : Type) : Type :=
| Ok (a : A)
| Raise (e : exn).
Arguments Ok {A} a.
Arguments Raise {A} e.

(** Levels of the [logging] module. *)
Inductive level : Type := DEBUG | INFO | WARNING | ERROR.

(** What a run does to the outside world, in order.  A log record keeps
    its level and its message template. *)
Inductive event : Type :=
| Log (lvl : level) (template : string)
| Sleep (seconds : float)
| Call (sink : string) (timestamp : float) (data : string)
| Exec (command : list string).

(** Computations over a state [σ] that emit events and may raise. *)
Definition M (σ A : Type) : Type := σ → list event * σ * res A.

Section monad.
Context {σ : Type}.

Definition ret {A} (a : A) : M σ A := λ s, ([], s, Ok a).

Definition raise {A} (e : exn) : M σ A := λ s, ([], s, Raise e).

Definition bind {A B} (c : M σ A) (k : A → M σ B) : M σ B := λ s,
  match c s with
  | (ev, s', Ok a) => let '(ev', s'', r) := k a s' in (ev ++ ev', s'', r)
  | (ev, s', Raise e) => (ev, s', Raise e)
  end.

Definition emit (e : event) : M σ unit := λ s, ([e], s, Ok tt).

Definition get : M σ σ := λ s, ([], s, Ok s).

Definition lift {A} (r : res A) : M σ A := λ s, ([], s, r).

(** [try: c except: h], the handler receiving the exception. *)
Definition try_except {A} (c : M σ A) (h : exn → M σ A) : M σ A := λ s,
  match c s with
  | (ev, s', Raise e) => let '(ev', s'', r) := h e s' in (ev ++ ev', s'', r)
  | out => out
  end.

(** [try: c finally: f]: [f] always runs; an exception of [f] replaces
    the outcome of [c]. *)
Definition try_finally {A} (c : M σ A) (f : M σ unit) : M σ A := λ s,
  let '(ev, s', r) := c s in
  match f s' with
  | (ev', s'', Ok _) => (ev ++ ev', s'', r)
  | (ev', s'', Raise e) => (ev ++ ev', s'', Raise e)
  end.

Definition logging (lvl : level) (template : string) : M σ unit :=
  emit (Log lvl template).

(** [logging.exception] logs at level ERROR. *)
Definition logging_exception (template : string) : M σ unit :=
  emit (Log ERROR template).

Definition time_sleep (seconds : float) : M σ unit := emit (Sleep seconds).
End monad.

Definition events {σ A} (out : list event * σ * res A) : list event := out.1.1.
Definition final {σ A} (out : list event * σ * res A) : σ := out.1.2.
Definition result {σ A} (out : list event * σ * res A) : res A := out.2.

(** [len(s)] *)
Definition len (s : string) : nat := String.length s.

(** [ord(x)]: defined on strings of length one only. *)
Definition ord (x : string) : res N :=
  match x with
  | String c EmptyString => Ok (N_of_ascii c)
  | _ => Raise TypeError
  end.

(** [s[0]] *)
Definition head_char (s : string) : res ascii :=
  match s with
  | String c _ => Ok c
  | EmptyString => Raise IndexError
  end.

End Py.
Import Py.

Notation "'let*' x ':=' c 'in' k" := (bind c (λ x, k))
  (at level 10, x name, c at level 100, k at level 200, only parsing).
Notation "'let*' ( x , y ) ':=' c 'in' k" := (bind c (λ '(x, y), k))
  (at level 10, x name, y name, c at level 100, k at level 200, only parsing).
Notation "c ';;' k" := (bind c (λ _, k))
  (at level 100, k at level 200, right associativity, only parsing).

(** ** The meter: class [MT174] *)

Module MT174.

Definition ACK : string := String "006" "".
Definition STX : string := String "002" "".
Definition ETX : string := String "003" "".
Definition DELAY : float := 0.02%float.
Definition CRLF : string := String "013" (String "010" "").

(** The port object returned by [serial.Serial(...)].  [reply] is what the
    meter answers to [readline()]; [rx] is what the successive one-byte
    [read()] calls return, [None] being a read that timed out (the empty
    string); once [rx] is used up the line is silent and every read times
    out.  [tx] collects what was written. *)
Record Serial : Type := mkSerial {
  reply : string;
  rx : list (option ascii);
  tx : list string;
  opened : bool
}.

(** [serial.Serial(port, baudrate=300, bytesize=7, parity='E', ...)] *)
Definition Serial_open (line : string) (bytes : list (option ascii)) : Serial :=
  {| reply := line; rx := bytes; tx := []; opened := true |}.

Definition write (message : string) : M Serial unit := λ p,
  ([], {| reply := reply p; rx := rx p; tx := tx p ++ [message];
          opened := opened p |}, Ok tt).

Definition readline : M Serial string := λ p,
  ([], {| reply := ""; rx := rx p; tx := tx p; opened := opened p |},
   Ok (reply p)).

(** The string a one-byte read hands back. *)
Definition received (b : option ascii) : string :=
  match b with
  | Some c => String c ""
  | None => ""
  end.

Definition isOpen : M Serial bool := λ p, ([], p, Ok (opened p)).

Definition close : M Serial unit := λ p,
  ([], {| reply := reply p; rx := rx p; tx := tx p; opened := false |}, Ok tt).

(** [MT174.__delay()] *)
Definition delay : M Serial unit := time_sleep DELAY.

(** The first [while] of [read]: [while x != '!': ...].  Each turn takes
    one more element of the input, so the loop is written over what is
    left of it and hands back the rest. *)
Fixpoint data_loop (bytes : list (option ascii)) (BCC : N)
    (datablock x : string) : res (N * string * string) * list (option ascii) :=
  if String.eqb x "!" then (Ok (BCC, datablock, x), bytes) else
  match ord x with
  | Raise e => (Raise e, bytes)
  | Ok o =>
    let BCC := N.lxor BCC o in
    let datablock := datablock +:+ x in
    match bytes with
    | [] => (Raise (Exception "Empty string instead of data"), [])
    | b :: bytes =>
      let x := received b in
      if (len x =? 0)%nat then (Raise (Exception "Empty string instead of data"), bytes)
      else data_loop bytes BCC datablock x
    end
  end.

(** The second [while]: [while x != MT174.ETX: ...]. *)
Fixpoint etx_loop (bytes : list (option ascii)) (BCC : N) (x : string)
    : res (N * string) * list (option ascii) :=
  if String.eqb x ETX then (Ok (BCC, x), bytes) else
  match ord x with
  | Raise e => (Raise e, bytes)
  | Ok o =>
    let BCC := N.lxor BCC o in
    match bytes with
    | [] => (Raise (Exception "Empty string instead of data"), [])
    | b :: bytes =>
      let x := received b in
      if (len x =? 0)%nat then (Raise (Exception "Empty string instead of data"), bytes)
      else etx_loop bytes BCC x
    end
  end.

(** [mt174.read()]: one byte, or the empty string on a timeout. *)
Definition read1 : M Serial string := λ p,
  match rx p with
  | [] => ([], p, Ok "")
  | b :: bytes =>
    ([], {| reply := reply p; rx := bytes; tx := tx p; opened := opened p |},
     Ok (received b))
  end.

(** Runs a loop written over the input on the port's input. *)
Definition on_input {A} (loop : list (option ascii) → res A * list (option ascii))
    : M Serial A := λ p,
  let '(r, bytes) := loop (rx p) in
  ([], {| reply := reply p; rx := bytes; tx := tx p; opened := opened p |}, r).

(** The part of [read] under the comment [# 4 <-]: the data message. *)
Definition data_message : M Serial string :=
  let datablock := "" in
  let* x := read1 in
  if String.eqb x STX then
    let* x := read1 in
    if (len x =? 0)%nat then raise (Exception "Empty string instead of data") else
    let BCC := 0%N in
    let* (p, x) := on_input (λ bytes, data_loop bytes BCC datablock x) in
    let '(BCC, datablock) := p in
    let* (BCC, x) := on_input (λ bytes, etx_loop bytes BCC x) in
    let* o := lift (ord x) in
    let BCC := N.lxor BCC o in (* ETX itself is part of block check *)
    let* x := read1 in (* x is now the Block Check Character *)
    let* o := lift (ord x) in
    if negb (BCC =? o)%N then (* received correctly? *)
      raise (Exception "Result not OK, try again")
    else ret datablock
  else
    logging WARNING "No STX found, not handled";;
    ret datablock.

(** The body of the [try] in [MT174.read]. *)
Definition exchange : M Serial string :=
  (* 1 -> *)
  logging DEBUG "Writing hello message";;
  let message := "/?!" +:+ CRLF in
  write message;;
  (* 2 <- *)
  delay;;
  let* message := readline in
  if (len message =? 0)%nat then
    raise (Exception "Empty string instead of identification") else
  logging DEBUG "Got reply: %s";;
  let* c := lift (head_char message) in
  if negb (Ascii.eqb c "/") then raise (Exception "No identification message") else
  if (len message <? 7)%nat then
    raise (Exception "Identification message to short") else
  (* 3 -> *)
  let message := ACK +:+ "000" +:+ CRLF in
  write message;;
  delay;;
  (* 4 <- *)
  data_message.

(** [MT174.read], run on the port [serial.Serial] has just opened. *)
Definition read : M Serial string :=
  logging DEBUG "Opening serial port %s";;
  try_finally exchange
    (let* o := isOpen in if o then close else ret tt).

(** *** Vocabulary for the properties of [read] *)

(** The running XOR of [read], continued over the bytes [l]. *)
Definition block_check (BCC : N) (l : list ascii) : N :=
  fold_left (λ acc c, N.lxor acc (N_of_ascii c)) l BCC.

Definition bang : ascii := "!"%char.
Definition stx : ascii := "002"%char.
Definition etx : ascii := "003"%char.

(** An identification reply that passes the three tests of [read]. *)
Definition identification (line : string) : Prop :=
  len line ≠ 0%nat ∧ head_char line = Ok "/"%char ∧ (7 ≤ len line)%nat.

(** The two messages [read] writes. *)
Definition hello : string := "/?!" +:+ CRLF.
Definition ack : string := ACK +:+ "000" +:+ CRLF.

(** A data message up to ETX, its check character still to come: STX,
    the data block, the mark [!], what follows it up to ETX, and ETX. *)
Definition block (payload trailer : list ascii) : list (option ascii) :=
  map Some (stx :: payload ++ bang :: trailer ++ [etx]).

(** A whole data message, check character included. *)
Definition frame (payload trailer : list ascii) (bcc : ascii) : list (option ascii) :=
  map Some (stx :: payload ++ bang :: trailer ++ [etx; bcc]).

(** The string the next one-byte read returns on the input [bytes]. *)
Definition next_read (bytes : list (option ascii)) : string :=
  match bytes with
  | [] => ""
  | b :: _ => received b
  end.

(** What is logged and slept up to the acknowledgement. *)
Definition handshake_events : list event :=
  [Log DEBUG "Writing hello message"; Sleep DELAY;
   Log DEBUG "Got reply: %s"; Sleep DELAY].

(** The errors the data part of [read] can end in. *)
Definition data_error (e : exn) : Prop :=
  e = Exception "Empty string instead of data" ∨
  e = Exception "Result not OK, try again" ∨
  e = TypeError.

(** The errors of the identification step. *)
Definition identification_error (e : exn) : Prop :=
  e = Exception "Empty string instead of identification" ∨
  e = Exception "No identification message" ∨
  e = Exception "Identification message to short".

End MT174.

(** ** Regular expressions, as Python's [re] runs them

    A backtracking matcher in continuation-passing style: a quantifier is
    greedy (it first tries to take more), an optional part is tried
    before it is skipped, and the first complete match found is the
    answer.  Only what [Processor.REGEX] uses is covered: character
    classes, sequence, [(?:r)?], [class+] and capturing groups. *)

Module Re.

Inductive regex : Type :=
| Chr (p : ascii → bool)
| Seq (r1 r2 : regex)
| Opt (r : regex)
| Plus (p : ascii → bool)
| Group (n : nat) (r : regex).

(** What the groups captured, by group number. *)
Abbreviation groups := (gmap nat (list ascii)).

Section matcher.
Context {R : Type}.

(** [class+], from the longest run downwards. *)
Fixpoint plus (p : ascii → bool) (s : list ascii)
    (k : list ascii → option R) : option R :=
  match s with
  | c :: s' =>
    if p c then
      match plus p s' k with
      | Some x => Some x
      | None => k s'
      end
    else None
  | [] => None
  end.

Fixpoint exec (r : regex) (s : list ascii) (g : groups)
    (k : list ascii → groups → option R) : option R :=
  match r with
  | Chr p =>
    match s with
    | c :: s' => if p c then k s' g else None
    | [] => None
    end
  | Seq r1 r2 => exec r1 s g (λ s' g', exec r2 s' g' k)
  | Opt r =>
    match exec r s g k with
    | Some x => Some x
    | None => k s g
    end
  | Plus p => plus p s (λ s', k s' g)
  | Group n r =>
    exec r s g (λ s' g', k s' (<[n := take (length s - length s') s]> g'))
  end.
End matcher.

(** A match is complete when the pattern is used up, wherever in the
    line that is. *)
Definition matched (s : list ascii) (g : groups) : option groups := Some g.

(** [r.match(line)]: anchored at the start of the line, not at its end. *)
Definition rmatch (r : regex) (line : string) : option groups :=
  exec r (list_ascii_of_string line) ∅ matched.

(** [m.group(n)] of a group that took part in the match. *)
Definition group (m : groups) (n : nat) : string :=
  string_of_list_ascii (default [] (m !! n)).

(** The strings a regular expression denotes, with the groups it sets. *)
Inductive matches : regex → list ascii → groups → groups → Prop :=
| matches_chr p c g :
    p c = true → matches (Chr p) [c] g g
| matches_seq r1 r2 s1 s2 g g1 g2 :
    matches r1 s1 g g1 → matches r2 s2 g1 g2 →
    matches (Seq r1 r2) (s1 ++ s2) g g2
| matches_opt_some r s g g' :
    matches r s g g' → matches (Opt r) s g g'
| matches_opt_none r g :
    matches (Opt r) [] g g
| matches_plus p s g :
    s ≠ [] → Forall (λ c, p c = true) s → matches (Plus p) s g g
| matches_group n r s g g' :
    matches r s g g' → matches (Group n r) s g (<[n := s]> g').

(** Character classes of byte-string patterns. *)
Definition lit (c : ascii) : regex := Chr (Ascii.eqb c).

(** [\d] *)
Definition digit (c : ascii) : bool :=
  (48 <=? nat_of_ascii c)%nat && (nat_of_ascii c <=? 57)%nat.

(** Whitespace: space, [\t], [\n], [\v], [\f], [\r]. *)
Definition space (c : ascii) : bool :=
  (nat_of_ascii c =? 32)%nat ||
  ((9 <=? nat_of_ascii c)%nat && (nat_of_ascii c <=? 13)%nat).

(** [\S] *)
Definition nonspace (c : ascii) : bool := negb (space c).

(** [.] (no DOTALL flag): anything but a newline. *)
Definition dot (c : ascii) : bool := negb (nat_of_ascii c =? 10)%nat.

End Re.

(** ** Class [Processor] *)

Module Processor.
Import Re.

(** [(?:\d\-\d:)?(\S+\.\S+\.\d+)(?:\*255)?\((.+)\)] *)
Definition prefix : regex :=
  Seq (Chr digit) (Seq (lit "-") (Seq (Chr digit) (lit ":"))).
Definition code : regex :=
  Seq (Plus nonspace) (Seq (lit ".") (Seq (Plus nonspace)
    (Seq (lit ".") (Plus digit)))).
Definition tag : regex :=
  Seq (lit "*") (Seq (lit "2") (Seq (lit "5") (lit "5"))).
Definition REGEX : regex :=
  Seq (Opt prefix) (Seq (Group 1 code) (Seq (Opt tag)
    (Seq (lit "(") (Seq (Group 2 (Plus dot)) (lit ")"))))).

(** [data.split()]: the maximal runs of non-whitespace characters.
    [word] is the run being read. *)
Fixpoint split_from (word : string) (data : string) : list string :=
  match data with
  | EmptyString => if (len word =? 0)%nat then [] else [word]
  | String c data =>
    if space c then
      if (len word =? 0)%nat then split_from "" data
      else word :: split_from "" data
    else split_from (word +:+ String c "") data
  end.

Definition split (data : string) : list string := split_from "" data.

(** The body of the [for] loop of [extract]. *)
Definition store (d : gmap string string) (line : string) : gmap string string :=
  match rmatch REGEX line with
  | Some m => <[group m 1 := group m 2]> d
  | None => d
  end.

Definition extract (data : string) : gmap string string :=
  foldl store ∅ (split data).

(** *** Vocabulary for the properties of [extract] *)

(** What a line contributes to the map: the pair of its two groups. *)
Definition binding (line : string) : option (string * string) :=
  match rmatch REGEX line with
  | Some m => Some (group m 1, group m 2)
  | None => None
  end.

(** [<g>-<g>:] with two digits. *)
Definition group_prefix (P : list ascii) : Prop :=
  ∃ d1 d2, digit d1 = true ∧ digit d2 = true ∧ P = [d1; "-"; d2; ":"]%char.

Definition starts_with_group (s : list ascii) : bool :=
  match s with
  | d1 :: m :: d2 :: c :: _ =>
    digit d1 && Ascii.eqb "-" m && digit d2 && Ascii.eqb ":" c
  | _ => false
  end.

(** A code the pattern takes: at least three segments separated by dots,
    none of them empty, no whitespace, the last one digits only. *)
Definition code_form (c : list ascii) : Prop :=
  ∃ a b ds, c = a ++ "."%char :: b ++ "."%char :: ds ∧
    a ≠ [] ∧ b ≠ [] ∧ ds ≠ [] ∧
    Forall (λ x, nonspace x = true) a ∧
    Forall (λ x, nonspace x = true) b ∧
    Forall (λ x, digit x = true) ds.

Definition tag255 : list ascii := ["*"; "2"; "5"; "5"]%char.

(** The lines [extract] is sure to read as [code → value]:
    [P ++ c ++ T ++ "(" ++ v ++ ")"] with [P] empty or a group prefix,
    [c] a code without [(] (and, when [P] is empty, not itself starting
    with a group prefix), [T] empty or [*255], [v] a non-empty value
    without newline and without [(]. *)
Record line_form (P c T v : list ascii) : Prop := {
  form_prefix : (P = [] ∧ starts_with_group c = false) ∨ group_prefix P;
  form_code : code_form c;
  form_code_paren : "("%char ∉ c;
  form_tag : T = [] ∨ T = tag255;
  form_value : v ≠ [];
  form_value_dot : Forall (λ x, dot x = true) v;
  form_value_paren : "("%char ∉ v
}.

Definition line_of (P c T v : list ascii) : string :=
  string_of_list_ascii (P ++ c ++ T ++ "("%char :: v ++ [")"%char]).

(** The pattern after the optional prefix, and its last part. *)
Definition after_prefix : regex :=
  Seq (Group 1 code) (Seq (Opt tag)
    (Seq (lit "(") (Seq (Group 2 (Plus dot)) (lit ")")))).
Definition value_part : regex := Seq (Group 2 (Plus dot)) (lit ")").

(** The shape of a line as the specification words it:
    [[<g>-<g>:]<code>[*<id>](<value>)], the code made of non-whitespace
    segments separated by dots, the tag any [*<id>]. *)
Definition spec_form (line code value : string) : Prop :=
  ∃ P T : string,
    (P = "" ∨ ∃ d1 d2, digit d1 = true ∧ digit d2 = true ∧
                       P = String d1 (String "-" (String d2 (String ":" "")))) ∧
    (T = "" ∨ ∃ id, T = "*" +:+ id) ∧
    Forall (λ x, nonspace x = true) (list_ascii_of_string code) ∧
    "."%char ∈ list_ascii_of_string code ∧
    line = P +:+ code +:+ T +:+ "(" +:+ value +:+ ")".

(** The line of the specification's example. *)
Definition sample_line : string := "1-0:1.8.1*255(0001798.478*kWh)".

End Processor.

(** ** Class [Scheduler] *)

Module Scheduler.

(** The world a scheduler runs in: the clock, the interrupt signal and the
    state [S] the meter and the sinks live in.  [clock n] is what the
    [n]-th call of [time.time()] returns, [ticks] counts the calls made so
    far; [signal n] tells whether an interrupt arrives during the [n]-th
    call of [time.sleep], [naps] counts those calls. *)
Record World (S : Type) : Type := mkWorld {
  clock : nat → float;
  ticks : nat;
  signal : nat → bool;
  naps : nat;
  store : S
}.
Arguments mkWorld {S}.
Arguments clock {S}.
Arguments ticks {S}.
Arguments signal {S}.
Arguments naps {S}.
Arguments store {S}.

(** What the scheduler asks of a sink: [getName()] and
    [process(timestamp, data)]. *)
Record Sink (S : Type) : Type := mkSink {
  getName : string;
  process : float → string → M S unit
}.
Arguments mkSink {S}.
Arguments getName {S}.
Arguments process {S}.

Definition SLEEP_TIME : float := 0.1%float.

Section scheduler.
Context {S : Type}.

(** The fields set by [__init__]; [interval], an [int] of seconds in
    the program, is taken as the float it is compared with. *)
Variable mt174 : M S string.
Variable processors : list (Sink S).
Variable interval : float.

(** [time.time()] *)
Definition time_time : M (World S) float := λ w,
  ([], mkWorld (clock w) (Datatypes.S (ticks w)) (signal w) (naps w) (store w),
   Ok (clock w (ticks w))).

(** [time.sleep(seconds)], which an interrupt cuts short. *)
Definition sleep (seconds : float) : M (World S) unit := λ w,
  ([Sleep seconds],
   mkWorld (clock w) (ticks w) (signal w) (Datatypes.S (naps w)) (store w),
   if signal w (naps w) then Raise KeyboardInterrupt else Ok tt).

(** Runs code of the meter or of a sink on its own state. *)
Definition on_store {A} (c : M S A) : M (World S) A := λ w,
  let '(ev, s, r) := c (store w) in
  (ev, mkWorld (clock w) (ticks w) (signal w) (naps w) s, r).

(** [p.process(timestamp, data)], the call being recorded. *)
Definition invoke (p : Sink S) (timestamp : float) (data : string)
    : M (World S) unit :=
  emit (Call (getName p) timestamp data);;
  on_store (process p timestamp data).

(** The two [except] clauses both [try] statements of [execute] share. *)
Definition handler (template : string) (e : exn) : M (World S) unit :=
  if is_KeyboardInterrupt e then raise e
  else if is_Exception e then logging_exception template
  else raise e.

(** [for p in ps: body(p)] *)
Fixpoint for_each (ps : list (Sink S)) (body : Sink S → M (World S) unit)
    : M (World S) unit :=
  match ps with
  | [] => ret tt
  | p :: ps => body p;; for_each ps body
  end.

Definition execute (timestamp : float) : M (World S) unit :=
  try_except
    (let* begin := time_time in
     let* data := on_store mt174 in
     let* end_ := time_time in
     logging INFO "Read data in %.3fs";;
     logging DEBUG "Data: %s";;
     for_each processors (λ p,
       try_except
         (let* begin := time_time in
          invoke p timestamp data;;
          let* end_ := time_time in
          logging INFO "Processor (%s) in %.3fs")
         (handler "Error in processor")))
    (handler "Error in meter reader").

(** One evaluation of the test of the inner [while] of [run] and what
    follows it: a tick of sleep while the window is open, else the next
    cycle.  The result is the value of [start] afterwards. *)
Definition turn (start : float) : M (World S) float :=
  let* now := time_time in
  if (now - start <? interval)%float then
    sleep SLEEP_TIME;;
    ret start
  else
    let* start := time_time in
    execute start;;
    ret start.

(** The [while True] of [run], cut after [fuel] turns. *)
Fixpoint loop (fuel : nat) (start : float) : M (World S) unit :=
  match fuel with
  | O => ret tt
  | Datatypes.S fuel => let* start := turn start in loop fuel start
  end.

(** [run], observed for [fuel] turns: [Some 0] and [Some 1] are its two
    return values, [None] a loop that is still running. *)
Definition run (fuel : nat) : M (World S) (option Z) :=
  let start := 0%float in
  try_except
    (loop fuel start;; ret None)
    (λ e,
      if is_KeyboardInterrupt e then ret (Some 0%Z)
      else if is_Exception e then
        logging_exception "Error. Exiting...";; ret (Some 1%Z)
      else raise e).
End scheduler.

(** *** Vocabulary for the properties of [execute] and [run] *)

(** The sink invocations among the events of a run, in order. *)
Definition calls (evs : list event) : list (string * float * string) :=
  omap (λ e, match e with Call n t d => Some (n, t, d) | _ => None end) evs.

(** The error records with a given text among the events of a run. *)
Definition is_error_in (template : string) (e : event) : bool :=
  match e with
  | Log ERROR t => String.eqb t template
  | _ => false
  end.
Definition errors_in (template : string) (evs : list event) : nat :=
  length (List.filter (is_error_in template) evs).

(** Events that are neither invocations nor the scheduler's records of
    failed sinks: all that a meter and a sink emit themselves. *)
Definition own (evs : list event) : Prop :=
  calls evs = [] ∧ errors_in "Error in processor" evs = 0%nat.

Definition failed (r : res unit) : bool :=
  match r with
  | Raise _ => true
  | Ok _ => false
  end.

Section vocabulary.
Context {S : Type}.
Variable mt174 : M S string.
Variable processors : list (Sink S).
Variable interval : float.

(** The outcome of each sink when all are run in order from state [s]. *)
Fixpoint outcomes (ps : list (Sink S)) (timestamp : float) (data : string)
    (s : S) : list (res unit) :=
  match ps with
  | [] => []
  | p :: ps =>
    let '(_, s', r) := process p timestamp data s in
    r :: outcomes ps timestamp data s'
  end.

(** The state the sinks leave behind when all are run in order from
    state [s]. *)
Fixpoint settled (ps : list (Sink S)) (timestamp : float) (data : string)
    (s : S) : S :=
  match ps with
  | [] => s
  | p :: ps => settled ps timestamp data (final (process p timestamp data s))
  end.

(** A sink that fails with [Exception]s only (an interrupt is not a
    failure of the sink) and emits events of its own only. *)
Definition well_behaved (p : Sink S) (timestamp : float) (data : string) : Prop :=
  ∀ s, own (events (process p timestamp data s)) ∧
       ∀ e, result (process p timestamp data s) = Raise e → is_Exception e = true.

(** The body of the [for] loop of [execute]. *)
Definition dispatch (timestamp : float) (data : string) (p : Sink S)
    : M (World S) unit :=
  try_except
    (let* begin := time_time in
     invoke p timestamp data;;
     let* end_ := time_time in
     logging INFO "Processor (%s) in %.3fs")
    (handler "Error in processor").

(** The test of the inner [while] of [run] fails: the time read is not
    within [interval] of [start]. *)
Definition overdue (start : float) (w : World S) : Prop :=
  (clock w (ticks w) - start <? interval)%float = false.

(** One cycle entered without waiting: the clock is read for the test,
    read again for the start time, and [execute] runs. *)
Definition cycle : M (World S) float :=
  time_time;;
  let* start := time_time in
  execute mt174 processors start;;
  ret start.

(** One tick of waiting. *)
Definition nap (start : float) : M (World S) float :=
  time_time;;
  sleep SLEEP_TIME;;
  ret start.

(** [k] cycles back to back. *)
Fixpoint cycles (k : nat) (start : float) : M (World S) float :=
  match k with
  | O => ret start
  | Datatypes.S k => let* start := cycle in cycles k start
  end.

(** [n] turns of the loop of [run], whatever each of them is. *)
Fixpoint turns (n : nat) (start : float) : M (World S) float :=
  match n with
  | O => ret start
  | Datatypes.S n => let* start := turn mt174 processors interval start in turns n start
  end.

(** Each of the next [k] tests finds the window closed: the cycle
    before it took at least [interval] (a cycle that raises ends the
    run). *)
Fixpoint overlong (k : nat) (start : float) (w : World S) : Prop :=
  match k with
  | O => True
  | Datatypes.S k =>
    overdue start w ∧
    match cycle w with
    | (_, w', Ok start') => overlong k start' w'
    | (_, _, Raise _) => True
    end
  end.

(** Code that leaves the clock, the signal and the count of the
    scheduler's own sleeps as they are. *)
Definition steady {A} (c : M (World S) A) : Prop :=
  ∀ w, clock (final (c w)) = clock w ∧ signal (final (c w)) = signal w ∧
       naps (final (c w)) = naps w.
End vocabulary.

End Scheduler.

(** ** Class [MqttProcessor] *)

Module MqttProcessor.

Definition MARGIN_PERCENT : float := 0.5%float.
Definition MOSQUITTO_PUB : string := "/usr/bin/mosquitto_pub".

(** The instance: its fields, and [spawned], the number of subprocesses
    it has started so far. *)
Record t : Type := mk {
  name : string;
  last : float * list float;
  host : string;
  port : Z;
  rootTopic : string;
  interval : float;
  spawned : nat
}.

Definition edis : list string := ["1.8.0"; "1.8.1"; "1.8.2"].
Definition names : list string := ["total"; "tariff1"; "tariff2"].

(** [s.split("*")[0]]: what comes before the first star. *)
Fixpoint before_star (s : string) : string :=
  match s with
  | EmptyString => EmptyString
  | String c s => if Ascii.eqb c "*" then EmptyString else String c (before_star s)
  end.

(** Python 2's [map(f, xs, ys)]: the shorter list is filled up with
    [None], on which the subtraction in [f] raises [TypeError]. *)
Fixpoint map2 (f : float → float → res float) (xs ys : list float)
    : res (list float) :=
  match xs, ys with
  | [], [] => Ok []
  | x :: xs, y :: ys =>
    match f x y with
    | Ok v =>
      match map2 f xs ys with
      | Ok vs => Ok (v :: vs)
      | Raise e => Raise e
      end
    | Raise e => Raise e
    end
  | _, _ => Raise TypeError
  end.

(** [zip(keys, values)] *)
Fixpoint zip {A B} (xs : list A) (ys : list B) : list (A * B) :=
  match xs, ys with
  | x :: xs, y :: ys => (x, y) :: zip xs ys
  | _, _ => []
  end.

Section process.
(** What the interpreter and the operating system contribute. *)

(** The order in which [for x in d] visits the keys of the [dict]
    [extract] has built from a block; it depends on the hashes of the
    keys and on the history of the [dict]. *)
Variable iter : string → gmap string string → list string.
(** [float(s)] and [int(s)] *)
Variable float_of_str : string → res float.
Variable int_of_str : string → res Z.
(** ["%d %.3f" % (timestamp, value)], ["%d %d" % (timestamp, n)] and
    ["%d" % n] *)
Variable format_reading : float → float → res string.
Variable format_counter : float → Z → res string.
Variable format_int : Z → string.
(** The return code of the [n]-th subprocess, or the error raised when
    it cannot be started. *)
Variable subprocess_call : nat → list string → res Z.

(** [MqttProcessor(host, port, rootTopic, interval)]; the [int]s 0 of
    the first [__last] and [interval] are taken as floats, which is what
    the arithmetic of [process] turns them into. *)
Definition init (host : string) (port : Z) (rootTopic : string)
    (interval : float) : t :=
  {| name := "mqtt";
     last := (0, [0; 0; 0])%float;
     host := host;
     port := port;
     rootTopic := rootTopic;
     interval := (interval + interval * MARGIN_PERCENT)%float;
     spawned := 0 |}.

Definition buildCommand (self : t) (topic value : string) : list string :=
  [MOSQUITTO_PUB] ++ ["-i"; name self] ++ ["-h"; host self] ++
  ["-p"; format_int (port self)] ++
  ["-t"; rootTopic self +:+ "/" +:+ topic] ++ ["-m"; value].

Definition set_last (current : float * list float) : M t unit := λ self,
  ([], {| name := name self; last := current; host := host self;
          port := port self; rootTopic := rootTopic self;
          interval := interval self; spawned := spawned self |}, Ok tt).

Definition executeCommand (command : list string) : M t Z := λ self,
  let self' :=
    {| name := name self; last := last self; host := host self;
       port := port self; rootTopic := rootTopic self;
       interval := interval self; spawned := S (spawned self) |} in
  match subprocess_call (spawned self) command with
  | Ok retcode =>
    ([Log DEBUG "Executing: %s"; Exec command] ++
     (if negb (retcode =? 0)%Z then [Log ERROR "Unable to execute command"]
      else []),
     self', Ok retcode)
  | Raise e => ([Log DEBUG "Executing: %s"; Exec command], self', Raise e)
  end.

(** [[float(d[x].split("*")[0]) for x in keys if x in edis]] *)
Fixpoint readings (d : gmap string string) (keys : list string)
    : res (list float) :=
  match keys with
  | [] => Ok []
  | x :: keys =>
    if bool_decide (x ∈ edis) then
      match d !! x with
      | None => Raise (KeyError x)
      | Some s =>
        match float_of_str (before_star s) with
        | Ok v =>
          match readings d keys with
          | Ok vs => Ok (v :: vs)
          | Raise e => Raise e
          end
        | Raise e => Raise e
        end
      end
    else readings d keys
  end.

(** [for key, value in pairs:] publish [value] under [prefix/key]. *)
Fixpoint publish (self0 : t) (timestamp : float) (prefix : string)
    (info : bool) (pairs : list (string * float)) : M t unit :=
  match pairs with
  | [] => ret tt
  | (key, value) :: pairs =>
    let* message := lift (format_reading timestamp value) in
    let topic := prefix +:+ key in
    let command := buildCommand self0 topic message in
    executeCommand command;;
    (if info then logging INFO "%s = %.3f kWh" else ret tt);;
    publish self0 timestamp prefix info pairs
  end.

Definition process (timestamp : float) (data : string) : M t unit :=
  let* self := get in
  let d := Processor.extract data in
  let* index := lift (readings d (iter data d)) in
  let current := (timestamp, index) in
  (* current *)
  (if negb (fst (last self) =? 0)%float then
     let interval_ := (fst current - fst (last self))%float in
     if (interval_ <? interval self)%float then
       let func x y :=
         if (interval_ =? 0)%float then Raise ZeroDivisionError
         else Ok ((x - y) * 3600 / interval_)%float in
       let* values := lift (map2 func (snd current) (snd (last self))) in
       publish self timestamp "current/" false (zip names values)
     else
       logging ERROR "Interval too long: %.2f"
   else ret tt);;
  (* index *)
  publish self timestamp "index/" true (zip names index);;
  (* power down counter *)
  let* s := lift (match d !! "C.7.0" with
                  | Some s => Ok s
                  | None => Raise (KeyError "C.7.0")
                  end) in
  let* n := lift (int_of_str s) in
  let* message := lift (format_counter timestamp n) in
  let topic := "powerdown/counter" in
  let command := buildCommand self topic message in
  executeCommand command;;
  set_last current.

(** A command that publishes under a topic that starts with [topic]. *)
Definition publishes_under (self : t) (topic : string)
    (command : list string) : Prop :=
  ∃ key message, command = buildCommand self (topic +:+ key) message.
End process.

End MqttProcessor.

(** ** Reference builtins

    Plain implementations of the Python builtins the sinks call, for
    running the model on concrete readings: decimal literals as the
    meter prints them, finite floats. *)

Module Builtins.

(** The value of a string of decimal digits. *)
Fixpoint digits_value (acc : Z) (s : string) : option Z :=
  match s with
  | EmptyString => Some acc
  | String c s =>
    if Re.digit c then digits_value (10 * acc + Z.of_nat (nat_of_ascii c) - 48) s
    else None
  end.

(** [int(s)] on a non-empty string of digits. *)
Definition int_of_str (s : string) : res Z :=
  match s with
  | EmptyString => Raise ValueError
  | _ => match digits_value 0 s with Some n => Ok n | None => Raise ValueError end
  end.

(** Splits a literal at its decimal point. *)
Fixpoint before_point (s : string) : string * option string :=
  match s with
  | EmptyString => (EmptyString, None)
  | String c s =>
    if Ascii.eqb c "." then (EmptyString, Some s)
    else let '(a, b) := before_point s in (String c a, b)
  end.

Definition float_of_Z (n : Z) : float := PrimFloat.of_uint63 (Uint63.of_Z n).

(** [float(s)] on [digits] and [digits.digits], when the digits read as
    one number stay below 2^53 and at most 18 follow the point: both
    operands are exact and one correctly rounded division gives the
    nearest float. *)
Definition float_of_str (s : string) : res float :=
  let '(a, b) := before_point s in
  let frac := default EmptyString b in
  match a +:+ frac with
  | EmptyString => Raise ValueError
  | ds =>
    match digits_value 0 ds with
    | Some m =>
      if (m <? 2 ^ 53)%Z && (len frac <=? 18)%nat
      then Ok (float_of_Z m / float_of_Z (10 ^ Z.of_nat (len frac)))%float
      else Raise ValueError
    | None => Raise ValueError
    end
  end.

(** [f * 10^digits], rounded to the nearest integer, ties to even. *)
Definition scaled (digits : nat) (f : float) : option Z :=
  match Prim2SF f with
  | S754_zero _ => Some 0%Z
  | S754_finite s m e =>
    let n := (Z.pos m * 10 ^ Z.of_nat digits)%Z in
    let q :=
      if (0 <=? e)%Z then (n * 2 ^ e)%Z
      else
        let d := (2 ^ (- e))%Z in
        let q := (n / d)%Z in
        let r := (n mod d)%Z in
        if (2 * r <? d)%Z then q
        else if (d <? 2 * r)%Z then (q + 1)%Z
        else if Z.even q then q else (q + 1)%Z in
    Some (if s then (- q)%Z else q)
  | _ => None
  end.

(** [int(f)]: towards zero. *)
Definition truncate (f : float) : option Z :=
  match Prim2SF f with
  | S754_zero _ => Some 0%Z
  | S754_finite s m e =>
    let q := if (0 <=? e)%Z then (Z.pos m * 2 ^ e)%Z else (Z.pos m / 2 ^ (- e))%Z in
    Some (if s then (- q)%Z else q)
  | _ => None
  end.

(** ["%d" % n] *)
Definition format_int (n : Z) : string :=
  DecimalString.NilZero.string_of_int (Z.to_int n).

Definition pad3 (n : Z) : string :=
  let s := format_int n in
  match len s with
  | 1%nat => "00" +:+ s
  | 2%nat => "0" +:+ s
  | _ => s
  end.

(** ["%.3f" % f] *)
Definition format_f3 (f : float) : option string :=
  match scaled 3 f with
  | Some q =>
    Some ((if (q <? 0)%Z then "-" else "") +:+ format_int (Z.abs q / 1000) +:+ "."
          +:+ pad3 (Z.abs q mod 1000))
  | None => None
  end.

(** ["%d %.3f" % (timestamp, value)] *)
Definition format_reading (timestamp value : float) : res string :=
  match truncate timestamp, format_f3 value with
  | Some t, Some v => Ok (format_int t +:+ " " +:+ v)
  | _, _ => Raise ValueError
  end.

(** ["%d %d" % (timestamp, n)] *)
Definition format_counter (timestamp : float) (n : Z) : res string :=
  match truncate timestamp with
  | Some t => Ok (format_int t +:+ " " +:+ format_int n)
  | None => Raise ValueError
  end.

(** The keys of a [dict], in the order of the map. *)
Definition iter (data : string) (d : gmap string string) : list string :=
  (map_to_list d).*1.

(** Subprocesses that start and succeed. *)
Definition subprocess_call (n : nat) (command : list string) : res Z := Ok 0%Z.

Definition process : float → string → M MqttProcessor.t unit :=
  MqttProcessor.process iter float_of_str int_of_str format_reading
    format_counter format_int subprocess_call.

End Builtins.

(** ** Sample runs *)

Module Samples.

(** A first block, read at second 60 by a fresh MQTT sink with a nominal
    interval of 60 s. *)
Definition fresh : MqttProcessor.t :=
  MqttProcessor.init "localhost" 1883 "/home/energy" 60.
Definition early_block : string :=
  "1-0:1.8.0*255(0000100.000*kWh) 0-0:C.7.0*255(5)".

(** The sink afterwards: it retains 100 kWh at second 60. *)
Definition prior : MqttProcessor.t :=
  {| MqttProcessor.name := "mqtt";
     MqttProcessor.last := (60, [100])%float;
     MqttProcessor.host := "localhost";
     MqttProcessor.port := 1883;
     MqttProcessor.rootTopic := "/home/energy";
     MqttProcessor.interval := 90;
     MqttProcessor.spawned := 2 |}.

(** The block read an hour later. *)
Definition late_block : string :=
  "1-0:1.8.0*255(0000101.000*kWh) 0-0:C.7.0*255(5)".

(** An identification reply and a short data block. *)
Definition ident : string := "/ISk5MT174-0001".
Definition payload : list ascii := list_ascii_of_string "1.8.0(1)".
Definition crlf : list ascii := ["013"; "010"]%char.

(** Sinks over a journal of the blocks received: one that always fails,
    one in whose [process] the interrupt signal arrives, one that calls
    [sys.exit()], and one that records what it is given. *)
Definition failing : Scheduler.Sink (list string) :=
  Scheduler.mkSink "failing" (λ _ _, raise (Exception "unreachable bus")).
Definition interrupted : Scheduler.Sink (list string) :=
  Scheduler.mkSink "interrupted" (λ _ _, raise KeyboardInterrupt).
Definition exiting : Scheduler.Sink (list string) :=
  Scheduler.mkSink "exiting" (λ _ _, raise SystemExit).
Definition recording : Scheduler.Sink (list string) :=
  Scheduler.mkSink "recording" (λ _ data, λ s, ([], data :: s, Ok tt)).

(** A meter that answers at once. *)
Definition meter {S} : M S string := ret "0-0:C.7.0*255(5)".

(** A clock for four cycles without sinks (four readings each), the
    first three of 65 s, the fourth of one second. *)
Definition readings : list float :=
  [1000; 1000; 1000; 1065;  1065; 1065; 1065; 1130;
   1130; 1130; 1130; 1195;  1195; 1195; 1195; 1196;  1196]%float.

Definition world {S} (s : S) : Scheduler.World S :=
  Scheduler.mkWorld (λ n, nth n readings 1196%float) 0 (λ _, false) 0 s.

End Samples.

(** ** Class [EibdProcessor] *)

Module EibdProcessor.

Definition GROUPWRITE : string := "/usr/local/bin/groupwrite".

(** The instance: the name given to [Processor.__init__] and the host. *)
Record t : Type := mk {
  name : string;
  host : string
}.

(** [EibdProcessor(host)] *)
Definition init (host : string) : t := {| name := "eibd"; host := host |}.

(** One digit of the presentation type [x]: base 16, lower case. *)
Definition hex_digit (n : N) : ascii :=
  match n with
  | 0 => "0" | 1 => "1" | 2 => "2" | 3 => "3" | 4 => "4" | 5 => "5"
  | 6 => "6" | 7 => "7" | 8 => "8" | 9 => "9" | 10 => "a" | 11 => "b"
  | 12 => "c" | 13 => "d" | 14 => "e" | _ => "f"
  end%N%char.

(** The digits of [n] in base 16, written in front of [acc]; [fuel]
    bounds the number of digits after the first. *)
Fixpoint hex_from (fuel : nat) (n : N) (acc : string) : string :=
  let acc := String (hex_digit (n mod 16)) acc in
  match fuel with
  | O => acc
  | S fuel => if (n / 16 =? 0)%N then acc else hex_from fuel (n / 16) acc
  end.

(** ["{0:x}".format(n)] for [n >= 0] *)
Definition format_x (n : N) : string := hex_from (N.size_nat n) n "".

(** ["{0:0{1}x}".format(n, width)] for [n >= 0]: zeros in front up to
    [width] characters, nothing cut off. *)
Definition format_0x (n : N) (width : nat) : string :=
  let s := format_x n in
  string_of_list_ascii (repeat "0"%char (width - len s)) +:+ s.

(** [[number[i:i+2] for i in xrange(0, len(number), 2)]] *)
Fixpoint slices (number : string) : list string :=
  match number with
  | EmptyString => []
  | String a EmptyString => [String a ""]
  | String a (String b number) => String a (String b "") :: slices number
  end.

(** [raise Exception(text, value)] has two arguments; the exception is
    kept by its text. *)
Definition convertTo4Bytes (value : Z) : res (list string) :=
  if (value <? 0)%Z then
    Raise (Exception "Value smaller than 0: %d")
  else if (value >? 2147483647)%Z then
    Raise (Exception "Value greater than 2147483647: %d")
  else
    let number := format_0x (Z.to_N value) 8 in
    Ok (map (λ s, "0x" +:+ s) (slices number)).

Definition buildCommand (self : t) (groupAddress : string)
    (bytes : list string) : list string :=
  [GROUPWRITE] ++ [host self] ++ [groupAddress] ++ bytes.

(** The call of [subprocess.call] is commented out in the program:
    [retcode] is the constant 0. *)
Definition executeCommand (command : list string) : M t Z :=
  logging DEBUG "Executing: %s";;
  let retcode := 0%Z in
  (if negb (retcode =? 0)%Z then logging ERROR "Unable to execute command"
   else ret tt);;
  ret retcode.

Definition ga : list string := ["14/1/0"; "14/1/1"; "14/1/2"].

Section process.
(** What the interpreter contributes: the order of [for x in d],
    [float(s)], [int(s)], [int(f)] of a float and [hex(n)]. *)
Variable iter : string → gmap string string → list string.
Variable float_of_str : string → res float.
Variable int_of_str : string → res Z.
Variable int_of_float : float → res Z.
Variable hex : Z → string.

(** [for key, value in zip(ga, index):] *)
Fixpoint write_index (self : t) (pairs : list (string * float)) : M t unit :=
  match pairs with
  | [] => ret tt
  | (key, value) :: pairs =>
    let* Wh := lift (int_of_float (value * 1000)%float) in
    let* bytes := lift (convertTo4Bytes Wh) in
    let command := buildCommand self key bytes in
    executeCommand command;;
    logging INFO "%s = %d Wh";;
    write_index self pairs
  end.

(** The list comprehension over [edis] is the one of
    [MqttProcessor.process], with the same codes. *)
Definition process (timestamp : float) (data : string) : M t unit :=
  let* self := get in
  let d := Processor.extract data in
  let* index := lift (MqttProcessor.readings float_of_str d (iter data d)) in
  write_index self (MqttProcessor.zip ga index);;
  (* power down counter *)
  let key := "14/1/3" in
  let* s := lift (match d !! "C.7.0" with
                  | Some s => Ok s
                  | None => Raise (KeyError "C.7.0")
                  end) in
  let* value := lift (int_of_str s) in
  let command := buildCommand self key [hex value] in
  logging INFO "%s = %d times";;
  executeCommand command;;
  ret tt.
End process.

(** *** Vocabulary for the properties of [EibdProcessor] *)

(** A byte as [groupwrite] takes it: [0x] and two digits. *)
Definition hex_byte (b : N) : string :=
  "0x" +:+ String (hex_digit (b / 16)) (String (hex_digit (b mod 16)) "").

(** Reading such a byte back: the value of a digit, of a byte. *)
Definition hex_value (c : ascii) : option N :=
  let n := N_of_ascii c in
  if (48 <=? n)%N && (n <=? 57)%N then Some (n - 48)%N
  else if (97 <=? n)%N && (n <=? 102)%N then Some (n - 87)%N
  else None.

Definition byte_value (s : string) : option N :=
  match s with
  | String "0" (String "x" (String a (String b EmptyString))) =>
    match hex_value a, hex_value b with
    | Some x, Some y => Some (16 * x + y)%N
    | _, _ => None
    end
  | _ => None
  end.

(** The number a list of bytes stands for, the first byte counting
    most. *)
Definition bytes_value (bytes : list string) : option N :=
  foldl (λ acc s,
           match acc, byte_value s with
           | Some n, Some b => Some (256 * n + b)%N
           | _, _ => None
           end) (Some 0%N) bytes.

(** [k] zeros, and [w] digits of [n] in base 16. *)
Definition zeros (k : nat) : string := string_of_list_ascii (repeat "0"%char k).

Fixpoint digits16 (w : nat) (n : N) : string :=
  match w with
  | O => ""
  | S w => digits16 w (n / 16) +:+ String (hex_digit (n mod 16)) ""
  end.

(** What [process] does to the outside: records at the levels DEBUG
    and INFO. *)
Definition report (e : event) : Prop :=
  ∃ t, e = Log DEBUG t ∨ e = Log INFO t.

(** A reading the bus takes: its thousandfold, cut to an integer, fits
    31 bits. *)
Definition fits (int_of_float : float → res Z) (value : float) : Prop :=
  ∃ Wh, int_of_float (value * 1000)%float = Ok Wh ∧ (0 ≤ Wh ≤ 2147483647)%Z.

End EibdProcessor.

(** Reference builtins for [EibdProcessor.process]: [int(f)] on a finite
    float (the error stands for the two Python raises on a float that is
    not finite) and [hex(n)] on an [int]. *)
Module EibdBuiltins.

Definition int_of_float (f : float) : res Z :=
  match Builtins.truncate f with
  | Some n => Ok n
  | None => Raise ValueError
  end.

Definition hex (n : Z) : string :=
  (if (n <? 0)%Z then "-" else "") +:+ "0x" +:+ EibdProcessor.format_x (Z.abs_N n).

Definition process : float → string → M EibdProcessor.t unit :=
  EibdProcessor.process Builtins.iter Builtins.float_of_str Builtins.int_of_str
    int_of_float hex.

End EibdBuiltins.

(** ** Further vocabulary *)

Module MT174_more.
Import MT174.

(** What [read] lets the outside see apart from what it writes: debug
    and warning records and settle delays. *)
Definition quiet (e : event) : Prop :=
  e = Sleep DELAY ∨ ∃ t, e = Log DEBUG t ∨ e = Log WARNING t.

End MT174_more.
Module MqttProcessor_more.
Import MqttProcessor.

(** The commands started in a run, in order. *)
Definition commands (evs : list event) : list (list string) :=
  omap (λ e, match e with Exec c => Some c | _ => None end) evs.

(** Two runs that start the same commands and end in the same state
    with the same outcome; they may differ in what they log. *)
Definition alike {σ A} (o1 o2 : list event * σ * res A) : Prop :=
  commands (events o1) = commands (events o2) ∧
  final o1 = final o2 ∧ result o1 = result o2.

(** What [publish] and [executeCommand] do to the outside. *)
Definition publication (format_int : Z → string) (self : t) (topic : string)
    (e : event) : Prop :=
  e = Log DEBUG "Executing: %s" ∨
  e = Log ERROR "Unable to execute command" ∨
  e = Log INFO "%s = %.3f kWh" ∨
  ∃ c, e = Exec c ∧ publishes_under format_int self topic c.

Section process.
Variable iter : string → gmap string string → list string.
Variable float_of_str : string → res float.
Variable int_of_str : string → res Z.
Variable format_reading : float → float → res string.
Variable format_counter : float → Z → res string.
Variable format_int : Z → string.
Variable subprocess_call : nat → list string → res Z.

(** The part of [process] under the comment [# current]. *)
Definition current (self : t) (timestamp : float) (index : list float)
    : M t unit :=
  if negb (fst (last self) =? 0)%float then
    let interval_ := (timestamp - fst (last self))%float in
    if (interval_ <? interval self)%float then
      let func x y :=
        if (interval_ =? 0)%float then Raise ZeroDivisionError
        else Ok ((x - y) * 3600 / interval_)%float in
      let* values := lift (map2 func index (snd (last self))) in
      publish format_reading format_int subprocess_call
        self timestamp "current/" false (zip names values)
    else
      logging ERROR "Interval too long: %.2f"
  else ret tt.

(** The part from the comment [# power down counter] to the end. *)
Definition counter (self : t) (d : gmap string string)
    (current : float * list float) : M t unit :=
  let* s := lift (match d !! "C.7.0" with
                  | Some s => Ok s
                  | None => Raise (KeyError "C.7.0")
                  end) in
  let* n := lift (int_of_str s) in
  let* message := lift (format_counter (fst current) n) in
  executeCommand subprocess_call
    (buildCommand format_int self "powerdown/counter" message);;
  set_last current.
End process.

(** The fields [process] never assigns. *)
Definition same_settings (s1 s2 : t) : Prop :=
  name s1 = name s2 ∧ host s1 = host s2 ∧ port s1 = port s2 ∧
  rootTopic s1 = rootTopic s2 ∧ interval s1 = interval s2.

End MqttProcessor_more.
Module Scheduler_more.
Import Scheduler.

(** The world after [k] turns of waiting: the clock read [k] times,
    [k] ticks slept. *)
Definition waited {S} (k : nat) (w : World S) : World S :=
  mkWorld (clock w) (ticks w + k) (signal w) (naps w + k) (store w).

(** The next [k] tests of the inner [while] of [run] find the window
    open, and no interrupt arrives in the sleeps that follow them. *)
Definition waiting {S} (interval : float) (k : nat) (start : float)
    (w : World S) : Prop :=
  ∀ i, (i < k)%nat →
    (clock w (ticks w + i) - start <? interval)%float = true ∧
    signal w (naps w + i) = false.

End Scheduler_more.

(** * Properties *)

(** Membership in a list that is written out. *)
Ltac in_list := repeat (apply elem_of_cons; first [ left; reflexivity | right ]).
Ltac list_mem :=
  repeat match goal with
  | H : _ ∈ _ ++ _ |- _ => apply elem_of_app in H as [H|H]
  | H : _ ∈ _ :: _ |- _ => apply elem_of_cons in H as [H|H]
  | H : _ ∈ [] |- _ => by apply elem_of_nil in H
  | H : Exec _ = Exec _ |- _ => injection H as H; subst
  | H : _ = _ |- _ => discriminate H
  end; try done.

Lemma bind_run {σ A B} (c : M σ A) (k : A → M σ B) s :
  bind c k s =
  match c s with
  | (ev, s', Ok a) => let '(ev', s'', r) := k a s' in (ev ++ ev', s'', r)
  | (ev, s', Raise e) => (ev, s', Raise e)
  end.
Proof. done. Qed.

Lemma bind_assoc {σ A B C} (c : M σ A) (k1 : A → M σ B) (k2 : B → M σ C) s :
  bind (bind c k1) k2 s = bind c (λ a, bind (k1 a) k2) s.
Proof.
  unfold bind. destruct (c s) as [[ev s'] [a|e]]; [|done].
  destruct (k1 a s') as [[ev1 s1] [b|e]]; [|done].
  destruct (k2 b s1) as [[ev2 s2] r]. by rewrite List.app_assoc.
Qed.

(** ** Strings *)

Lemma app_cons (c : ascii) (s t : string) : String c s +:+ t = String c (s +:+ t).
Proof. done. Qed.

Lemma app_empty_l (s : string) : "" +:+ s = s.
Proof. done. Qed.

Lemma app_empty_r (s : string) : s +:+ "" = s.
Proof. induction s as [|c s IH]; [done | by rewrite app_cons, IH]. Qed.

Lemma app_assoc_str (s1 s2 s3 : string) : (s1 +:+ s2) +:+ s3 = s1 +:+ (s2 +:+ s3).
Proof. induction s1 as [|c s1 IH]; [done | by rewrite !app_cons, IH]. Qed.

Lemma one_char_eqb (a b : ascii) :
  String.eqb (String a "") (String b "") = Ascii.eqb a b.
Proof. simpl. by destruct (Ascii.eqb a b). Qed.

Lemma ascii_eqb_false (a b : ascii) : a ≠ b → Ascii.eqb a b = false.
Proof. intros H. by apply Ascii.eqb_neq. Qed.

Module MT174_facts.
Import MT174.

Lemma data_loop_eq bytes BCC datablock x :
  data_loop bytes BCC datablock x =
  if String.eqb x "!" then (Ok (BCC, datablock, x), bytes) else
  match ord x with
  | Raise e => (Raise e, bytes)
  | Ok o =>
    match bytes with
    | [] => (Raise (Exception "Empty string instead of data"), [])
    | b :: bytes =>
      if (len (received b) =? 0)%nat
      then (Raise (Exception "Empty string instead of data"), bytes)
      else data_loop bytes (N.lxor BCC o) (datablock +:+ x) (received b)
    end
  end.
Proof. by destruct bytes. Qed.

Lemma etx_loop_eq bytes BCC x :
  etx_loop bytes BCC x =
  if String.eqb x ETX then (Ok (BCC, x), bytes) else
  match ord x with
  | Raise e => (Raise e, bytes)
  | Ok o =>
    match bytes with
    | [] => (Raise (Exception "Empty string instead of data"), [])
    | b :: bytes =>
      if (len (received b) =? 0)%nat
      then (Raise (Exception "Empty string instead of data"), bytes)
      else etx_loop bytes (N.lxor BCC o) (received b)
    end
  end.
Proof. by destruct bytes. Qed.

(** The first loop, started on the first byte of [l ++ "!"], takes [l]
    into the data block and stops on the mark. *)
Lemma data_loop_frame (l : list ascii) (BCC : N) (datablock : string)
    (rest : list (option ascii)) :
  Forall (λ c, c ≠ bang) l →
  data_loop (map Some (tail (l ++ [bang])) ++ rest) BCC datablock
    (String (hd bang (l ++ [bang])) "")
  = (Ok (block_check BCC l, datablock +:+ string_of_list_ascii l, "!"), rest).
Proof.
  intros Hl. revert BCC datablock.
  induction Hl as [|a l Ha Hl IH]; intros BCC datablock.
  - rewrite data_loop_eq. simpl. by rewrite app_empty_r.
  - rewrite data_loop_eq. rewrite one_char_eqb, ascii_eqb_false by done.
    cbn [ord app hd tail].
    replace (map Some (l ++ [bang]) ++ rest)
      with (Some (hd bang (l ++ [bang])) :: map Some (tail (l ++ [bang])) ++ rest)
      by (by destruct l).
    cbn [received len String.length Nat.eqb].
    rewrite IH. cbn [block_check fold_left string_of_list_ascii].
    by rewrite app_assoc_str, app_cons, app_empty_l.
Qed.

(** The second loop, started on the first byte of [l ++ ETX], folds [l]
    into the check and stops on ETX. *)
Lemma etx_loop_frame (l : list ascii) (BCC : N) (rest : list (option ascii)) :
  Forall (λ c, c ≠ etx) l →
  etx_loop (map Some (tail (l ++ [etx])) ++ rest) BCC
    (String (hd etx (l ++ [etx])) "")
  = (Ok (block_check BCC l, ETX), rest).
Proof.
  intros Hl. revert BCC.
  induction Hl as [|a l Ha Hl IH]; intros BCC.
  - by rewrite etx_loop_eq.
  - rewrite etx_loop_eq. unfold ETX at 1. rewrite one_char_eqb, ascii_eqb_false by done.
    cbn [ord app hd tail].
    replace (map Some (l ++ [etx]) ++ rest)
      with (Some (hd etx (l ++ [etx])) :: map Some (tail (l ++ [etx])) ++ rest)
      by (by destruct l).
    cbn [received len String.length Nat.eqb].
    by rewrite IH.
Qed.

Lemma identification_inv line :
  identification line → ∃ s, line = String "/" s ∧ (6 ≤ len s)%nat.
Proof.
  intros (Hn & Hh & Hl). destruct line as [|c s]; [done|].
  simpl in Hh. injection Hh as ->. exists s. split; [done|]. simpl in Hl. lia.
Qed.

Ltac run_monad :=
  cbv beta iota zeta delta
    [bind ret raise emit lift logging time_sleep delay write readline read1
     on_input isOpen close try_finally reply rx tx opened received
     events final result fst snd].

Lemma exchange_identified line bytes :
  identification line →
  exchange (Serial_open line bytes) =
  let '(ev, p, r) :=
    data_message {| reply := ""; rx := bytes; tx := [hello; ack]; opened := true |} in
  (handshake_events ++ ev, p, r).
Proof.
  intros Hid. destruct (identification_inv _ Hid) as (s & -> & Hs).
  unfold exchange, Serial_open.
  run_monad. cbn [len String.length Nat.eqb head_char].
  replace (S (String.length s) <? 7)%nat with false by (symmetry; apply Nat.ltb_ge; unfold len in Hs; lia).
  cbn [Ascii.eqb Bool.eqb negb app].
  by destruct (data_message _) as [[ev p] r].
Qed.

Lemma block_split payload trailer rest :
  block payload trailer ++ rest =
  Some stx :: Some (hd bang (payload ++ [bang])) ::
    (map Some (tail (payload ++ [bang])) ++
     (map Some (tail ((bang :: trailer) ++ [etx])) ++ rest)).
Proof.
  unfold block. cbn [map app tail]. f_equal.
  destruct payload as [|a payload]; cbn [app hd tail map];
    repeat (rewrite List.map_app; cbn [map app]);
    rewrite <- ?List.app_assoc; cbn [app]; by rewrite <- ?List.app_assoc.
Qed.

Lemma block_check_app BCC l1 l2 :
  block_check BCC (l1 ++ l2) = block_check (block_check BCC l1) l2.
Proof. apply fold_left_app. Qed.

Lemma data_message_block payload trailer rest p :
  Forall (λ c, c ≠ bang) payload →
  Forall (λ c, c ≠ etx) trailer →
  rx p = block payload trailer ++ rest →
  data_message p =
  ([], {| reply := reply p; rx := tail rest; tx := tx p; opened := opened p |},
   match ord (next_read rest) with
   | Ok o =>
     if (block_check 0 (payload ++ bang :: trailer ++ [etx]) =? o)%N
     then Ok (string_of_list_ascii payload)
     else Raise (Exception "Result not OK, try again")
   | Raise e => Raise e
   end).
Proof.
  intros Hp Ht Hrx. rewrite block_split in Hrx.
  destruct p as [line bytes out o]. cbn [rx] in Hrx. subst bytes.
  unfold data_message. run_monad.
  cbv beta iota zeta. unfold STX. rewrite one_char_eqb. cbn [Ascii.eqb Bool.eqb stx].
  cbn [len String.length Nat.eqb].
  rewrite data_loop_frame by done. cbv beta iota zeta.
  change "!"%string with (String (hd etx ((bang :: trailer) ++ [etx])) "").
  rewrite etx_loop_frame by (constructor; done).
  cbv beta iota zeta. cbn [ord ETX].
  replace (block_check 0 (payload ++ bang :: trailer ++ [etx]))
    with (N.lxor (block_check (block_check 0 payload) (bang :: trailer))
            (N_of_ascii "003")).
  2:{ rewrite block_check_app.
      change (bang :: trailer ++ [etx]) with ((bang :: trailer) ++ [etx]).
      by rewrite block_check_app. }
  destruct rest as [|b rest]; cbn [next_read tail].
  - done.
  - destruct b as [c|]; cbn [received ord]; [|done].
    by destruct (_ =? _)%N.
Qed.

Lemma data_message_frame payload trailer bcc rest p :
  Forall (λ c, c ≠ bang) payload →
  Forall (λ c, c ≠ etx) trailer →
  rx p = frame payload trailer bcc ++ rest →
  data_message p =
  ([], {| reply := reply p; rx := rest; tx := tx p; opened := opened p |},
   if (block_check 0 (payload ++ bang :: trailer ++ [etx]) =? N_of_ascii bcc)%N
   then Ok (string_of_list_ascii payload)
   else Raise (Exception "Result not OK, try again")).
Proof.
  intros Hp Ht Hrx.
  rewrite (data_message_block payload trailer (Some bcc :: rest));
    [by cbn [next_read tail received ord] | done | done |].
  rewrite Hrx. unfold frame, block.
  change (stx :: payload ++ bang :: trailer ++ [etx; bcc])
    with (stx :: payload ++ bang :: trailer ++ [etx] ++ [bcc]).
  change (stx :: payload ++ bang :: trailer ++ [etx] ++ [bcc])
    with ((stx :: payload) ++ (bang :: trailer) ++ [etx] ++ [bcc]).
  rewrite !List.app_assoc, List.map_app. cbn [map]. by rewrite <- !List.app_assoc.
Qed.

(** The port is closed when [read] is over, and what was written stays. *)
Lemma read_outcome p :
  result (read p) = result (exchange p) ∧
  tx (final (read p)) = tx (final (exchange p)) ∧
  opened (final (read p)) = false ∧
  events (read p) = Log DEBUG "Opening serial port %s" :: events (exchange p).
Proof.
  unfold read. run_monad.
  destruct (exchange p) as [[ev [line bytes out o]] r].
  destruct o; cbn; rewrite ?app_nil_r; done.
Qed.

Lemma read_frame line payload trailer bcc rest :
  identification line →
  Forall (λ c, c ≠ bang) payload →
  Forall (λ c, c ≠ etx) trailer →
  result (read (Serial_open line (frame payload trailer bcc ++ rest))) =
    if (block_check 0 (payload ++ bang :: trailer ++ [etx]) =? N_of_ascii bcc)%N
    then Ok (string_of_list_ascii payload)
    else Raise (Exception "Result not OK, try again").
Proof.
  intros Hid Hp Ht.
  destruct (read_outcome (Serial_open line (frame payload trailer bcc ++ rest)))
    as (-> & _).
  rewrite exchange_identified by done.
  by erewrite data_message_frame.
Qed.

(** C1.  On a line whose identification reply is valid and which then
    sends STX, a data block, the mark [!], the rest up to ETX, ETX and a
    check character: when the check character is the XOR of every byte
    from the first byte of the block through ETX, [read] returns exactly
    the data block; with any other check character in its place, [read]
    raises the checksum error and returns nothing. *)
Theorem read_checks_block (line : string) (payload trailer : list ascii)
    (bcc bcc' : ascii) (rest : list (option ascii)) :
  identification line →
  Forall (λ c, c ≠ bang) payload →
  Forall (λ c, c ≠ etx) trailer →
  N_of_ascii bcc = block_check 0 (payload ++ bang :: trailer ++ [etx]) →
  bcc' ≠ bcc →
  result (read (Serial_open line (frame payload trailer bcc ++ rest)))
    = Ok (string_of_list_ascii payload) ∧
  result (read (Serial_open line (frame payload trailer bcc' ++ rest)))
    = Raise (Exception "Result not OK, try again").
Proof.
  intros Hid Hp Ht Hbcc Hne. rewrite !read_frame by done. split.
  - by rewrite Hbcc, N.eqb_refl.
  - rewrite <- Hbcc. destruct (N.eqb_spec (N_of_ascii bcc) (N_of_ascii bcc')) as [He|He].
    + destruct Hne. rewrite <- (ascii_N_embedding bcc'), <- (ascii_N_embedding bcc).
      by rewrite He.
    + done.
Qed.

Lemma read_checks_block_witness :
  result (read (Serial_open Samples.ident
    (frame Samples.payload Samples.crlf "," ++ [])))
    = Ok (string_of_list_ascii Samples.payload) ∧
  result (read (Serial_open Samples.ident
    (frame Samples.payload Samples.crlf "-" ++ [])))
    = Raise (Exception "Result not OK, try again").
Proof.
  apply (read_checks_block Samples.ident Samples.payload Samples.crlf "," "-" []).
  - unfold identification. cbn. repeat split; [lia | lia].
  - repeat constructor; by vm_compute.
  - repeat constructor; by vm_compute.
  - vm_compute. reflexivity.
  - by vm_compute.
Defined.

Lemma ord_outcome x : match ord x with Ok _ => True | Raise e => e = TypeError end.
Proof. destruct x as [|c [|c' x]]; done. Qed.

Lemma data_loop_outcome bytes BCC datablock x :
  match data_loop bytes BCC datablock x with
  | (Ok _, _) => True
  | (Raise e, _) => data_error e
  end.
Proof.
  revert BCC datablock x.
  induction bytes as [|b bytes IH]; intros BCC datablock x;
    rewrite data_loop_eq; destruct (String.eqb x "!"); try done;
    pose proof (ord_outcome x) as Ho; destruct (ord x) as [o|e];
    try (subst e; unfold data_error; tauto); try (unfold data_error; tauto).
  destruct (len (received b) =? 0)%nat; [unfold data_error; tauto | apply IH].
Qed.

Lemma etx_loop_outcome bytes BCC x :
  match etx_loop bytes BCC x with
  | (Ok _, _) => True
  | (Raise e, _) => data_error e
  end.
Proof.
  revert BCC x.
  induction bytes as [|b bytes IH]; intros BCC x;
    rewrite etx_loop_eq; destruct (String.eqb x ETX); try done;
    pose proof (ord_outcome x) as Ho; destruct (ord x) as [o|e];
    try (subst e; unfold data_error; tauto); try (unfold data_error; tauto).
  destruct (len (received b) =? 0)%nat; [unfold data_error; tauto | apply IH].
Qed.

Lemma data_message_outcome p :
  tx (final (data_message p)) = tx p ∧
  match result (data_message p) with
  | Ok _ => True
  | Raise e => data_error e
  end.
Proof.
  destruct p as [line bytes out o].
  unfold data_message. run_monad.
  destruct bytes as [|b bytes]; cbv beta iota zeta; [done|].
  destruct (String.eqb _ STX); cbv beta iota zeta; [|done].
  destruct bytes as [|b1 bytes]; cbv beta iota zeta.
  { cbn. unfold data_error. tauto. }
  destruct (len _ =? 0)%nat; cbv beta iota zeta.
  { cbn. unfold data_error. tauto. }
  pose proof (data_loop_outcome bytes 0 ""
                match b1 with Some c => String c "" | None => "" end) as H1.
  destruct (data_loop _ _ _ _) as [[[[BCC datablock] x]|e] bytes1];
    cbv beta iota zeta; [|done].
  pose proof (etx_loop_outcome bytes1 BCC x) as H2.
  destruct (etx_loop _ _ _) as [[[BCC2 x2]|e] bytes2]; cbv beta iota zeta; [|done].
  pose proof (ord_outcome x2) as H3.
  destruct (ord x2) as [o2|e]; cbv beta iota zeta;
    [|subst e; cbn; unfold data_error; tauto].
  destruct bytes2 as [|b3 bytes3]; cbv beta iota zeta.
  { cbn. unfold data_error. tauto. }
  match goal with |- context [ord ?y] =>
    pose proof (ord_outcome y) as H4; destruct (ord y) as [o4|e] end;
    cbv beta iota zeta; [|subst e; cbn; unfold data_error; tauto].
  destruct (negb _); cbn; unfold data_error; tauto.
Qed.

(** C6.  After the greeting, [read] fails, with nothing but the greeting
    written, when the identification reply is empty, when its first
    character is not [/], and when it is shorter than seven characters;
    on a reply that passes the three tests it writes the acknowledgement
    and does not end in an identification error. *)
Theorem read_identification (line : string) (bytes : list (option ascii)) :
  let out := read (Serial_open line bytes) in
  (len line = 0%nat →
     result out = Raise (Exception "Empty string instead of identification") ∧
     tx (final out) = [hello]) ∧
  (len line ≠ 0%nat → head_char line ≠ Ok "/"%char →
     result out = Raise (Exception "No identification message") ∧
     tx (final out) = [hello]) ∧
  (head_char line = Ok "/"%char → (len line < 7)%nat →
     result out = Raise (Exception "Identification message to short") ∧
     tx (final out) = [hello]) ∧
  (identification line →
     tx (final out) = [hello; ack] ∧
     ∀ e, result out = Raise e → ¬ identification_error e).
Proof.
  intros out. subst out.
  destruct (read_outcome (Serial_open line bytes)) as (-> & -> & _).
  repeat split.
  - destruct line; [|done]. done.
  - destruct line; [|done]. done.
  - destruct line as [|c s]; [done|]. unfold exchange, Serial_open. run_monad.
    cbn [len String.length Nat.eqb head_char].
    destruct (Ascii.eqb_spec c "/") as [->|Hc]; [done|]. done.
  - destruct line as [|c s]; [done|]. unfold exchange, Serial_open. run_monad.
    cbn [len String.length Nat.eqb head_char].
    destruct (Ascii.eqb_spec c "/") as [->|Hc]; [done|]. done.
  - destruct line as [|c s]; [done|]. injection H as ->.
    unfold exchange, Serial_open. run_monad.
    cbn [len String.length Nat.eqb head_char Ascii.eqb Bool.eqb negb].
    replace (S (String.length s) <? 7)%nat with true
      by (symmetry; apply Nat.ltb_lt; unfold len in *; simpl in *; lia).
    done.
  - destruct line as [|c s]; [done|]. injection H as ->.
    unfold exchange, Serial_open. run_monad.
    cbn [len String.length Nat.eqb head_char Ascii.eqb Bool.eqb negb].
    replace (S (String.length s) <? 7)%nat with true
      by (symmetry; apply Nat.ltb_lt; unfold len in *; simpl in *; lia).
    done.
  - rewrite exchange_identified by done.
    pose proof (data_message_outcome
      {| reply := ""; rx := bytes; tx := [hello; ack]; opened := true |}) as [Htx _].
    by destruct (data_message _) as [[ev p] r].
  - intros e. rewrite exchange_identified by done.
    pose proof (data_message_outcome
      {| reply := ""; rx := bytes; tx := [hello; ack]; opened := true |}) as [_ Hr].
    destruct (data_message _) as [[ev p] r]. cbn in *. intros ->.
    unfold data_error in Hr. unfold identification_error.
    intros [?|[?|?]]; destruct Hr as [?|[?|?]]; congruence.
Qed.

Lemma read_identification_witness :
  result (read (Serial_open "" []))
    = Raise (Exception "Empty string instead of identification") ∧
  result (read (Serial_open "ISk5MT174-0001" []))
    = Raise (Exception "No identification message") ∧
  result (read (Serial_open "/ISk5" []))
    = Raise (Exception "Identification message to short") ∧
  tx (final (read (Serial_open Samples.ident []))) = [hello; ack].
Proof.
  split; [|split; [|split]].
  - by apply (read_identification "" []).
  - by apply (read_identification "ISk5MT174-0001" []).
  - apply (read_identification "/ISk5" []); [done | cbn; lia].
  - apply (read_identification Samples.ident []).
    unfold identification. cbn. repeat split; lia.
Defined.

(** C7.  When the first byte after the acknowledgement is not STX (or no
    byte comes at all), [read] does not fail: it logs a warning and
    returns the empty data block. *)
Theorem read_without_stx (line : string) (bytes : list (option ascii)) :
  identification line →
  next_read bytes ≠ STX →
  result (read (Serial_open line bytes)) = Ok "" ∧
  Log WARNING "No STX found, not handled" ∈ events (read (Serial_open line bytes)).
Proof.
  intros Hid Hx.
  destruct (read_outcome (Serial_open line bytes)) as (-> & _ & _ & ->).
  rewrite exchange_identified by done.
  assert (data_message {| reply := ""; rx := bytes; tx := [hello; ack]; opened := true |}
          = ([Log WARNING "No STX found, not handled"],
             {| reply := ""; rx := tail bytes; tx := [hello; ack]; opened := true |},
             Ok "")) as ->.
  { unfold data_message. run_monad. unfold next_read, received in Hx.
    destruct bytes as [|b bytes]; cbv beta iota zeta.
    - done.
    - apply String.eqb_neq in Hx. rewrite Hx. done. }
  split; [done|]. cbn. in_list.
Qed.

Lemma read_without_stx_witness :
  result (read (Serial_open Samples.ident [Some "021"%char])) = Ok "" ∧
  Log WARNING "No STX found, not handled"
    ∈ events (read (Serial_open Samples.ident [Some "021"%char])).
Proof.
  apply (read_without_stx Samples.ident [Some "021"%char]).
  - unfold identification. cbn. repeat split; lia.
  - by vm_compute.
Defined.

(** The first loop on input that stops before the mark: the read that
    times out raises the error of a truncated message. *)
Lemma data_loop_cut (l : list ascii) (BCC : N) (datablock : string)
    (rest : list (option ascii)) :
  Forall (λ c, c ≠ bang) l → l ≠ [] → next_read rest = "" →
  (data_loop (map Some (tail l) ++ rest) BCC datablock (String (hd bang l) "")).1
  = Raise (Exception "Empty string instead of data").
Proof.
  intros Hl. revert BCC datablock.
  induction Hl as [|a l Ha Hl IH]; intros BCC datablock Hne Hrest; [done|].
  rewrite data_loop_eq, one_char_eqb, ascii_eqb_false by done.
  cbn [ord hd tail]. destruct l as [|a' l].
  - cbn [map app]. destruct rest as [|b rest]; [done|].
    cbn [next_read] in Hrest. by rewrite Hrest.
  - cbn [map app received len String.length Nat.eqb]. by apply IH.
Qed.

Lemma etx_loop_cut (l : list ascii) (BCC : N) (rest : list (option ascii)) :
  Forall (λ c, c ≠ etx) l → l ≠ [] → next_read rest = "" →
  (etx_loop (map Some (tail l) ++ rest) BCC (String (hd etx l) "")).1
  = Raise (Exception "Empty string instead of data").
Proof.
  intros Hl. revert BCC.
  induction Hl as [|a l Ha Hl IH]; intros BCC Hne Hrest; [done|].
  rewrite etx_loop_eq. unfold ETX at 1.
  rewrite one_char_eqb, ascii_eqb_false by done.
  cbn [ord hd tail]. destruct l as [|a' l].
  - cbn [map app]. destruct rest as [|b rest]; [done|].
    cbn [next_read] in Hrest. by rewrite Hrest.
  - cbn [map app received len String.length Nat.eqb]. by apply IH.
Qed.

(** A message cut in its data block. *)
Lemma data_message_cut_data payload rest p :
  Forall (λ c, c ≠ bang) payload → next_read rest = "" →
  rx p = map Some (stx :: payload) ++ rest →
  result (data_message p) = Raise (Exception "Empty string instead of data").
Proof.
  intros Hp Hrest Hrx. destruct p as [line bytes out o]. cbn [rx] in Hrx. subst bytes.
  unfold data_message. run_monad. cbn [map app]. cbv beta iota zeta.
  unfold STX. rewrite one_char_eqb. cbn [Ascii.eqb Bool.eqb stx].
  destruct payload as [|a payload].
  - cbn [map app]. destruct rest as [|b rest]; [done|].
    cbn [next_read] in Hrest. unfold received in Hrest. by rewrite Hrest.
  - cbn [map app len String.length Nat.eqb].
    pose proof (data_loop_cut (a :: payload) 0 "" rest Hp ltac:(done) Hrest) as Hcut.
    cbn [hd tail] in Hcut.
    by destruct (data_loop _ _ _ _) as [[?|?] ?]; cbn [fst] in Hcut; simplify_eq.
Qed.

(** A message cut between the mark and ETX. *)
Lemma data_message_cut_trailer payload trailer rest p :
  Forall (λ c, c ≠ bang) payload → Forall (λ c, c ≠ etx) trailer →
  next_read rest = "" →
  rx p = map Some (stx :: payload ++ bang :: trailer) ++ rest →
  result (data_message p) = Raise (Exception "Empty string instead of data").
Proof.
  intros Hp Ht Hrest Hrx. destruct p as [line bytes out o]. cbn [rx] in Hrx.
  assert (bytes = Some stx :: Some (hd bang (payload ++ [bang])) ::
            (map Some (tail (payload ++ [bang])) ++
             (map Some (tail (bang :: trailer)) ++ rest))) as ->.
  { subst bytes. cbn [map app tail]. f_equal.
    destruct payload as [|a payload]; cbn [app hd tail map];
      repeat (rewrite List.map_app; cbn [map app]);
      rewrite <- ?List.app_assoc; cbn [app]; by rewrite <- ?List.app_assoc. }
  unfold data_message. run_monad.
  cbv beta iota zeta. unfold STX. rewrite one_char_eqb. cbn [Ascii.eqb Bool.eqb stx].
  cbn [len String.length Nat.eqb].
  rewrite data_loop_frame by done. cbv beta iota zeta.
  pose proof (etx_loop_cut (bang :: trailer) (block_check 0 payload) rest
                ltac:(by constructor) ltac:(done) Hrest) as Hcut.
  cbn [hd] in Hcut.
  change (String bang "") with "!"%string in Hcut.
  by destruct (etx_loop _ _ _) as [[?|?] ?]; cbn [fst] in Hcut; simplify_eq.
Qed.

(** C10.  In the data block and between the mark and ETX, a read that
    times out makes [read] raise the error of a truncated message.  The
    read that should deliver the check character has no such guard: when
    it times out, [ord] is applied to the empty string and a [TypeError]
    comes out instead. *)
Theorem read_check_character_missing (line : string)
    (payload trailer : list ascii) (rest : list (option ascii)) :
  identification line →
  Forall (λ c, c ≠ bang) payload →
  Forall (λ c, c ≠ etx) trailer →
  next_read rest = "" →
  result (read (Serial_open line (map Some (stx :: payload) ++ rest)))
    = Raise (Exception "Empty string instead of data") ∧
  result (read (Serial_open line
                  (map Some (stx :: payload ++ bang :: trailer) ++ rest)))
    = Raise (Exception "Empty string instead of data") ∧
  result (read (Serial_open line (block payload trailer ++ rest))) = Raise TypeError ∧
  result (read (Serial_open line (block payload trailer ++ rest)))
    ≠ Raise (Exception "Empty string instead of data").
Proof.
  intros Hid Hp Ht Hrest.
  assert (∀ bytes, result (read (Serial_open line bytes))
    = result (data_message {| reply := ""; rx := bytes; tx := [hello; ack];
                              opened := true |})) as Hread.
  { intros bytes. destruct (read_outcome (Serial_open line bytes)) as (-> & _).
    rewrite exchange_identified by done. by destruct (data_message _) as [[? ?] ?]. }
  rewrite !Hread. split; [|split].
  - by eapply data_message_cut_data.
  - by eapply data_message_cut_trailer.
  - erewrite data_message_block; [|done..].
    rewrite Hrest. by cbn.
Qed.

Lemma read_check_character_missing_witness :
  result (read (Serial_open Samples.ident (map Some (stx :: Samples.payload) ++ [None])))
    = Raise (Exception "Empty string instead of data") ∧
  result (read (Serial_open Samples.ident
                  (map Some (stx :: Samples.payload ++ bang :: Samples.crlf) ++ [None])))
    = Raise (Exception "Empty string instead of data") ∧
  result (read (Serial_open Samples.ident
     (block Samples.payload Samples.crlf ++ [None])))
   = Raise TypeError ∧
  result (read (Serial_open Samples.ident
     (block Samples.payload Samples.crlf ++ [None])))
    ≠ Raise (Exception "Empty string instead of data").
Proof.
  apply (read_check_character_missing Samples.ident
           Samples.payload Samples.crlf [None]).
  - unfold identification. cbn. repeat split; lia.
  - repeat constructor; by vm_compute.
  - repeat constructor; by vm_compute.
  - reflexivity.
Defined.

End MT174_facts.

Module Re_facts.
Import Re.

Section matcher.
Context {R : Type}.
Implicit Types (k : list ascii → groups → option R) (x : R).

Lemma plus_sound p s (k : list ascii → option R) x :
  plus p s k = Some x →
  ∃ s1 s2, s = s1 ++ s2 ∧ s1 ≠ [] ∧ Forall (λ c, p c = true) s1 ∧ k s2 = Some x.
Proof.
  revert x. induction s as [|c s IH]; intros x; cbn [plus]; [done|].
  destruct (p c) eqn:Hc; [|done].
  destruct (plus p s k) as [y|] eqn:Hs.
  - intros [= <-]. destruct (IH y eq_refl) as (s1 & s2 & -> & _ & Hall & Hk).
    exists (c :: s1), s2. repeat split; [done| |done]. by constructor.
  - intros Hk. exists [c], s. repeat split; [done| |done]. by repeat constructor.
Qed.

Lemma plus_complete p s1 s2 (k : list ascii → option R) :
  s1 ≠ [] → Forall (λ c, p c = true) s1 → is_Some (k s2) →
  is_Some (plus p (s1 ++ s2) k).
Proof.
  intros Hne Hall Hk. induction Hall as [|c s1 Hc Hall IH]; [done|].
  cbn [app plus]. rewrite Hc.
  destruct s1 as [|c' s1].
  - cbn [app]. by destruct (plus p s2 k).
  - destruct IH as [y ->]; [done|]. by eexists.
Qed.

(** A greedy run that has to leave exactly its last character. *)
Lemma plus_last p v c (k : list ascii → option R) :
  v ≠ [] → Forall (λ c, p c = true) v → p c = true →
  k [] = None → is_Some (k [c]) →
  plus p (v ++ [c]) k = k [c].
Proof.
  intros Hne Hall Hc Hnil Hk. induction Hall as [|a v Ha Hall IH]; [done|].
  cbn [app plus]. rewrite Ha. destruct v as [|a' v].
  - cbn [app plus]. by rewrite Hc, Hnil.
  - rewrite IH by done. by destruct Hk as [y ->].
Qed.

Lemma exec_sound r s g k x :
  exec r s g k = Some x →
  ∃ s1 s2 g', s = s1 ++ s2 ∧ matches r s1 g g' ∧ k s2 g' = Some x.
Proof.
  revert s g k x. induction r as [p|r1 IH1 r2 IH2|r IH|p|n r IH];
    intros s g k x; cbn [exec].
  - destruct s as [|c s]; [done|]. destruct (p c) eqn:Hc; [|done].
    intros Hk. exists [c], s, g. repeat split; [|done]. by constructor.
  - intros H. apply IH1 in H as (s1 & s' & g1 & -> & H1 & H).
    apply IH2 in H as (s2 & s3 & g2 & -> & H2 & H).
    exists (s1 ++ s2), s3, g2. repeat split; [by rewrite <- List.app_assoc| |done].
    by econstructor.
  - destruct (exec r s g k) as [y|] eqn:Hr.
    + intros [= <-]. apply IH in Hr as (s1 & s2 & g' & -> & H1 & H).
      exists s1, s2, g'. repeat split; [|done]. by constructor.
    + intros Hk. exists [], s, g. repeat split; [|done]. apply matches_opt_none.
  - intros H. apply plus_sound in H as (s1 & s2 & -> & Hne & Hall & H).
    exists s1, s2, g. repeat split; [|done]. by constructor.
  - intros H. apply IH in H as (s1 & s2 & g' & -> & H1 & H).
    rewrite List.length_app, Nat.add_sub, take_app_length in H.
    exists s1, s2, (<[n := s1]> g'). repeat split; [|done]. by constructor.
Qed.

Lemma exec_complete r s1 g g' :
  matches r s1 g g' →
  ∀ s2 k, is_Some (k s2 g') → is_Some (exec r (s1 ++ s2) g k).
Proof.
  induction 1 as [p c g Hc|r1 r2 s1 s2 g g1 g2 _ IH1 _ IH2|r s g g' _ IH|r g
                  |p s g Hne Hall|n r s g g' _ IH]; intros s3 k Hk; cbn [exec].
  - cbn [app]. by rewrite Hc.
  - rewrite <- List.app_assoc. apply IH1. by apply IH2.
  - destruct (IH s3 k Hk) as [y ->]. by eexists.
  - cbn [app]. by destruct (exec r s3 g k).
  - by apply plus_complete.
  - apply IH. by rewrite List.length_app, Nat.add_sub, take_app_length.
Qed.
End matcher.

End Re_facts.

Module Processor_facts.
Import Re Re_facts Processor.

Lemma code_form_matches c g : code_form c → matches code c g g.
Proof.
  intros (a & b & ds & -> & Ha & Hb & Hds & Fa & Fb & Fds). unfold code.
  apply (matches_seq _ _ a ("."%char :: b ++ "."%char :: ds) g g g).
  { by constructor. }
  apply (matches_seq _ _ ["."%char] (b ++ "."%char :: ds) g g g).
  { by constructor. }
  apply (matches_seq _ _ b ("."%char :: ds) g g g).
  { by constructor. }
  apply (matches_seq _ _ ["."%char] ds g g g).
  { by constructor. }
  by constructor.
Qed.

Ltac invert_matches :=
  repeat match goal with
  | H : matches (Seq _ _) _ _ _ |- _ => inversion H; subst; clear H
  | H : matches (lit _) _ _ _ |- _ => unfold lit in H
  | H : matches (Chr _) _ _ _ |- _ => inversion H; subst; clear H
  | H : matches (Plus _) _ _ _ |- _ => inversion H; subst; clear H
  | H : matches (Group _ _) _ _ _ |- _ => inversion H; subst; clear H
  | H : Ascii.eqb _ _ = true |- _ => apply Ascii.eqb_eq in H; subst
  end.

Lemma matches_code_inv c g g' :
  matches code c g g' →
  g' = g ∧ ∃ xs ds, c = xs ++ "."%char :: ds ∧ ds ≠ [] ∧ Forall (λ x, digit x = true) ds.
Proof.
  unfold code. intros H. invert_matches. split; [done|].
  match goal with |- context [?a ++ ["."%char] ++ ?b ++ ["."%char] ++ ?ds] =>
    exists (a ++ "."%char :: b), ds end.
  split; [|done]. cbn [app]. by rewrite <- !List.app_assoc.
Qed.

Lemma matches_tag_inv t g g' : matches (Opt tag) t g g' → g' = g ∧ (t = [] ∨ t = tag255).
Proof.
  intros H. inversion H; subst; clear H; [|by auto].
  unfold tag in *. invert_matches. split; [done|]. by right.
Qed.

Lemma matches_prefix_inv p g g' :
  matches prefix p g g' → g' = g ∧ group_prefix p.
Proof.
  unfold prefix. intros H. invert_matches. split; [done|].
  eexists _, _. by repeat split.
Qed.

(** Two lists that end in digits after a character that is not one end
    in the same digits after the same character. *)
Lemma digits_then_other ds es x y (xs ys : list ascii) :
  Forall (λ c, digit c = true) ds → Forall (λ c, digit c = true) es →
  digit x = false → digit y = false →
  ds ++ x :: xs = es ++ y :: ys → x = y.
Proof.
  intros Hds. revert es. induction Hds as [|d ds Hd Hds IH]; intros es Hes Hx Hy Heq.
  - destruct Hes as [|e es He Hes]; cbn in Heq; [congruence|].
    injection Heq as -> _. congruence.
  - destruct Hes as [|e es He Hes]; cbn in Heq.
    + injection Heq as -> _. congruence.
    + injection Heq as _ Heq. by eapply IH.
Qed.

Lemma digits_suffix ds es x y (xs ys : list ascii) :
  Forall (λ c, digit c = true) ds → Forall (λ c, digit c = true) es →
  digit x = false → digit y = false →
  xs ++ x :: ds = ys ++ y :: es → x = y.
Proof.
  intros Hds Hes Hx Hy Heq. apply (f_equal (@List.rev ascii)) in Heq.
  rewrite !List.rev_app_distr in Heq. cbn [List.rev] in Heq.
  rewrite <- !List.app_assoc in Heq. cbn [app] in Heq.
  eapply (digits_then_other (List.rev ds) (List.rev es)); [| |done|done|done].
  - by apply Forall_rev.
  - by apply Forall_rev.
Qed.

(** Where the only occurrence of a character is, the list splits in one
    way. *)
Lemma split_at_only (x : ascii) l1 r1 l2 r2 :
  l1 ++ x :: r1 = l2 ++ x :: r2 → x ∉ l2 → x ∉ r2 → l1 = l2 ∧ r1 = r2.
Proof.
  revert l2. induction l1 as [|a l1 IH]; intros l2 Heq Hl Hr.
  - destruct l2 as [|b l2]; cbn in Heq.
    + by injection Heq.
    + injection Heq as <- _. destruct Hl. apply elem_of_cons. by left.
  - destruct l2 as [|b l2]; cbn in Heq.
    + injection Heq as -> Heq. destruct Hr. rewrite <- Heq.
      apply elem_of_app. right. apply elem_of_cons. by left.
    + injection Heq as -> Heq. destruct (IH l2 Heq) as [-> ->]; [|done|done].
      intros Hx. apply Hl, elem_of_cons. by right.
Qed.

Lemma value_part_exec v g :
  v ≠ [] → Forall (λ x, dot x = true) v →
  exec value_part (v ++ [")"%char]) g matched = Some (<[2 := v]> g).
Proof.
  intros Hne Hv. unfold value_part. cbn [exec].
  rewrite plus_last; [|done|done|done|done|].
  - cbn. rewrite List.length_app. cbn [length].
    replace (length v + 1 - 1)%nat with (length v) by lia.
    by rewrite take_app_length.
  - cbn. by eexists.
Qed.

Lemma code_form_digit_end c :
  code_form c → ∃ xs ds, c = xs ++ "."%char :: ds ∧ ds ≠ [] ∧ Forall (λ x, digit x = true) ds.
Proof.
  intros (a & b & ds & -> & _ & _ & Hds & _ & _ & Fds).
  exists (a ++ "."%char :: b), ds. split; [|done].
  by rewrite <- List.app_assoc.
Qed.

Lemma code_tag_unique c c' T T' :
  (∃ xs ds, c = xs ++ "."%char :: ds ∧ ds ≠ [] ∧ Forall (λ x, digit x = true) ds) →
  (∃ xs ds, c' = xs ++ "."%char :: ds ∧ ds ≠ [] ∧ Forall (λ x, digit x = true) ds) →
  T = [] ∨ T = tag255 → T' = [] ∨ T' = tag255 →
  c' ++ T' = c ++ T → c' = c ∧ T' = T.
Proof.
  intros (xs & ds & -> & _ & Hds) (xs' & ds' & -> & _ & Hds') HT HT' Heq.
  assert (Forall (λ c, digit c = true) ["2"; "5"; "5"]%char) as H255
    by (repeat constructor).
  destruct HT as [->| ->], HT' as [->| ->].
  - rewrite !List.app_nil_r in *. done.
  - exfalso. rewrite List.app_nil_r in Heq. unfold tag255 in Heq.
    assert ("*" = ".")%char; [|done].
    eapply (digits_suffix ["2"; "5"; "5"]%char ds); [done|done|done|done|].
    exact Heq.
  - exfalso. rewrite List.app_nil_r in Heq. unfold tag255 in Heq.
    assert ("." = "*")%char; [|done].
    eapply (digits_suffix ds' ["2"; "5"; "5"]%char); [done|done|done|done|].
    exact Heq.
  - by apply app_inv_tail in Heq as ->.
Qed.

Lemma exec_seq {R} r1 r2 s g (k : list ascii → groups → option R) :
  exec (Seq r1 r2) s g k = exec r1 s g (λ s' g', exec r2 s' g' k).
Proof. done. Qed.

Lemma exec_lit {R} c s g (k : list ascii → groups → option R) :
  exec (lit c) s g k =
  match s with
  | c' :: s' => if Ascii.eqb c c' then k s' g else None
  | [] => None
  end.
Proof. done. Qed.

Lemma matches_tag T g : T = [] ∨ T = tag255 → matches (Opt tag) T g g.
Proof.
  intros [->| ->]; [apply matches_opt_none|].
  apply matches_opt_some. unfold tag, tag255.
  apply (matches_seq _ _ ["*"%char] ["2"; "5"; "5"]%char g g g); [by constructor|].
  apply (matches_seq _ _ ["2"%char] ["5"; "5"]%char g g g); [by constructor|].
  apply (matches_seq _ _ ["5"%char] ["5"]%char g g g); by constructor.
Qed.

Lemma after_prefix_exec c T v g :
  code_form c → "("%char ∉ c → T = [] ∨ T = tag255 →
  v ≠ [] → Forall (λ x, dot x = true) v → "("%char ∉ v →
  exec after_prefix (c ++ T ++ "("%char :: v ++ [")"%char]) g matched
  = Some (<[2 := v]> (<[1 := c]> g)).
Proof.
  intros Hc Hcp HT Hv Hvd Hvp.
  assert (is_Some (exec after_prefix (c ++ T ++ "("%char :: v ++ [")"%char]) g matched))
    as [x Hx].
  { unfold after_prefix. rewrite exec_seq.
    eapply (exec_complete (Group 1 code) c g).
    { constructor. by apply code_form_matches. }
    rewrite exec_seq.
    eapply (exec_complete (Opt tag) T); [by apply matches_tag|].
    rewrite exec_seq, exec_lit. cbn [Ascii.eqb Bool.eqb].
    fold value_part. rewrite value_part_exec by done. by eexists. }
  rewrite Hx. f_equal.
  unfold after_prefix in Hx. rewrite exec_seq in Hx.
  apply (exec_sound (Group 1 code)) in Hx as (c' & s2 & g1 & Heq & Hm1 & Hx).
  rewrite exec_seq in Hx.
  apply (exec_sound (Opt tag)) in Hx as (T' & s3 & g2 & -> & Hm2 & Hx).
  inversion Hm1; subst; clear Hm1.
  match goal with H : matches code _ _ _ |- _ =>
    apply matches_code_inv in H as [-> Hc'] end.
  apply matches_tag_inv in Hm2 as [-> HT'].
  rewrite exec_seq, exec_lit in Hx.
  destruct s3 as [|p s3]; [done|].
  destruct (Ascii.eqb_spec "(" p) as [<-|]; [|done].
  assert (c' ++ T' = c ++ T ∧ s3 = v ++ [")"%char]) as [Hct ->].
  { apply (split_at_only "("%char).
    - by rewrite <- !List.app_assoc.
    - rewrite elem_of_app. intros [Hin|Hin]; [done|].
      destruct HT as [->| ->]; unfold tag255 in Hin; list_mem.
    - rewrite elem_of_app. intros [Hin|Hin]; [done|]. list_mem. }
  destruct (code_tag_unique c c' T T') as [-> ->];
    [by apply code_form_digit_end|done|done|done|done|].
  fold value_part in Hx. rewrite value_part_exec in Hx by done. by injection Hx.
Qed.

Lemma starts_with_group_app c rest :
  (4 ≤ length c)%nat → starts_with_group (c ++ rest) = starts_with_group c.
Proof. destruct c as [|x1 [|x2 [|x3 [|x4 c]]]]; cbn; intros; try lia; done. Qed.

Lemma code_form_length c : code_form c → (5 ≤ length c)%nat.
Proof.
  intros (a & b & ds & -> & Ha & Hb & Hds & _).
  rewrite List.length_app. cbn [length]. rewrite List.length_app. cbn [length].
  destruct a, b, ds; cbn [length]; try done; lia.
Qed.

(** A line of the form [[d-d:]code[*255](value)] matches, the code in
    group 1 and the value in group 2. *)
Lemma rmatch_line P c T v :
  line_form P c T v →
  rmatch REGEX (line_of P c T v) = Some (<[2 := v]> (<[1 := c]> ∅)).
Proof.
  intros [HP Hc Hcp HT Hv Hvd Hvp]. unfold rmatch, line_of.
  rewrite list_ascii_of_string_of_list_ascii.
  change REGEX with (Seq (Opt prefix) after_prefix). cbn [exec].
  destruct HP as [[-> Hs]|(d1 & d2 & Hd1 & Hd2 & ->)].
  - cbn [app].
    destruct (exec prefix _ _ _) as [x|] eqn:Hpre.
    + exfalso. apply exec_sound in Hpre as (p & s2 & g' & Heq & Hm & _).
      apply matches_prefix_inv in Hm as [_ (d1 & d2 & Hd1 & Hd2 & ->)].
      pose proof (starts_with_group_app c (T ++ "("%char :: v ++ [")"%char])
                    ltac:(pose proof (code_form_length c Hc); lia)) as Hsw.
      rewrite Heq, Hs in Hsw. cbn in Hsw. by rewrite Hd1, Hd2 in Hsw.
    + by apply after_prefix_exec.
  - unfold prefix at 1. cbn [app exec lit]. rewrite Hd1, Hd2.
    cbn [Ascii.eqb Bool.eqb]. rewrite after_prefix_exec by done. done.
Qed.

Lemma binding_line P c T v :
  line_form P c T v →
  binding (line_of P c T v) = Some (string_of_list_ascii c, string_of_list_ascii v).
Proof.
  intros H. unfold binding. rewrite rmatch_line by done.
  unfold group. by rewrite lookup_insert_ne, !lookup_insert_eq by done.
Qed.

(** The matcher on lines where greed and backtracking decide, with the
    groups Python's [re] reports for them. *)
Example binding_plain : binding "C.1.1(ISK0MT174-0001)" = Some ("C.1.1", "ISK0MT174-0001").
Proof. by vm_compute. Qed.

Example binding_greedy_value : binding "1.8.1(a)(b)" = Some ("1.8.1", "a)(b").
Proof. by vm_compute. Qed.

Example binding_greedy_code : binding "1.8.1(2.3.4(5))" = Some ("1.8.1(2.3.4", "5)").
Proof. by vm_compute. Qed.

Example binding_prefix_once : binding "1-0:1-0:1.8.1(5)" = Some ("1-0:1.8.1", "5").
Proof. by vm_compute. Qed.

Example binding_not_a_prefix : binding "x1-0:1.8.1(5)" = Some ("x1-0:1.8.1", "5").
Proof. by vm_compute. Qed.

Example binding_tag_in_code : binding "1.8.1*255.2(5)" = Some ("1.8.1*255.2", "5").
Proof. by vm_compute. Qed.

Example binding_trailing : binding "a.b.1(x)y" = Some ("a.b.1", "x").
Proof. by vm_compute. Qed.

Example binding_none :
  binding "a.b(5)" = None ∧ binding "1.8.x(5)" = None ∧ binding "1.8.1()" = None ∧
  binding "1.8.1(5" = None ∧ binding "1.8.1*255*255(5)" = None.
Proof. by vm_compute. Qed.

Lemma store_binding d line :
  store d line =
  match binding line with
  | Some (c, v) => <[c := v]> d
  | None => d
  end.
Proof. unfold store, binding. by destruct (rmatch REGEX line). Qed.

(** A code no line of [lines] assigns keeps its entry. *)
Lemma foldl_store_other lines d c :
  (∀ l v, l ∈ lines → binding l ≠ Some (c, v)) →
  foldl store d lines !! c = d !! c.
Proof.
  revert d. induction lines as [|l lines IH]; intros d Hl; [done|].
  cbn [foldl]. rewrite IH by (intros; apply Hl; by constructor).
  rewrite store_binding. destruct (binding l) as [[c' v']|] eqn:Hb; [|done].
  rewrite lookup_insert_ne; [done|]. intros ->. eapply Hl; [|done]. constructor.
Qed.

(** C5, as stated, fails: a line with another tag than [*255] has the
    stated shape and is skipped. *)
Lemma extract_other_tag_skipped :
  spec_form "1.8.1*17(5)" "1.8.1" "5" ∧
  split "1.8.1*17(5)" = ["1.8.1*17(5)"] ∧
  extract "1.8.1*17(5)" !! "1.8.1" = None.
Proof.
  split; [|split; by vm_compute].
  exists "", "*17". repeat split.
  - by left.
  - right. by exists "17".
  - repeat constructor.
  - cbn. in_list.
Qed.

(** C5, amended.  For a line of a data block: when it has the form
    [[d-d:]code[*255](value)] -- a code of at least three dot-separated
    segments without whitespace or [(], the last one digits, a non-empty
    value without [(] -- [extract] puts [code → value] into the map it is
    building, where it stays unless a later line assigns the code again;
    when the pattern does not match the line, the map is the one of the
    block without that line. *)
Theorem extract_line (data : string) (pre post : list string) (line : string) :
  split data = pre ++ line :: post →
  (∀ P c T v, line_form P c T v → line = line_of P c T v →
     extract data =
       foldl store (<[string_of_list_ascii c := string_of_list_ascii v]>
                      (foldl store ∅ pre)) post ∧
     ((∀ l v', l ∈ post → binding l ≠ Some (string_of_list_ascii c, v')) →
      extract data !! string_of_list_ascii c = Some (string_of_list_ascii v))) ∧
  (rmatch REGEX line = None → extract data = foldl store ∅ (pre ++ post)).
Proof.
  intros Hsplit. unfold extract. rewrite Hsplit, !foldl_app. cbn [foldl].
  split.
  - intros P c T v Hform ->. rewrite store_binding, binding_line by done.
    split; [done|]. intros Hpost.
    rewrite foldl_store_other by done. by rewrite lookup_insert_eq.
  - intros Hnone. rewrite store_binding. unfold binding. by rewrite Hnone.
Qed.

Lemma sample_line_form :
  line_form (list_ascii_of_string "1-0:") (list_ascii_of_string "1.8.1") tag255
    (list_ascii_of_string "0001798.478*kWh").
Proof.
  split.
  - right. by exists "1"%char, "0"%char.
  - exists ["1"%char], ["8"%char], ["1"%char]. repeat split; try done; by repeat constructor.
  - intros Hin. cbn in Hin. list_mem.
  - by right.
  - done.
  - by repeat constructor.
  - intros Hin. cbn in Hin. list_mem.
Qed.

Lemma extract_line_witness :
  extract sample_line !! "1.8.1" = Some "0001798.478*kWh" ∧
  extract "1.8.1*17(5)" = foldl store ∅ ([] ++ []).
Proof.
  split.
  - destruct (extract_line sample_line [] [] sample_line eq_refl) as [Hform _].
    destruct (Hform _ _ _ _ sample_line_form eq_refl) as [_ Hlast].
    apply Hlast. intros l v' Hl. list_mem.
  - by apply (extract_line "1.8.1*17(5)" [] [] "1.8.1*17(5)").
Defined.

(** C8.  When a code is assigned on several lines of a block, the map
    [extract] returns has the value of the last of them. *)
Theorem extract_last_wins (data : string) (pre mid post : list string)
    (l1 l2 code v1 v2 : string) :
  split data = pre ++ l1 :: mid ++ l2 :: post →
  binding l1 = Some (code, v1) →
  binding l2 = Some (code, v2) →
  (∀ l v, l ∈ post → binding l ≠ Some (code, v)) →
  extract data !! code = Some v2.
Proof.
  intros Hsplit H1 H2 Hpost. unfold extract. rewrite Hsplit.
  rewrite foldl_app. cbn [foldl]. rewrite foldl_app. cbn [foldl].
  rewrite foldl_store_other by done.
  rewrite (store_binding _ l2), H2. by rewrite lookup_insert_eq.
Qed.

Lemma extract_last_wins_witness :
  extract "1-0:1.8.1*255(0000001.000*kWh) 1-0:1.8.2*255(7) 1.8.1(0000002.000*kWh) C.7.0(5)"
    !! "1.8.1" = Some "0000002.000*kWh".
Proof.
  apply (extract_last_wins _ [] ["1-0:1.8.2*255(7)"] ["C.7.0(5)"]
           "1-0:1.8.1*255(0000001.000*kWh)" "1.8.1(0000002.000*kWh)"
           "1.8.1" "0000001.000*kWh" "0000002.000*kWh").
  - by vm_compute.
  - by vm_compute.
  - by vm_compute.
  - intros l v Hl. apply list_elem_of_singleton in Hl as ->. by vm_compute.
Defined.

(** C9, as stated, fails: a block can contain the line and a later one
    that assigns the code again. *)
Lemma extract_sample_overwritten :
  let data := "1-0:1.8.1*255(0001798.478*kWh) 1-0:1.8.1*255(0000000.000*kWh)" in
  sample_line ∈ split data ∧
  extract data !! "1.8.1" ≠ Some "0001798.478*kWh".
Proof. split; [|by vm_compute]. vm_compute. in_list. Qed.

(** C9, amended.  In a block that contains the line
    [1-0:1.8.1*255(0001798.478*kWh)] and, after it, no line that assigns
    code [1.8.1] again, [extract] binds [1.8.1] to [0001798.478*kWh]. *)
Theorem extract_sample (data : string) (pre post : list string) :
  split data = pre ++ sample_line :: post →
  (∀ l v, l ∈ post → binding l ≠ Some ("1.8.1", v)) →
  extract data !! "1.8.1" = Some "0001798.478*kWh".
Proof.
  intros Hsplit Hpost. unfold extract. rewrite Hsplit, foldl_app. cbn [foldl].
  rewrite foldl_store_other by done. rewrite store_binding.
  assert (binding sample_line = Some ("1.8.1", "0001798.478*kWh")) as ->
    by (by vm_compute).
  by rewrite lookup_insert_eq.
Qed.

Lemma extract_sample_witness :
  extract "0-0:C.1.0*255(62791737) 1-0:1.8.1*255(0001798.478*kWh) 1-0:1.8.2*255(7)"
    !! "1.8.1" = Some "0001798.478*kWh".
Proof.
  apply (extract_sample _ ["0-0:C.1.0*255(62791737)"] ["1-0:1.8.2*255(7)"]).
  - by vm_compute.
  - intros l v Hl. apply list_elem_of_singleton in Hl as ->. by vm_compute.
Defined.

End Processor_facts.

Module Scheduler_facts.
Import Scheduler.

Section scheduler.
Context {S : Type}.
Variable mt174 : M S string.
Variable processors : list (Sink S).
Variable interval : float.

Local Abbreviation execute := (execute mt174 processors).
Local Abbreviation turn := (turn mt174 processors interval).
Local Abbreviation loop := (loop mt174 processors interval).
Local Abbreviation cycle := (cycle mt174 processors).
Local Abbreviation cycles := (cycles mt174 processors).
Local Abbreviation turns := (turns mt174 processors interval).
Local Abbreviation run := (run mt174 processors interval).
Local Abbreviation overdue := (overdue interval).
Local Abbreviation overlong := (overlong mt174 processors interval).
Local Abbreviation steady := (steady (S:=S)).

Lemma calls_app evs1 evs2 : calls (evs1 ++ evs2) = calls evs1 ++ calls evs2.
Proof. apply omap_app. Qed.

Lemma errors_in_app t evs1 evs2 :
  errors_in t (evs1 ++ evs2) = (errors_in t evs1 + errors_in t evs2)%nat.
Proof. unfold errors_in. by rewrite List.filter_app, List.length_app. Qed.

Ltac run_monad :=
  cbv beta iota zeta delta
    [bind ret raise emit lift logging logging_exception try_except
     time_time sleep on_store invoke handler
     clock ticks signal naps store events final result fst snd].

Lemma dispatch_sink timestamp data (p : Sink S) (w : World S) :
  well_behaved p timestamp data →
  let out := process p timestamp data (store w) in
  ∃ w', dispatch timestamp data p w = (events (dispatch timestamp data p w), w', Ok tt) ∧
    store w' = final out ∧
    clock w' = clock w ∧ signal w' = signal w ∧ naps w' = naps w ∧
    calls (events (dispatch timestamp data p w)) = [(getName p, timestamp, data)] ∧
    errors_in "Error in processor" (events (dispatch timestamp data p w))
      = (if failed (result out) then 1 else 0)%nat.
Proof.
  intros Hp out. subst out. destruct (Hp (store w)) as [[Hc He] Hexn].
  destruct w as [c t sg n s]. cbn [store] in *.
  unfold dispatch. run_monad.
  destruct (process p timestamp data s) as [[ev s'] r] eqn:Hproc.
  cbn [events result final fst snd] in *.
  destruct r as [[]|e].
  - eexists. split; [reflexivity|].
    cbn [store clock signal naps events final result fst snd failed].
    rewrite !calls_app, !errors_in_app, Hc, He. done.
  - rewrite (Hexn e eq_refl).
    assert (is_KeyboardInterrupt e = false) as ->
      by (specialize (Hexn e eq_refl); by destruct e).
    eexists. split; [reflexivity|].
    cbn [store clock signal naps events final result fst snd failed].
    rewrite !calls_app, !errors_in_app, Hc, He. done.
Qed.

Lemma for_each_dispatch timestamp data (ps : list (Sink S)) (w : World S) :
  (∀ p, p ∈ ps → well_behaved p timestamp data) →
  ∃ evs w', for_each ps (dispatch timestamp data) w = (evs, w', Ok tt) ∧
    calls evs = map (λ p, (getName p, timestamp, data)) ps ∧
    errors_in "Error in processor" evs
      = length (List.filter failed (outcomes ps timestamp data (store w))).
Proof.
  revert w. induction ps as [|p ps IH]; intros w Hps.
  - by eexists [], w.
  - destruct (dispatch_sink timestamp data p w) as (w1 & Hd & Hs & _ & _ & _ & Hc & He).
    { apply Hps. by left. }
    destruct (IH w1) as (evs & w2 & Hf & Hcs & Hes).
    { intros q Hq. apply Hps. by right. }
    cbn [for_each]. unfold bind at 1. rewrite Hd, Hf.
    eexists _, w2. split; [reflexivity|].
    rewrite calls_app, errors_in_app, Hc, He, Hcs, Hes. split; [done|].
    cbn [outcomes]. rewrite Hs.
    destruct (process p timestamp data (store w)) as [[ev s'] r].
    cbn [final result fst snd List.filter]. by destruct r.
Qed.

Lemma execute_eq timestamp :
  execute timestamp =
  try_except
    (let* begin := time_time in
     let* data := on_store mt174 in
     let* end_ := time_time in
     logging INFO "Read data in %.3fs";;
     logging DEBUG "Data: %s";;
     for_each processors (dispatch timestamp data))
    (handler "Error in meter reader").
Proof. done. Qed.

Lemma for_each_settled timestamp data (ps : list (Sink S)) (w : World S) :
  (∀ p, p ∈ ps → well_behaved p timestamp data) →
  ∃ evs w', for_each ps (dispatch timestamp data) w = (evs, w', Ok tt) ∧
    calls evs = map (λ p, (getName p, timestamp, data)) ps ∧
    store w' = settled ps timestamp data (store w).
Proof.
  revert w. induction ps as [|p ps IH]; intros w Hps.
  - by eexists [], w.
  - destruct (dispatch_sink timestamp data p w) as (w1 & Hd & Hs & _ & _ & _ & Hc & _).
    { apply Hps. by left. }
    destruct (IH w1) as (evs & w2 & Hf & Hcs & Hss).
    { intros q Hq. apply Hps. by right. }
    cbn [for_each]. unfold bind at 1. rewrite Hd, Hf.
    eexists _, w2. split; [reflexivity|].
    rewrite calls_app, Hc, Hcs. split; [done|].
    cbn [settled]. by rewrite Hss, Hs.
Qed.

Lemma for_each_app (ps qs : list (Sink S)) body (w : World S) :
  for_each (ps ++ qs) body w
  = bind (for_each ps body) (λ _, for_each qs body) w.
Proof.
  revert w. induction ps as [|p ps IH]; intros w.
  - cbn [app for_each]. unfold bind, ret.
    by destruct (for_each qs body w) as [[ev w'] r].
  - cbn [app for_each]. rewrite bind_assoc, !bind_run.
    destruct (body p w) as [[ev w'] [[]|e]]; [|done]. by rewrite IH.
Qed.

(** An exception of a sink that is no [Exception] passes the handler of
    the sink. *)
Lemma dispatch_escapes timestamp data (p : Sink S) (w : World S) e :
  calls (events (process p timestamp data (store w))) = [] →
  result (process p timestamp data (store w)) = Raise e →
  is_Exception e = false →
  ∃ evs w', dispatch timestamp data p w = (evs, w', Raise e) ∧
    calls evs = [(getName p, timestamp, data)] ∧
    store w' = final (process p timestamp data (store w)).
Proof.
  destruct w as [c t sg n s]. cbn [store]. unfold dispatch. run_monad.
  destruct (process p timestamp data s) as [[ev s'] r].
  cbn [events result final fst snd]. intros Hc -> He. rewrite He.
  destruct (is_KeyboardInterrupt e); eexists _, _; (split; [reflexivity|]);
    cbn [store]; by rewrite !calls_app, Hc.
Qed.

Lemma turn_overdue start w :
  overdue start w → turn start w = cycle w.
Proof.
  unfold overdue. destruct w as [c t sg n s]. cbn [clock ticks]. intros H.
  cbv beta iota zeta delta [Scheduler.turn Scheduler.cycle bind time_time ret clock ticks signal naps store].
  by rewrite H.
Qed.

Lemma loop_turns n fuel start (w : World S) :
  loop (n + fuel) start w = bind (turns n start) (loop fuel) w.
Proof.
  revert start w. induction n as [|n IH]; intros start w.
  - cbn [Nat.add Scheduler.turns]. unfold bind, ret.
    by destruct (loop fuel start w) as [[ev w'] r].
  - cbn [Nat.add Scheduler.loop Scheduler.turns]. rewrite bind_assoc, !bind_run.
    destruct (turn start w) as [[ev w'] [start'|e]]; [|done]. by rewrite IH.
Qed.

(** C3, amended.  In a cycle whose read raises, whatever the error, no
    sink is invoked.  In a cycle whose read succeeds and whose sinks fail
    with exceptions derived from [Exception] only, every registered sink
    is invoked, in registration order, with the timestamp of the cycle
    and the data block read, whether or not sinks before it failed; each
    failure of a sink is logged, and [execute] returns normally, so
    that the loop of [run] goes on as after a cycle without failure.
    An exception that does not derive from [Exception] is not caught:
    when the sinks before it fail with [Exception]s only and a sink
    raises such an exception, [execute] raises it, the sinks invoked are
    those up to and including that sink and no sink after it, and the
    state is the one that sink left; and when [execute] raises
    [KeyboardInterrupt] in a cycle that the loop of [run] has reached,
    [run] returns 0. *)
Theorem execute_dispatches (timestamp : float) (w : World S) :
  own (events (mt174 (store w))) →
  (∀ e, result (mt174 (store w)) = Raise e →
     calls (events (execute timestamp w)) = []) ∧
  (∀ data, result (mt174 (store w)) = Ok data →
     (∀ p, p ∈ processors → well_behaved p timestamp data) →
     calls (events (execute timestamp w))
       = map (λ p, (getName p, timestamp, data)) processors ∧
     errors_in "Error in processor" (events (execute timestamp w))
       = length (List.filter failed
           (outcomes processors timestamp data (final (mt174 (store w))))) ∧
     result (execute timestamp w) = Ok tt) ∧
  (∀ data pre p post e,
     result (mt174 (store w)) = Ok data →
     processors = pre ++ p :: post →
     (∀ q, q ∈ pre → well_behaved q timestamp data) →
     let s := settled pre timestamp data (final (mt174 (store w))) in
     calls (events (process p timestamp data s)) = [] →
     result (process p timestamp data s) = Raise e →
     is_Exception e = false →
     result (execute timestamp w) = Raise e ∧
     calls (events (execute timestamp w))
       = map (λ q, (getName q, timestamp, data)) (pre ++ [p]) ∧
     store (final (execute timestamp w)) = final (process p timestamp data s)) ∧
  (∀ n fuel w0 ev w1 start,
     turns n 0%float w0 = (ev, w1, Ok start) →
     overdue start w1 →
     timestamp = clock w1 (Datatypes.S (ticks w1)) →
     w = mkWorld (clock w1) (2 + ticks w1) (signal w1) (naps w1) (store w1) →
     result (execute timestamp w) = Raise KeyboardInterrupt →
     result (run (n + Datatypes.S fuel) w0) = Ok (Some 0%Z)).
Proof.
  intros [Hc He].
  split; [|split; [|split]].
  - rewrite execute_eq.
    destruct w as [c t sg n s]. cbn [store] in *.
    destruct (mt174 s) as [[ev0 s0] r0] eqn:Hread.
    cbn [events result final fst snd] in Hc, He |- *.
    intros e ->. run_monad. rewrite Hread.
    destruct (is_KeyboardInterrupt e); [by rewrite app_nil_r|].
    destruct (is_Exception e); rewrite ?app_nil_r, ?calls_app, ?Hc; done.
  - rewrite execute_eq.
    destruct w as [c t sg n s]. cbn [store] in *.
    destruct (mt174 s) as [[ev0 s0] r0] eqn:Hread.
    cbn [events result final fst snd] in Hc, He |- *.
    intros data -> Hps.
    destruct (for_each_dispatch timestamp data processors
                (mkWorld c (2 + t) sg n s0) Hps) as (evs & w' & Hf & Hcs & Hes).
    run_monad. rewrite Hread. cbv beta iota zeta.
    cbn [Nat.add] in Hf. rewrite Hf.
    rewrite !calls_app, !errors_in_app, Hc, He, Hcs, Hes. done.
  - rewrite execute_eq.
    destruct w as [c t sg n s]. cbn [store] in *.
    destruct (mt174 s) as [[ev0 s0] r0] eqn:Hread.
    cbn [events result final fst snd] in Hc, He |- *.
    cbv zeta. intros data pre p post e -> Hproc Hpre Hcalls Hraise Hexn.
    rewrite Hproc.
    destruct (for_each_settled timestamp data pre
                (mkWorld c (2 + t) sg n s0) Hpre) as (evs & w1 & Hf & Hcs & Hss).
    cbn [store] in Hss. rewrite <- Hss in Hcalls, Hraise |- *.
    destruct (dispatch_escapes timestamp data p w1 e Hcalls Hraise Hexn)
      as (evp & w2 & Hd & Hcp & Hsp).
    assert (for_each (pre ++ p :: post) (dispatch timestamp data)
              (mkWorld c (2 + t) sg n s0) = (evs ++ evp, w2, Raise e)) as Hall.
    { rewrite for_each_app, bind_run, Hf. cbn [for_each].
      by rewrite bind_run, Hd. }
    run_monad. rewrite Hread. cbv beta iota zeta.
    cbn [Nat.add] in Hall. rewrite Hall. cbv beta iota zeta. rewrite Hexn.
    destruct (is_KeyboardInterrupt e); cbv beta iota zeta;
      rewrite ?app_nil_r, !calls_app, Hc, Hcs, Hcp, List.map_app; done.
  - intros n fuel w0 ev w1 start Hturns Hdue -> -> Hraise.
    unfold Scheduler.run, try_except. rewrite bind_run, loop_turns, bind_run, Hturns.
    cbn [Scheduler.loop]. rewrite bind_run, turn_overdue by done.
    destruct w1 as [c t sg k s]. cbn [clock ticks signal naps store Nat.add] in Hraise.
    cbv beta iota zeta delta
      [Scheduler.cycle bind time_time ret clock ticks signal naps store].
    destruct (execute _ _) as [[ev1 w2] r]. cbn [result snd] in Hraise. subst r.
    done.
Qed.

Lemma turn_open start w :
  ¬ overdue start w → turn start w = nap start w.
Proof.
  unfold overdue. destruct w as [c t sg n s]. cbn [clock ticks].
  intros H%not_false_is_true.
  cbv beta iota zeta delta [Scheduler.turn nap bind time_time ret clock ticks signal naps store].
  by rewrite H.
Qed.

Lemma loop_cycles k fuel start w :
  overlong k start w →
  loop (k + fuel) start w
  = bind (cycles k start) (loop fuel) w.
Proof.
  revert start w. induction k as [|k IH]; intros start w Hk.
  - cbn [cycles Nat.add]. unfold bind, ret.
    by destruct (loop fuel start w) as [[ev w'] r].
  - destruct Hk as [Hdue Hk]. cbn [Nat.add loop cycles].
    rewrite bind_assoc, !bind_run, turn_overdue by done.
    destruct (cycle w) as [[ev w'] [start'|e]]; [|done].
    by rewrite IH.
Qed.

Lemma steady_bind {A B} (c : M (World S) A) (k : A → M (World S) B) :
  steady c → (∀ a, steady (k a)) → steady (bind c k).
Proof.
  intros Hc Hk w. specialize (Hc w). unfold bind.
  destruct (c w) as [[ev w'] [a|e]]; [|done].
  specialize (Hk a w'). destruct (k a w') as [[ev' w''] r].
  unfold final in *. cbn [fst snd] in *.
  destruct Hc as (? & ? & ?), Hk as (? & ? & ?). repeat split; congruence.
Qed.

Lemma steady_try_except {A} (c : M (World S) A) h :
  steady c → (∀ e, steady (h e)) → steady (try_except c h).
Proof.
  intros Hc Hh w. specialize (Hc w). unfold try_except.
  destruct (c w) as [[ev w'] [a|e]]; [done|].
  specialize (Hh e w'). destruct (h e w') as [[ev' w''] r].
  unfold final in *. cbn [fst snd] in *.
  destruct Hc as (? & ? & ?), Hh as (? & ? & ?). repeat split; congruence.
Qed.

Lemma steady_time_time : steady (@time_time S).
Proof. by intros []. Qed.

Lemma steady_emit e : steady (emit (σ:=World S) e).
Proof. by intros []. Qed.

Lemma steady_ret {A} (a : A) : steady (ret (σ:=World S) a).
Proof. by intros []. Qed.

Lemma steady_raise {A} e : steady (raise (σ:=World S) (A:=A) e).
Proof. by intros []. Qed.

Lemma steady_on_store {A} (c : M S A) : steady (on_store c).
Proof. intros [ck t sg n s]. unfold on_store. cbn. by destruct (c s) as [[ev s'] r]. Qed.

Lemma steady_handler t e : steady (handler (S:=S) t e).
Proof.
  unfold handler. destruct (is_KeyboardInterrupt e); [apply steady_raise|].
  destruct (is_Exception e); [apply steady_emit | apply steady_raise].
Qed.

Lemma steady_for_each ps body :
  (∀ p, steady (body p)) → steady (for_each ps body).
Proof.
  intros Hb. induction ps as [|p ps IH]; [apply steady_ret|].
  cbn [for_each]. by apply steady_bind.
Qed.

Lemma steady_execute timestamp : steady (execute timestamp).
Proof.
  unfold execute.
  repeat first
    [ apply steady_try_except | apply steady_bind | apply steady_time_time
    | apply steady_on_store | apply steady_emit | apply steady_handler
    | apply steady_for_each | apply steady_ret | intro ].
Qed.

Lemma steady_cycle : steady cycle.
Proof.
  unfold cycle.
  repeat first
    [ apply steady_bind | apply steady_time_time | apply steady_execute
    | apply steady_ret | intro ].
Qed.

Lemma steady_cycles k start : steady (cycles k start).
Proof.
  revert start. induction k as [|k IH]; intros start; [apply steady_ret|].
  cbn [cycles]. apply steady_bind; [apply steady_cycle | done].
Qed.

Lemma cycle_start w ev w' start :
  cycle w = (ev, w', Ok start) → start = clock w (Datatypes.S (ticks w)).
Proof.
  destruct w as [c t sg n s].
  cbv beta iota zeta delta [Scheduler.cycle bind time_time ret clock ticks signal naps store].
  destruct (execute _ _) as [[ev1 w1] [[]|e]]; [|done]. by intros [= _ _ <-].
Qed.

(** C4.  The window of a cycle is counted from the start time recorded
    before [execute] ran.  After [k] cycles each of which took at least
    [interval], the loop has run these [k] cycles back to back, without
    one tick of sleep of its own; and whatever [k] is, it then owes at
    most one cycle: if the last cycle is overdue as well, the next one
    starts at once, and if it is not, the loop sleeps one tick and keeps
    its start time. *)
Theorem run_no_backlog (k fuel : nat) (start : float) (w : World S) :
  overlong k start w →
  loop (k + fuel) start w
    = bind (cycles k start) (loop fuel) w ∧
  naps (final (cycles k start w)) = naps w ∧
  (∀ w0 ev w1 s, cycle w0 = (ev, w1, Ok s) →
     s = clock w0 (Datatypes.S (ticks w0))) ∧
  ∀ ev w' start', cycles k start w = (ev, w', Ok start') →
    (overdue start' w' →
       turn start' w' = cycle w') ∧
    (¬ overdue start' w' →
       turn start' w' = nap start' w' ∧
       events (nap start' w') = [Sleep SLEEP_TIME]).
Proof.
  intros Hk. split; [by apply loop_cycles|].
  split; [by destruct (steady_cycles k start w) as (_ & _ & ?)|].
  split; [apply cycle_start|].
  intros ev w' start' _. split; [apply turn_overdue|].
  intros Hopen. split; [by apply turn_open|].
  destruct w' as [c t sg n s].
  cbv beta iota zeta delta
    [nap bind time_time sleep ret events clock ticks signal naps store fst snd].
  by destruct (sg n).
Qed.
End scheduler.

(** C3, as stated, fails: an interrupt raised inside the first sink is
    raised again by both handlers, the second sink is not invoked and
    [run] returns; and an exception that does not derive from
    [Exception], such as the [SystemExit] of a sink that calls
    [sys.exit()], is caught by no handler at all. *)
Lemma execute_interrupted_sink :
  let data := "0-0:C.7.0*255(5)" in
  let sinks := [Samples.interrupted; Samples.recording] in
  let out := execute Samples.meter sinks 1000 (Samples.world []) in
  let sinks' := [Samples.exiting; Samples.recording] in
  let out' := execute Samples.meter sinks' 1000 (Samples.world []) in
  result (Samples.meter (S:=list string) []) = Ok data ∧
  result out = Raise KeyboardInterrupt ∧
  calls (events out) = [("interrupted", 1000%float, data)] ∧
  store (final out) = [] ∧
  result (run Samples.meter sinks 60 3 (Samples.world [])) = Ok (Some 0%Z) ∧
  result out' = Raise SystemExit ∧
  calls (events out') = [("exiting", 1000%float, data)] ∧
  errors_in "Error in processor" (events out') = 0%nat ∧
  result (run Samples.meter sinks' 60 3 (Samples.world [])) = Raise SystemExit.
Proof. by vm_compute. Qed.

Lemma execute_dispatches_witness :
  let data := "0-0:C.7.0*255(5)" in
  let sinks := [Samples.failing; Samples.recording] in
  let out := execute Samples.meter sinks 1000 (Samples.world []) in
  let sinks' := [Samples.recording; Samples.interrupted; Samples.recording] in
  let w' := mkWorld (clock (Samples.world ([] : list string))) 2 (λ _, false) 0 [] in
  let out' := execute Samples.meter sinks' 1000 w' in
  (calls (events out) = map (λ p, (getName p, 1000%float, data)) sinks ∧
   errors_in "Error in processor" (events out)
     = length (List.filter failed (outcomes sinks 1000 data [])) ∧
   result out = Ok tt) ∧
  (result out' = Raise KeyboardInterrupt ∧
   calls (events out')
     = map (λ q, (getName q, 1000%float, data)) [Samples.recording; Samples.interrupted] ∧
   store (final out') = [data]) ∧
  result (run Samples.meter sinks' 60 (0 + 1) (Samples.world [])) = Ok (Some 0%Z).
Proof.
  intros data sinks out sinks' w' out'.
  destruct (execute_dispatches Samples.meter sinks 60 1000 (Samples.world []))
    as (_ & Hall & _ & _); [split; reflexivity|].
  destruct (execute_dispatches Samples.meter sinks' 60 1000 w')
    as (_ & _ & Hescapes & Hrun); [split; reflexivity|].
  split; [|split].
  - apply Hall; [reflexivity|].
    intros p Hp s. apply elem_of_cons in Hp as [->|Hp].
    + split; [split; reflexivity|]. by intros e [= <-].
    + apply list_elem_of_singleton in Hp as ->.
      split; [split; reflexivity|]. by intros e [=].
  - apply (Hescapes data [Samples.recording] Samples.interrupted [Samples.recording]
             KeyboardInterrupt); try reflexivity.
    intros q Hq s. apply list_elem_of_singleton in Hq as ->.
    split; [split; reflexivity|]. by intros e [=].
  - apply (Hrun 0%nat 0%nat (Samples.world []) [] (Samples.world []) 0%float);
      vm_compute; reflexivity.
Defined.

Lemma run_no_backlog_witness :
  naps (final (cycles (S:=unit) Samples.meter [] 4 0 (Samples.world tt))) = 0%nat ∧
  ∀ ev w' start',
    cycles Samples.meter [] 4 0 (Samples.world tt) = (ev, w', Ok start') →
    ¬ overdue 60 start' w' →
    events (nap start' w') = [Sleep SLEEP_TIME].
Proof.
  destruct (run_no_backlog Samples.meter [] 60 4 1 0 (Samples.world tt))
    as (_ & Hnaps & _ & Hnext).
  - vm_compute. repeat split.
  - split; [exact Hnaps|]. intros ev w' start' Hc Hopen.
    by destruct (Hnext ev w' start' Hc) as [_ [_ Hnap]].
Defined.

(** The sample clock at work: three cycles of 65 s and one of a second
    run back to back; the turn after them is a tick of sleep. *)
Example sample_run :
  overlong Samples.meter [] 60 4 0 (Samples.world tt) ∧
  result (cycles Samples.meter [] 4 0 (Samples.world tt)) = Ok 1195%float ∧
  List.filter (λ e, match e with Sleep _ => true | _ => false end)
    (events (loop Samples.meter [] 60 7 0 (Samples.world tt)))
  = [Sleep SLEEP_TIME; Sleep SLEEP_TIME; Sleep SLEEP_TIME].
Proof. vm_compute. repeat split. Qed.

End Scheduler_facts.

Module MqttProcessor_facts.
Import MqttProcessor.

Section process.
Variable iter : string → gmap string string → list string.
Variable float_of_str : string → res float.
Variable int_of_str : string → res Z.
Variable format_reading : float → float → res string.
Variable format_counter : float → Z → res string.
Variable format_int : Z → string.
Variable subprocess_call : nat → list string → res Z.

Local Abbreviation buildCommand := (buildCommand format_int).
Local Abbreviation executeCommand := (executeCommand subprocess_call).
Local Abbreviation publish := (publish format_reading format_int subprocess_call).
Local Abbreviation publishes_under := (publishes_under format_int).
Local Abbreviation process :=
  (process iter float_of_str int_of_str format_reading format_counter
     format_int subprocess_call).

Lemma executeCommand_run command self :
  ∃ ev r, executeCommand command self =
    (ev, {| name := name self; last := last self; host := host self;
            port := port self; rootTopic := rootTopic self;
            interval := interval self; spawned := S (spawned self) |}, r) ∧
    ∀ c, Exec c ∈ ev → c = command.
Proof.
  unfold MqttProcessor.executeCommand.
  destruct (subprocess_call _ _) as [retcode|e].
  - eexists _, _. split; [done|]. intros c Hc.
    destruct (negb _); list_mem.
  - eexists _, _. split; [done|]. intros c Hc. list_mem.
Qed.

Lemma publish_run self0 timestamp topic info pairs self :
  ∃ ev self' r, publish self0 timestamp topic info pairs self = (ev, self', r) ∧
    last self' = last self ∧
    ∀ c, Exec c ∈ ev → publishes_under self0 topic c.
Proof.
  revert self. induction pairs as [|[key value] pairs IH]; intros self.
  - eexists [], self, _. split; [done|]. split; [done|]. intros c Hc. list_mem.
  - cbn [MqttProcessor.publish]. rewrite bind_run. unfold lift.
    destruct (format_reading timestamp value) as [message|e].
    2:{ eexists [], self, _. split; [done|]. split; [done|]. intros c Hc. list_mem. }
    rewrite bind_run.
    destruct (executeCommand_run (buildCommand self0 (topic +:+ key) message) self)
      as (ev1 & r1 & -> & Hev1).
    destruct r1 as [retcode|e].
    2:{ eexists _, _, _. split; [done|]. split; [done|].
        intros c Hc. rewrite app_nil_l in Hc. apply Hev1 in Hc as ->. by eexists _, _. }
    rewrite bind_run.
    assert (∀ s : t, ∃ ev (s' : t),
              (if info then logging INFO "%s = %.3f kWh" else ret tt) s
              = (ev, s, Ok tt) ∧ ∀ c, Exec c ∉ ev) as Hlog.
    { intros s. destruct info; eexists _, s; (split; [done|]); intros c Hc; list_mem. }
    destruct (Hlog {| name := name self; last := last self; host := host self;
            port := port self; rootTopic := rootTopic self;
            interval := interval self; spawned := S (spawned self) |})
      as (evl & _ & -> & Hevl).
    match goal with |- context [publish _ _ _ _ pairs ?s] =>
      destruct (IH s) as (ev2 & self2 & r2 & -> & Hlast & Hev2) end.
    eexists _, _, _. split; [done|]. split; [done|].
    intros c Hc. rewrite app_nil_l in Hc.
    apply elem_of_app in Hc as [Hc|Hc]; [apply Hev1 in Hc as ->; by eexists _, _|].
    apply elem_of_app in Hc as [Hc|Hc]; [by apply Hevl in Hc|]. by apply Hev2.
Qed.

Lemma buildCommand_topic self t1 m1 t2 m2 :
  buildCommand self t1 m1 = buildCommand self t2 m2 → t1 = t2.
Proof.
  unfold MqttProcessor.buildCommand. cbn [app]. intros [= H _].
  by apply String.app_inj, String.app_inj in H.
Qed.

Lemma not_rate_index self c :
  publishes_under self "index/" c → ¬ publishes_under self "current/" c.
Proof.
  intros (k & m & ->) (k' & m' & H). by apply buildCommand_topic in H.
Qed.

Lemma not_rate_counter self m :
  ¬ publishes_under self "current/" (buildCommand self "powerdown/counter" m).
Proof. intros (k' & m' & H). by apply buildCommand_topic in H. Qed.

Lemma executeCommand_commands command self :
  MqttProcessor_more.commands (events (executeCommand command self)) = [command].
Proof.
  unfold MqttProcessor.executeCommand.
  destruct (subprocess_call _ _) as [retcode|e]; [|done].
  by destruct (negb _).
Qed.

(** A [publish] that returns has started one command for each pair, in
    order, with the message formatted from the timestamp and the value. *)
Lemma publish_commands self0 timestamp topic info pairs self ev self' :
  publish self0 timestamp topic info pairs self = (ev, self', Ok tt) →
  ∃ messages,
    Forall2 (λ kv m, format_reading timestamp (snd kv) = Ok m) pairs messages ∧
    MqttProcessor_more.commands ev
    = zip_with (λ kv m, buildCommand self0 (topic +:+ fst kv) m) pairs messages.
Proof.
  revert self ev self'. induction pairs as [|[key value] pairs IH]; intros self ev self'.
  - intros [= <- _]. exists []. by split; [constructor|].
  - cbn [MqttProcessor.publish]. rewrite bind_run. unfold lift.
    destruct (format_reading timestamp value) as [message|e] eqn:Hm; [|done].
    rewrite bind_run.
    pose proof (executeCommand_commands
                  (buildCommand self0 (topic +:+ key) message) self) as Hc.
    destruct (executeCommand _ self) as [[ev1 self1] [retcode|e]]; [|done].
    cbn [events fst] in Hc. rewrite bind_run.
    assert (∃ evl, (if info then logging INFO "%s = %.3f kWh" else ret tt) self1
                   = (evl, self1, Ok tt) ∧ MqttProcessor_more.commands evl = [])
      as (evl & -> & Hl) by (destruct info; by eexists).
    destruct (publish self0 timestamp topic info pairs self1)
      as [[ev2 self2] [[]|e]] eqn:Hrest; [|done].
    intros [= <- _]. destruct (IH _ _ _ Hrest) as (messages & Hall & Hcs).
    exists (message :: messages). split; [by constructor|].
    unfold MqttProcessor_more.commands in *.
    rewrite ?app_nil_l, !omap_app, Hc, Hl, Hcs. done.
Qed.

(** C2, amended.  When a prior reading is retained, the time elapsed
    since it is not below the tolerance and [process] returns: the
    error is logged and no rate is published; the index values and the
    power-down counter are published all the same -- the commands
    started are one for each pair of [zip(names, index)], in order,
    under [index/] and the name, with the message formatted from the
    timestamp and the value, and after them the one under
    [powerdown/counter] with the message formatted from the timestamp
    and the integer read from [C.7.0], and no others --; and the
    retained state is replaced by the current pair of timestamp and
    index values. *)
Theorem process_interval_too_long (self : t) (timestamp : float) (data : string) :
  (fst (last self) =? 0)%float = false →
  (timestamp - fst (last self) <? interval self)%float = false →
  result (process timestamp data self) = Ok tt →
  Log ERROR "Interval too long: %.2f" ∈ events (process timestamp data self) ∧
  (∀ c, Exec c ∈ events (process timestamp data self) →
        ¬ publishes_under self "current/" c) ∧
  ∃ index messages s n message,
    readings float_of_str (Processor.extract data) (iter data (Processor.extract data))
      = Ok index ∧
    Forall2 (λ kv m, format_reading timestamp (snd kv) = Ok m)
      (zip names index) messages ∧
    Processor.extract data !! "C.7.0" = Some s ∧
    int_of_str s = Ok n ∧
    format_counter timestamp n = Ok message ∧
    MqttProcessor_more.commands (events (process timestamp data self))
    = zip_with (λ kv m, buildCommand self ("index/" +:+ fst kv) m)
        (zip names index) messages
      ++ [buildCommand self "powerdown/counter" message] ∧
    last (final (process timestamp data self)) = (timestamp, index).
Proof.
  intros Hprior Hlong.
  remember (process timestamp data self) as out eqn:Hout.
  unfold MqttProcessor.process in Hout.
  rewrite bind_run in Hout. unfold get at 1 in Hout.
  rewrite bind_run in Hout. unfold lift at 1 in Hout.
  destruct (readings _ _ _) as [index|e]; [|by subst out].
  rewrite bind_run in Hout. cbn [fst snd] in Hout.
  rewrite Hprior, Hlong in Hout. cbn [negb] in Hout.
  unfold logging at 1, emit at 1 in Hout. rewrite bind_run in Hout.
  destruct (publish_run self timestamp "index/" true (zip names index) self)
    as (ev1 & self1 & r1 & Hpub & Hlast1 & Hev1).
  rewrite Hpub in Hout.
  destruct r1 as [[]|e]; [|by subst out].
  destruct (publish_commands _ _ _ _ _ _ _ _ Hpub) as (messages & Hall & Hcs1).
  rewrite bind_run in Hout. unfold lift at 1 in Hout.
  destruct (Processor.extract data !! "C.7.0") as [s|]; [|by subst out].
  rewrite bind_run in Hout. unfold lift at 1 in Hout.
  destruct (int_of_str s) as [n|e] eqn:Hn; [|by subst out].
  rewrite bind_run in Hout. unfold lift at 1 in Hout.
  destruct (format_counter timestamp n) as [message|e] eqn:Hmessage; [|by subst out].
  rewrite bind_run in Hout.
  destruct (executeCommand_run (buildCommand self "powerdown/counter" message) self1)
    as (ev2 & r2 & Hexec & Hev2).
  pose proof (executeCommand_commands
                (buildCommand self "powerdown/counter" message) self1) as Hcs2.
  rewrite Hexec in Hout, Hcs2. cbn [events fst] in Hcs2.
  destruct r2 as [retcode|e]; [|by subst out].
  unfold set_last in Hout. subst out. cbn [events final result fst snd last].
  intros _. split; [|split].
  - rewrite !app_nil_l. apply elem_of_app. left. by apply list_elem_of_singleton.
  - intros c Hc. rewrite !app_nil_l, !app_nil_r in Hc.
    apply elem_of_app in Hc as [Hc|Hc]; [list_mem|].
    apply elem_of_app in Hc as [Hc|Hc]; [by apply not_rate_index, Hev1|].
    apply Hev2 in Hc as ->. apply not_rate_counter.
  - exists index, messages, s, n, message. repeat split; try done.
    rewrite !app_nil_l, !app_nil_r.
    unfold MqttProcessor_more.commands in *. by rewrite !omap_app, Hcs1, Hcs2.
Qed.
End process.

Example prior_reached :
  Builtins.process 60 Samples.early_block Samples.fresh
  = (events (Builtins.process 60 Samples.early_block Samples.fresh),
     Samples.prior, Ok tt).
Proof. by vm_compute. Qed.

(** The rate of the specification's example: half a unit in a minute is
    30 units an hour. *)
Example rate_published :
  Exec ["/usr/bin/mosquitto_pub"; "-i"; "mqtt"; "-h"; "localhost"; "-p"; "1883";
        "-t"; "/home/energy/current/total"; "-m"; "120 30.000"]
  ∈ events (Builtins.process 120 "1-0:1.8.0*255(0000100.500*kWh) 0-0:C.7.0*255(5)"
              Samples.prior).
Proof. vm_compute. in_list. Qed.

(** C2, as stated, fails: an hour after the reading it retains, the sink
    logs the error, publishes no rate, returns, and retains the new
    reading in place of the old one. *)
Lemma process_replaces_reading :
  let out := Builtins.process 3660 Samples.late_block Samples.prior in
  (fst (last Samples.prior) =? 0)%float = false ∧
  (3660 - fst (last Samples.prior) <? interval Samples.prior)%float = false ∧
  result out = Ok tt ∧
  last (final out) = (3660, [101])%float ∧
  last (final out) ≠ last Samples.prior.
Proof.
  vm_compute. repeat split.
  intros H. apply (f_equal (λ p, (fst p =? 60)%float)) in H. by vm_compute in H.
Qed.

Lemma process_interval_too_long_witness :
  let out := Builtins.process 3660 Samples.late_block Samples.prior in
  Log ERROR "Interval too long: %.2f" ∈ events out ∧
  (∀ c, Exec c ∈ events out →
        ¬ publishes_under Builtins.format_int Samples.prior "current/" c) ∧
  ∃ index messages s n message,
    readings Builtins.float_of_str (Processor.extract Samples.late_block)
      (Builtins.iter Samples.late_block (Processor.extract Samples.late_block)) = Ok index ∧
    Forall2 (λ kv m, Builtins.format_reading 3660 (snd kv) = Ok m)
      (zip names index) messages ∧
    Processor.extract Samples.late_block !! "C.7.0" = Some s ∧
    Builtins.int_of_str s = Ok n ∧
    Builtins.format_counter 3660 n = Ok message ∧
    MqttProcessor_more.commands (events out)
    = zip_with (λ kv m, buildCommand Builtins.format_int Samples.prior
                          ("index/" +:+ fst kv) m)
        (zip names index) messages
      ++ [buildCommand Builtins.format_int Samples.prior "powerdown/counter" message] ∧
    last (final out) = (3660%float, index).
Proof.
  apply (process_interval_too_long Builtins.iter Builtins.float_of_str
           Builtins.int_of_str Builtins.format_reading Builtins.format_counter
           Builtins.format_int Builtins.subprocess_call
           Samples.prior 3660 Samples.late_block).
  - by vm_compute.
  - by vm_compute.
  - by vm_compute.
Defined.

(** The commands of the sample run: the index of the one register and
    the counter. *)
Example interval_too_long_commands :
  MqttProcessor_more.commands
    (events (Builtins.process 3660 Samples.late_block Samples.prior))
  = [["/usr/bin/mosquitto_pub"; "-i"; "mqtt"; "-h"; "localhost"; "-p"; "1883";
      "-t"; "/home/energy/index/total"; "-m"; "3660 101.000"];
     ["/usr/bin/mosquitto_pub"; "-i"; "mqtt"; "-h"; "localhost"; "-p"; "1883";
      "-t"; "/home/energy/powerdown/counter"; "-m"; "3660 5"]].
Proof. by vm_compute. Qed.

End MqttProcessor_facts.

(** ** Further properties *)

Lemma out_eta {σ A} (o : list event * σ * res A) :
  (let '(ev, s, r) := o in ([] ++ ev, s, r)) = o.
Proof. by destruct o as [[ev s] r]. Qed.

Module MT174_more_facts.
Import MT174 MT174_facts MT174_more.

(** X1.  Whatever the port answers and however the exchange ends,
    [read] leaves the port closed. *)
Theorem read_closes_port (p : Serial) : opened (final (read p)) = false.
Proof. by destruct (read_outcome p) as (_ & _ & ? & _). Qed.

Lemma ord_inv x o : ord x = Ok o → ∃ c, x = String c "" ∧ o = N_of_ascii c.
Proof. destruct x as [|c [|c' x]]; [done| |done]. intros [= <-]. by exists c. Qed.

Lemma received_nonempty b :
  (len (received b) =? 0)%nat = false → ∃ c, b = Some c.
Proof. destruct b as [c|]; [by exists c | done]. Qed.

(** The first loop ends well only on bytes that lead up to the mark. *)
Lemma data_loop_inv bytes BCC datablock x BCC' datablock' x' rest :
  data_loop bytes BCC datablock x = (Ok (BCC', datablock', x'), rest) →
  ∃ l, Forall (λ c, c ≠ bang) l ∧
       x = String (hd bang (l ++ [bang])) "" ∧
       bytes = map Some (tail (l ++ [bang])) ++ rest ∧
       BCC' = block_check BCC l ∧
       datablock' = datablock +:+ string_of_list_ascii l ∧ x' = "!".
Proof.
  revert BCC datablock x.
  induction bytes as [|b bytes IH]; intros BCC datablock x; rewrite data_loop_eq.
  - destruct (String.eqb_spec x "!") as [->|Hx].
    + intros [= <- <- <- <-]. exists []. by rewrite app_empty_r.
    + by destruct (ord x).
  - destruct (String.eqb_spec x "!") as [->|Hx].
    + intros [= <- <- <- <-]. exists []. by rewrite app_empty_r.
    + destruct (ord x) as [o|e] eqn:Ho; [|done].
      apply ord_inv in Ho as (c & -> & ->).
      destruct (len (received b) =? 0)%nat eqn:Hb; [done|].
      apply received_nonempty in Hb as (c' & ->). cbn [received].
      intros (l & Hl & Hhd & -> & -> & -> & ->)%IH.
      injection Hhd as Hhd.
      exists (c :: l). repeat split.
      * constructor; [|done]. intros ->. by apply Hx.
      * cbn [app tail map]. f_equal. destruct l; cbn in *; by subst.
      * cbn [string_of_list_ascii]. by rewrite app_assoc_str.
Qed.

Lemma etx_loop_inv bytes BCC x BCC' x' rest :
  etx_loop bytes BCC x = (Ok (BCC', x'), rest) →
  ∃ l, Forall (λ c, c ≠ etx) l ∧
       x = String (hd etx (l ++ [etx])) "" ∧
       bytes = map Some (tail (l ++ [etx])) ++ rest ∧
       BCC' = block_check BCC l ∧ x' = ETX.
Proof.
  revert BCC x.
  induction bytes as [|b bytes IH]; intros BCC x; rewrite etx_loop_eq.
  - destruct (String.eqb_spec x ETX) as [->|Hx].
    + intros [= <- <- <-]. by exists [].
    + by destruct (ord x).
  - destruct (String.eqb_spec x ETX) as [->|Hx].
    + intros [= <- <- <-]. by exists [].
    + destruct (ord x) as [o|e] eqn:Ho; [|done].
      apply ord_inv in Ho as (c & -> & ->).
      destruct (len (received b) =? 0)%nat eqn:Hb; [done|].
      apply received_nonempty in Hb as (c' & ->). cbn [received].
      intros (l & Hl & Hhd & -> & -> & ->)%IH.
      injection Hhd as Hhd.
      exists (c :: l). repeat split.
      * constructor; [|done]. intros ->. by apply Hx.
      * cbn [app tail map]. f_equal. destruct l; cbn in *; by subst.
Qed.

Lemma data_message_events p :
  events (data_message p) = [] ∨
  events (data_message p) = [Log WARNING "No STX found, not handled"].
Proof.
  destruct p as [line bytes out o].
  unfold data_message. run_monad.
  destruct bytes as [|b bytes]; cbv beta iota zeta; [by right|].
  destruct (String.eqb _ STX); cbv beta iota zeta; [|by right].
  destruct bytes as [|b1 bytes]; cbv beta iota zeta; [by left|].
  destruct (len _ =? 0)%nat; cbv beta iota zeta; [by left|].
  destruct (data_loop _ _ _ _) as [[[[BCC datablock] x]|e] bytes1];
    cbv beta iota zeta; [|by left].
  destruct (etx_loop _ _ _) as [[[BCC2 x2]|e] bytes2]; cbv beta iota zeta; [|by left].
  destruct (ord x2) as [o2|e]; cbv beta iota zeta; [|by left].
  destruct bytes2 as [|b3 bytes3]; cbv beta iota zeta; [by left|].
  match goal with |- context [ord ?y] => destruct (ord y) as [o4|e] end;
    cbv beta iota zeta; [|by left].
  destruct (negb _); by left.
Qed.

(** A data message is accepted only in two ways. *)
Lemma data_message_inv p s :
  result (data_message p) = Ok s →
  (next_read (rx p) ≠ STX ∧ s = "") ∨
  ∃ payload trailer bcc rest,
    Forall (λ c, c ≠ bang) payload ∧ Forall (λ c, c ≠ etx) trailer ∧
    rx p = frame payload trailer bcc ++ rest ∧
    N_of_ascii bcc = block_check 0 (payload ++ bang :: trailer ++ [etx]) ∧
    s = string_of_list_ascii payload.
Proof.
  destruct p as [line bytes out o].
  unfold data_message. run_monad.
  destruct bytes as [|b bytes]; cbv beta iota zeta.
  { cbn. intros [= <-]. by left. }
  destruct b as [c0|]; cbn [received next_read]; cbv beta iota zeta;
    [|cbn; intros [= <-]; by left].
  destruct (String.eqb_spec (String c0 "") STX) as [Hb|Hb]; cbv beta iota zeta;
    [|cbn; intros [= <-]; by left].
  injection Hb as ->.
  destruct bytes as [|b1 bytes]; cbv beta iota zeta; [done|].
  destruct b1 as [c1|]; cbn [len String.length Nat.eqb]; cbv beta iota zeta; [|done].
  destruct (data_loop _ _ _ _) as [[[[BCC datablock] x]|e] bytes1] eqn:H1;
    cbv beta iota zeta; [|done].
  apply data_loop_inv in H1 as (l1 & Hl1 & Hc1 & -> & -> & -> & ->).
  destruct (etx_loop _ _ _) as [[[BCC2 x2]|e] bytes2] eqn:H2; cbv beta iota zeta; [|done].
  apply etx_loop_inv in H2 as (l2 & Hl2 & Hc2 & -> & -> & ->).
  cbn [ord ETX].
  destruct bytes2 as [|b3 bytes3]; cbv beta iota zeta; [done|].
  destruct b3 as [bcc|]; cbn [ord]; cbv beta iota zeta; [|done].
  destruct (N.eqb_spec (N.lxor (block_check (block_check 0 l1) l2) (N_of_ascii "003"))
              (N_of_ascii bcc)) as [Hbcc|Hbcc]; [|done].
  cbn. intros [= <-]. right.
  destruct l2 as [|c2 trailer]; [done|].
  injection Hc2 as <-. cbn [app tail] in *.
  apply Forall_cons in Hl2 as [_ Ht].
  injection Hc1 as Hc1.
  exists l1, trailer, bcc, bytes3. repeat split; [done|done| |].
  - unfold frame. cbn [map]. f_equal.
    assert (c1 :: tail (l1 ++ [bang]) = l1 ++ [bang]) as Hl
      by (destruct l1; cbn in *; by subst).
    rewrite app_comm_cons. change (Some c1 :: map Some ?l) with (map Some (c1 :: l)).
    rewrite Hl, !List.map_app, <- !List.app_assoc. f_equal.
    cbn [map app]. f_equal. rewrite List.map_app, <- List.app_assoc. done.
  - rewrite <- Hbcc. unfold block_check.
    rewrite fold_left_app. cbn [fold_left]. rewrite fold_left_app. done.
Qed.

Lemma exchange_unidentified line bytes :
  ¬ identification line →
  ∃ e, identification_error e ∧
       exchange (Serial_open line bytes) =
       ([Log DEBUG "Writing hello message"; Sleep DELAY] ++
        (if (len line =? 0)%nat then [] else [Log DEBUG "Got reply: %s"]),
        {| reply := ""; rx := bytes; tx := [hello]; opened := true |}, Raise e).
Proof.
  intros Hn. destruct line as [|c s].
  { eexists. split; [by left|]. done. }
  unfold exchange, Serial_open. run_monad.
  cbn [len String.length Nat.eqb head_char].
  destruct (Ascii.eqb_spec c "/") as [->|Hc]; cbn [negb].
  - destruct (S (String.length s) <? 7)%nat eqn:Hl.
    + eexists. split; [by right; right|]. done.
    + destruct Hn. apply Nat.ltb_ge in Hl. split; [done|split; [done|exact Hl]].
  - eexists. split; [by right; left|]. done.
Qed.

Lemma identification_dec line : identification line ∨ ¬ identification line.
Proof.
  destruct line as [|c s]; [right; by intros (? & _)|].
  destruct (Ascii.eqb_spec c "/") as [->|Hc].
  - destruct (le_lt_dec 7 (len (String "/" s))) as [H|H].
    + left. split; [done|split; [done|exact H]].
    + right. intros (_ & _ & ?). lia.
  - right. intros (_ & [= ?] & _). done.
Qed.

(** X2.  [read] returns a string only in two ways: the identification
    reply passed its tests and either the first byte after the
    acknowledgement was not STX, and the string is empty, or the input
    began with a whole data message whose check character is the XOR of
    every byte from the first byte of the block through ETX, and the
    string is that block. *)
Theorem read_returns_checked (line : string) (bytes : list (option ascii))
    (s : string) :
  result (read (Serial_open line bytes)) = Ok s →
  identification line ∧
  ((next_read bytes ≠ STX ∧ s = "") ∨
   ∃ payload trailer bcc rest,
     Forall (λ c, c ≠ bang) payload ∧ Forall (λ c, c ≠ etx) trailer ∧
     bytes = frame payload trailer bcc ++ rest ∧
     N_of_ascii bcc = block_check 0 (payload ++ bang :: trailer ++ [etx]) ∧
     s = string_of_list_ascii payload).
Proof.
  destruct (read_outcome (Serial_open line bytes)) as (-> & _).
  destruct (identification_dec line) as [Hid|Hid].
  - rewrite exchange_identified by done. intros Hs. split; [done|].
    apply (data_message_inv
      {| reply := ""; rx := bytes; tx := [hello; ack]; opened := true |}).
    by destruct (data_message _) as [[ev p] r].
  - destruct (exchange_unidentified line bytes Hid) as (e & _ & ->). done.
Qed.

Lemma read_returns_checked_witness :
  identification Samples.ident ∧
  ((next_read (frame Samples.payload Samples.crlf "," ++ []) ≠ STX ∧
    string_of_list_ascii Samples.payload = "") ∨
   ∃ payload trailer bcc rest,
     Forall (λ c, c ≠ bang) payload ∧ Forall (λ c, c ≠ etx) trailer ∧
     frame Samples.payload Samples.crlf "," ++ [] = frame payload trailer bcc ++ rest ∧
     N_of_ascii bcc = block_check 0 (payload ++ bang :: trailer ++ [etx]) ∧
     string_of_list_ascii Samples.payload = string_of_list_ascii payload).
Proof.
  apply (read_returns_checked Samples.ident
           (frame Samples.payload Samples.crlf "," ++ [])
           (string_of_list_ascii Samples.payload)).
  vm_compute. reflexivity.
Defined.

Lemma quiet_own evs : Forall quiet evs → Scheduler.own evs.
Proof.
  induction 1 as [|e evs He _ [IH1 IH2]]; [done|].
  unfold Scheduler.own, Scheduler.calls, Scheduler.errors_in in *.
  destruct He as [->|[t [->| ->]]]; cbn; by rewrite ?IH1, ?IH2.
Qed.

Ltac quiet_events :=
  repeat (apply Forall_cons; split;
          [first [ by left | right; eexists; by left | right; eexists; by right ]|]);
  exact (List.Forall_nil _).

(** X3.  Besides what it writes to the port, all [read] does is log
    debug and warning records and sleep the settle delay: it calls no
    sink, starts no command and logs no error, so every record of a
    cycle that shows a failure is the scheduler's. *)
Theorem read_is_quiet (p : Serial) :
  Forall quiet (events (read p)) ∧ Scheduler.own (events (read p)).
Proof.
  assert (Forall quiet (events (read p))) as Hq.
  { destruct (read_outcome p) as (_ & _ & _ & ->).
    destruct p as [line bytes out o].
    unfold exchange. run_monad.
    destruct (len line =? 0)%nat; cbv beta iota zeta; [cbn; quiet_events|].
    destruct (head_char line) as [c|e]; cbv beta iota zeta; [|cbn; quiet_events].
    destruct (negb _); cbv beta iota zeta; [cbn; quiet_events|].
    destruct (len line <? 7)%nat; cbv beta iota zeta; [cbn; quiet_events|].
    match goal with |- context [data_message ?q] =>
      pose proof (data_message_events q) as He;
      destruct (data_message q) as [[ev q'] r] end.
    cbn in *. destruct He as [->| ->]; quiet_events. }
  split; [done|]. by apply quiet_own.
Qed.

End MT174_more_facts.

Module Processor_more_facts.
Import Re Re_facts Processor Processor_facts.

Lemma list_ascii_app (s t : string) :
  list_ascii_of_string (s +:+ t) = list_ascii_of_string s ++ list_ascii_of_string t.
Proof. induction s as [|c s IH]; [done|]. rewrite app_cons. cbn. by rewrite IH. Qed.

Lemma len_snoc word c : (len (word +:+ String c "") =? 0)%nat = false.
Proof. by destruct word. Qed.

(** [split] at a whitespace character of the data. *)
Lemma split_from_app word d1 c d2 :
  space c = true →
  split_from word (d1 +:+ String c d2) = split_from word d1 ++ split d2.
Proof.
  intros Hc. revert word. induction d1 as [|a d1 IH]; intros word.
  - rewrite app_empty_l. cbn [split_from]. rewrite Hc.
    by destruct (len word =? 0)%nat.
  - rewrite app_cons. cbn [split_from]. destruct (space a).
    + destruct (len word =? 0)%nat; by rewrite IH.
    + apply IH.
Qed.

(** Every line [split] hands over is a non-empty run without whitespace. *)
Lemma split_from_tokens word data w :
  Forall (λ x, nonspace x = true) (list_ascii_of_string word) →
  w ∈ split_from word data →
  w ≠ "" ∧ Forall (λ x, nonspace x = true) (list_ascii_of_string w).
Proof.
  revert word. induction data as [|c data IH]; intros word Hword; cbn [split_from].
  - destruct word as [|a word]; cbn [len String.length Nat.eqb]; intros Hw; list_mem.
    by subst.
  - destruct (space c) eqn:Hc.
    + destruct word as [|a word]; cbn [len String.length Nat.eqb]; [by apply IH|].
      intros Hw. list_mem; [by subst|]. by apply (IH "").
    + apply IH. rewrite list_ascii_app. apply Forall_app. split; [done|].
      repeat constructor. unfold nonspace. by rewrite Hc.
Qed.

Lemma split_tokens data w :
  w ∈ split data →
  w ≠ "" ∧ Forall (λ x, nonspace x = true) (list_ascii_of_string w).
Proof. by apply split_from_tokens. Qed.

Lemma split_blank data :
  Forall (λ x, space x = true) (list_ascii_of_string data) → split data = [].
Proof.
  unfold split. induction data as [|c data IH]; [done|].
  cbn [list_ascii_of_string split_from]. intros [Hc Hd]%Forall_cons.
  rewrite Hc. by apply IH.
Qed.

(** Folding [store] over lines adds their entries on top of the map. *)
Lemma foldl_store_union lines d :
  foldl store d lines = foldl store ∅ lines ∪ d.
Proof.
  revert d. induction lines as [|l lines IH]; intros d; cbn [foldl].
  - by rewrite (left_id_L ∅ (∪)).
  - rewrite IH, (IH (store ∅ l)), !store_binding.
    destruct (binding l) as [[c v]|].
    + rewrite <- (assoc_L (∪)). f_equal.
      by rewrite <- insert_union_l, (left_id_L ∅ (∪)).
    + by rewrite (right_id_L ∅ (∪)).
Qed.

Lemma matches_code_form c g g' : matches code c g g' → g' = g ∧ code_form c.
Proof.
  unfold code. intros H. invert_matches. split; [done|].
  match goal with |- code_form (?a ++ ["."%char] ++ ?b ++ ["."%char] ++ ?ds) =>
    exists a, b, ds end.
  by repeat split.
Qed.

Lemma matches_opt_prefix_inv p g g' :
  matches (Opt prefix) p g g' → g' = g ∧ (p = [] ∨ group_prefix p).
Proof.
  intros H. inversion H; subst; clear H; [|by auto].
  match goal with H : matches prefix _ _ _ |- _ =>
    apply matches_prefix_inv in H as [-> ?] end. by auto.
Qed.

(** What a line that [extract] reads looks like. *)
Lemma binding_inv line c v :
  binding line = Some (c, v) →
  ∃ P cl T vl rest,
    list_ascii_of_string line = P ++ cl ++ T ++ "("%char :: vl ++ ")"%char :: rest ∧
    c = string_of_list_ascii cl ∧ v = string_of_list_ascii vl ∧
    (P = [] ∨ group_prefix P) ∧ code_form cl ∧ (T = [] ∨ T = tag255) ∧
    vl ≠ [] ∧ Forall (λ x, dot x = true) vl.
Proof.
  unfold binding, rmatch.
  destruct (exec REGEX _ ∅ matched) as [m|] eqn:Hm; [|done].
  intros [= <- <-].
  apply exec_sound in Hm as (s1 & rest & g' & Hs & Hmatch & [= <-]).
  unfold REGEX in Hmatch.
  inversion Hmatch as [|? ? P s2 ? g1 ? HP H2| | | |]; subst; clear Hmatch.
  apply matches_opt_prefix_inv in HP as [-> HP].
  inversion H2 as [|? ? cl s3 ? g2 ? Hc H3| | | |]; subst; clear H2.
  inversion Hc as [| | | | |? ? ? ? g3 Hcode]; subst; clear Hc.
  apply matches_code_form in Hcode as [-> Hcode].
  inversion H3 as [|? ? T s4 ? g4 ? HT H4| | | |]; subst; clear H3.
  apply matches_tag_inv in HT as [-> HT].
  inversion H4 as [|? ? lp s5 ? g5 ? Hlp H5| | | |]; subst; clear H4.
  inversion H5 as [|? ? vl rp ? g6 ? Hv Hrp| | | |]; subst; clear H5.
  inversion Hv as [| | | | |? ? ? ? g7 Hdot]; subst; clear Hv.
  unfold lit in *. invert_matches.
  exists P, cl, T, vl, rest. repeat split; try done.
  rewrite Hs. by rewrite <- !List.app_assoc.
Qed.

(** An entry of the folded map was there before or comes from a line. *)
Lemma foldl_store_origin lines d c v :
  foldl store d lines !! c = Some v →
  d !! c = Some v ∨ ∃ line, line ∈ lines ∧ binding line = Some (c, v).
Proof.
  revert d. induction lines as [|l lines IH]; intros d; cbn [foldl]; [by left|].
  intros [Hd|(line & Hin & Hb)]%IH.
  - rewrite store_binding in Hd. destruct (binding l) as [[c' v']|] eqn:Hl; [|by left].
    destruct (decide (c' = c)) as [->|Hne].
    + rewrite lookup_insert_eq in Hd. injection Hd as ->.
      right. exists l. split; [by left|done].
    + rewrite lookup_insert_ne in Hd by done. by left.
  - right. exists line. split; [by right|done].
Qed.

(** X4.  A block made of two blocks with a whitespace character between
    them is read as the second block laid over the first: a code of the
    second block has the second block's value, any other code keeps the
    value the first block gives it. *)
Theorem extract_joined (d1 d2 : string) (c : ascii) :
  space c = true →
  extract (d1 +:+ String c d2) = extract d2 ∪ extract d1 ∧
  ∀ k, extract (d1 +:+ String c d2) !! k =
       match extract d2 !! k with
       | Some v => Some v
       | None => extract d1 !! k
       end.
Proof.
  intros Hc.
  assert (extract (d1 +:+ String c d2) = extract d2 ∪ extract d1) as ->.
  { unfold extract, split. rewrite split_from_app by done.
    by rewrite foldl_app, foldl_store_union. }
  split; [done|]. intros k. rewrite lookup_union.
  by destruct (extract d2 !! k), (extract d1 !! k).
Qed.

Lemma extract_joined_witness :
  extract ("1.8.1(1) 1.8.2(2)" +:+ String "010" "1.8.2(3) C.7.0(4)")
    = extract "1.8.2(3) C.7.0(4)" ∪ extract "1.8.1(1) 1.8.2(2)" ∧
  ∀ k, extract ("1.8.1(1) 1.8.2(2)" +:+ String "010" "1.8.2(3) C.7.0(4)") !! k =
       match extract "1.8.2(3) C.7.0(4)" !! k with
       | Some v => Some v
       | None => extract "1.8.1(1) 1.8.2(2)" !! k
       end.
Proof.
  apply (extract_joined "1.8.1(1) 1.8.2(2)" "1.8.2(3) C.7.0(4)" "010").
  reflexivity.
Defined.

(** X5.  A block with nothing but whitespace in it, the empty block
    included, gives the empty map. *)
Theorem extract_blank (data : string) :
  Forall (λ x, space x = true) (list_ascii_of_string data) →
  extract data = ∅.
Proof. intros H. unfold extract. by rewrite split_blank. Qed.

Lemma extract_blank_witness :
  extract (String " " (String "013" (String "010" ""))) = ∅.
Proof.
  apply (extract_blank (String " " (String "013" (String "010" "")))).
  repeat constructor.
Defined.

(** X6.  Every entry [code → value] of the map [extract] returns comes
    from a line of the block, a non-empty run without whitespace, that
    reads: an optional [d-d:] prefix, the code, of at least three
    dot-separated segments the last of which is digits, an optional
    [*255], [(], the value, non-empty and without a newline, [)], and
    whatever follows.  So neither a code nor a value of the map contains
    whitespace. *)
Theorem extract_entry_origin (data c v : string) :
  extract data !! c = Some v →
  ∃ line P T rest,
    line ∈ split data ∧
    Forall (λ x, nonspace x = true) (list_ascii_of_string line) ∧
    list_ascii_of_string line =
      P ++ list_ascii_of_string c ++ T ++
      "("%char :: list_ascii_of_string v ++ ")"%char :: rest ∧
    (P = [] ∨ group_prefix P) ∧ code_form (list_ascii_of_string c) ∧
    (T = [] ∨ T = tag255) ∧
    v ≠ "" ∧ Forall (λ x, dot x = true) (list_ascii_of_string v).
Proof.
  intros [Hd|(line & Hin & Hb)]%foldl_store_origin; [done|].
  apply binding_inv in Hb as (P & cl & T & vl & rest & Hl & -> & -> & HP & Hc & HT & Hv & Hdot).
  exists line, P, T, rest. rewrite !list_ascii_of_string_of_list_ascii.
  repeat split; try done.
  - by apply split_tokens in Hin as [_ ?].
  - by destruct vl.
Qed.

Lemma extract_entry_origin_witness :
  ∃ line P T rest,
    line ∈ split "0-0:C.1.0*255(62791737) 1-0:1.8.1*255(0001798.478*kWh)" ∧
    Forall (λ x, nonspace x = true) (list_ascii_of_string line) ∧
    list_ascii_of_string line =
      P ++ list_ascii_of_string "1.8.1" ++ T ++
      "("%char :: list_ascii_of_string "0001798.478*kWh" ++ ")"%char :: rest ∧
    (P = [] ∨ group_prefix P) ∧ code_form (list_ascii_of_string "1.8.1") ∧
    (T = [] ∨ T = tag255) ∧
    "0001798.478*kWh" ≠ "" ∧
    Forall (λ x, dot x = true) (list_ascii_of_string "0001798.478*kWh").
Proof.
  apply (extract_entry_origin
           "0-0:C.1.0*255(62791737) 1-0:1.8.1*255(0001798.478*kWh)"
           "1.8.1" "0001798.478*kWh").
  vm_compute. reflexivity.
Defined.

(** X7.  A code is missing from the map [extract] returns exactly when
    no line of the block is read as an assignment to it. *)
Theorem extract_absent (data c : string) :
  extract data !! c = None ↔
  ∀ line v, line ∈ split data → binding line ≠ Some (c, v).
Proof.
  split.
  - unfold extract. generalize (split data). intros lines.
    induction lines as [|l lines IH] using rev_ind; intros Hnone line v Hin; [list_mem|].
    rewrite foldl_app in Hnone. cbn [foldl] in Hnone.
    rewrite store_binding in Hnone.
    destruct (binding l) as [[c' v']|] eqn:Hl.
    + destruct (decide (c' = c)) as [->|Hne]; [by rewrite lookup_insert_eq in Hnone|].
      rewrite lookup_insert_ne in Hnone by done.
      apply elem_of_app in Hin as [Hin|Hin]; [by apply IH|].
      apply list_elem_of_singleton in Hin as ->. rewrite Hl. congruence.
    + apply elem_of_app in Hin as [Hin|Hin]; [by apply IH|].
      apply list_elem_of_singleton in Hin as ->. by rewrite Hl.
  - intros H. unfold extract. rewrite foldl_store_other; [done|].
    intros l v Hin. by apply H.
Qed.

End Processor_more_facts.

Module MqttProcessor_more_facts.
Import MqttProcessor MqttProcessor_facts MqttProcessor_more.

Lemma map2_lengths f xs ys :
  (∀ x y, ∃ v, f x y = Ok v) → length xs ≠ length ys → map2 f xs ys = Raise TypeError.
Proof.
  intros Hf. revert ys. induction xs as [|x xs IH]; intros [|y ys] Hlen; try done.
  cbn [map2]. destruct (Hf x y) as [v ->]. rewrite IH; [done|]. cbn in Hlen. lia.
Qed.

Ltac one_of :=
  first [ done | by left | by right | by (right; left) | by (right; right)
        | by (right; right; left) | by (right; right; right) ].

Section process.
Variable iter : string → gmap string string → list string.
Variable float_of_str : string → res float.
Variable int_of_str : string → res Z.
Variable format_reading : float → float → res string.
Variable format_counter : float → Z → res string.
Variable format_int : Z → string.
Variable subprocess_call : nat → list string → res Z.

Local Abbreviation buildCommand := (buildCommand format_int).
Local Abbreviation executeCommand := (executeCommand subprocess_call).
Local Abbreviation publish := (publish format_reading format_int subprocess_call).
Local Abbreviation publishes_under := (publishes_under format_int).
Local Abbreviation process :=
  (process iter float_of_str int_of_str format_reading format_counter
     format_int subprocess_call).

Local Abbreviation current :=
  (current format_reading format_int subprocess_call).
Local Abbreviation counter :=
  (counter int_of_str format_counter format_int subprocess_call).

(** [process] as the sequence of its three parts. *)
Lemma process_parts self timestamp data :
  process timestamp data self =
  (let* index := lift (readings float_of_str (Processor.extract data)
                         (iter data (Processor.extract data))) in
   current self timestamp index;;
   publish self timestamp "index/" true (zip names index);;
   counter self (Processor.extract data) (timestamp, index)) self.
Proof.
  unfold MqttProcessor.process. rewrite bind_run. unfold get at 1.
  cbv beta iota.
  exact (out_eta _).
Qed.

Lemma same_settings_refl (s : t) : same_settings s s.
Proof. by repeat split. Qed.

Lemma same_settings_trans (s1 s2 s3 : t) :
  same_settings s1 s2 → same_settings s2 s3 → same_settings s1 s3.
Proof.
  intros (? & ? & ? & ? & ?) (? & ? & ? & ? & ?). repeat split; congruence.
Qed.

Lemma executeCommand_out command (s : t) :
  ∃ ev s' r, executeCommand command s = (ev, s', r) ∧
    last s' = last s ∧ same_settings s s' ∧
    Forall (λ e, e = Log DEBUG "Executing: %s" ∨
                 e = Log ERROR "Unable to execute command" ∨
                 e = Exec command) ev.
Proof.
  unfold MqttProcessor.executeCommand.
  destruct (subprocess_call _ _) as [retcode|e].
  - eexists _, _, _. split; [done|]. split; [done|]. split; [by repeat split|].
    destruct (negb _); cbn [app]; repeat (constructor; [one_of|]); constructor.
  - eexists _, _, _. split; [done|]. split; [done|]. split; [by repeat split|].
    repeat (constructor; [one_of|]); constructor.
Qed.

Lemma publish_out self0 timestamp topic info pairs (s : t) :
  ∃ ev s' r, publish self0 timestamp topic info pairs s = (ev, s', r) ∧
    last s' = last s ∧ same_settings s s' ∧
    Forall (publication format_int self0 topic) ev.
Proof.
  revert s. induction pairs as [|[key value] pairs IH]; intros s.
  - eexists [], s, _. split; [done|]. split; [done|].
    split; [apply same_settings_refl|constructor].
  - cbn [MqttProcessor.publish]. rewrite bind_run. unfold lift.
    destruct (format_reading timestamp value) as [message|e].
    2:{ eexists [], s, _. split; [done|]. split; [done|].
        split; [apply same_settings_refl|constructor]. }
    rewrite bind_run.
    destruct (executeCommand_out (buildCommand self0 (topic +:+ key) message) s)
      as (ev1 & s1 & r1 & -> & Hl1 & Hs1 & Hev1).
    assert (Forall (publication format_int self0 topic) ev1) as Hpub1.
    { eapply Forall_impl; [exact Hev1|]. intros e [-> | [-> | ->]].
      - by left.
      - right. by left.
      - right. right. right. eexists. split; [done|]. by eexists _, _. }
    destruct r1 as [retcode|e].
    2:{ eexists _, _, _. split; [done|]. by rewrite app_nil_l. }
    rewrite bind_run.
    assert (∃ evl, (if info then logging INFO "%s = %.3f kWh" else ret tt) s1
                   = (evl, s1, Ok tt) ∧
                   Forall (publication format_int self0 topic) evl)
      as (evl & -> & Hevl).
    { destruct info; eexists; (split; [done|]).
      - constructor; [right; right; by left|constructor].
      - constructor. }
    destruct (IH s1) as (ev2 & s2 & r2 & -> & Hl2 & Hs2 & Hev2).
    eexists _, _, _. split; [done|]. split; [congruence|].
    split; [by eapply same_settings_trans|].
    rewrite app_nil_l. by repeat (apply Forall_app; split).
Qed.

Lemma current_out self timestamp index (s : t) :
  ∃ ev s' r, current self timestamp index s = (ev, s', r) ∧
    last s' = last s ∧ same_settings s s' ∧
    Forall (λ e, publication format_int self "current/" e ∨
                 e = Log ERROR "Interval too long: %.2f") ev.
Proof.
  unfold MqttProcessor_more.current.
  destruct (negb _).
  2:{ eexists [], s, _. split; [done|]. split; [done|].
      split; [apply same_settings_refl|constructor]. }
  cbv zeta. destruct (_ <? _)%float.
  2:{ eexists _, s, _. split; [done|]. split; [done|].
      split; [apply same_settings_refl|]. constructor; [by right|constructor]. }
  rewrite bind_run. unfold lift.
  destruct (map2 _ _ _) as [values|e].
  2:{ eexists [], s, _. split; [done|]. split; [done|].
      split; [apply same_settings_refl|constructor]. }
  destruct (publish_out self timestamp "current/" false (zip names values) s)
    as (ev & s' & r & -> & Hl & Hs & Hev).
  eexists _, _, _. split; [done|]. split; [done|]. split; [done|].
  rewrite app_nil_l. eapply Forall_impl; [exact Hev|]. by left.
Qed.

Lemma counter_out self d cur (s : t) :
  ∃ ev s' r, counter self d cur s = (ev, s', r) ∧
    same_settings s s' ∧
    Forall (publication format_int self "powerdown/counter") ev ∧
    match r with
    | Ok _ => last s' = cur ∧ is_Some (d !! "C.7.0")
    | Raise _ => last s' = last s
    end.
Proof.
  unfold MqttProcessor_more.counter.
  rewrite bind_run. unfold lift at 1.
  destruct (d !! "C.7.0") as [c|].
  2:{ eexists [], s, _. split; [done|]. split; [apply same_settings_refl|].
      split; [constructor|done]. }
  rewrite bind_run. unfold lift at 1.
  destruct (int_of_str c) as [n|e].
  2:{ eexists [], s, _. split; [done|]. split; [apply same_settings_refl|].
      split; [constructor|done]. }
  rewrite bind_run. unfold lift at 1.
  destruct (format_counter cur.1 n) as [message|e].
  2:{ eexists [], s, _. split; [done|]. split; [apply same_settings_refl|].
      split; [constructor|done]. }
  rewrite bind_run.
  destruct (executeCommand_out (buildCommand self "powerdown/counter" message) s)
    as (ev1 & s1 & r1 & -> & Hl1 & Hs1 & Hev1).
  assert (Forall (publication format_int self "powerdown/counter") ev1) as Hpub1.
  { eapply Forall_impl; [exact Hev1|]. intros e [-> | [-> | ->]].
    - by left.
    - right. by left.
    - right. right. right. eexists. split; [done|]. exists "", message.
      by rewrite app_empty_r. }
  destruct r1 as [retcode|e].
  2:{ eexists _, _, _. split; [done|]. rewrite !app_nil_l.
      split; [done|]. by split. }
  unfold set_last. eexists _, _, _. split; [done|].
  rewrite !app_nil_l, app_nil_r. split; [|split; [done|]].
  - destruct Hs1 as (? & ? & ? & ? & ?). by repeat split.
  - split; [done|]. by eexists.
Qed.

(** How the outcomes of the parts make up the outcome of [process]. *)
Lemma process_out self timestamp data :
  let d := Processor.extract data in
  match readings float_of_str d (iter data d) with
  | Raise e => process timestamp data self = ([], self, Raise e)
  | Ok index =>
    ∃ ev0 s0 r0, current self timestamp index self = (ev0, s0, r0) ∧
    match r0 with
    | Raise e => process timestamp data self = (ev0, s0, Raise e)
    | Ok _ =>
      ∃ ev1 s1 r1,
        publish self timestamp "index/" true (zip names index) s0 = (ev1, s1, r1) ∧
        match r1 with
        | Raise e => process timestamp data self = (ev0 ++ ev1, s1, Raise e)
        | Ok _ =>
          ∃ ev2 s2 r2,
            counter self d (timestamp, index) s1 = (ev2, s2, r2) ∧
            process timestamp data self = (ev0 ++ ev1 ++ ev2, s2, r2)
        end
    end
  end.
Proof.
  intros d. subst d.
  remember (process timestamp data self) as out eqn:Hout.
  rewrite process_parts in Hout.
  rewrite bind_run in Hout. unfold lift at 1 in Hout.
  destruct (readings _ _ _) as [index|e]; [|done].
  rewrite bind_run in Hout.
  destruct (current self timestamp index self) as [[ev0 s0] [[]|e]];
    eexists _, _, _; (split; [done|]); [|done].
  rewrite bind_run in Hout.
  destruct (publish self timestamp "index/" true (zip names index) s0)
    as [[ev1 s1] [[]|e]]; eexists _, _, _; (split; [done|]);
    [|subst out; by rewrite app_nil_l].
  destruct (counter self _ _ s1) as [[ev2 s2] r2].
  eexists _, _, _. split; [done|]. subst out. by rewrite app_nil_l.
Qed.

(** X12.  [process] replaces the reading it retains exactly when it
    returns: then the retained pair is the timestamp and the index
    values of this block; when it raises, at whatever point, the pair is
    the one retained before.  Host, port, root topic, interval and name
    are never changed. *)
Theorem process_retains (self : t) (timestamp : float) (data : string) :
  let out := process timestamp data self in
  same_settings self (final out) ∧
  match result out with
  | Ok _ =>
    ∃ index,
      readings float_of_str (Processor.extract data)
        (iter data (Processor.extract data)) = Ok index ∧
      last (final out) = (timestamp, index)
  | Raise _ => last (final out) = last self
  end.
Proof.
  intros out. subst out.
  pose proof (process_out self timestamp data) as H. cbv zeta in H.
  destruct (readings _ _ _) as [index|e];
    [|rewrite H; split; [apply same_settings_refl|done]].
  destruct H as (ev0 & s0 & r0 & H0 & H).
  destruct (current_out self timestamp index self)
    as (? & ? & ? & H0' & Hl0 & Hs0 & _).
  rewrite H0 in H0'. injection H0' as <- <- <-.
  destruct r0 as [[]|e]; [|by rewrite H].
  destruct H as (ev1 & s1 & r1 & H1 & H).
  destruct (publish_out self timestamp "index/" true (zip names index) s0)
    as (? & ? & ? & H1' & Hl1 & Hs1 & _).
  rewrite H1 in H1'. injection H1' as <- <- <-.
  destruct r1 as [[]|e].
  2:{ rewrite H. split; [by eapply same_settings_trans|]. cbn. congruence. }
  destruct H as (ev2 & s2 & r2 & H2 & ->).
  destruct (counter_out self (Processor.extract data) (timestamp, index) s1)
    as (? & ? & ? & H2' & Hs2 & _ & Hr2).
  rewrite H2 in H2'. injection H2' as <- <- <-.
  split; [eapply same_settings_trans; [|exact Hs2]; by eapply same_settings_trans|].
  cbn. destruct r2 as [[]|e].
  - exists index. by destruct Hr2.
  - congruence.
Qed.

(** The events of a run of [process], part by part. *)
Lemma process_events self timestamp data :
  Forall (λ e, (publication format_int self "current/" e ∨
                e = Log ERROR "Interval too long: %.2f") ∨
               publication format_int self "index/" e ∨
               publication format_int self "powerdown/counter" e)
    (events (process timestamp data self)) ∧
  ((fst (last self) =? 0)%float = true →
   Forall (λ e, publication format_int self "index/" e ∨
                publication format_int self "powerdown/counter" e)
     (events (process timestamp data self))).
Proof.
  pose proof (process_out self timestamp data) as H. cbv zeta in H.
  destruct (readings _ _ _) as [index|e];
    [|rewrite H; split; [constructor|intros _; constructor]].
  destruct H as (ev0 & s0 & r0 & H0 & H).
  destruct (current_out self timestamp index self)
    as (? & ? & ? & H0' & _ & _ & Hev0).
  rewrite H0 in H0'. injection H0' as <- <- <-.
  assert ((fst (last self) =? 0)%float = true → ev0 = [] ∧ r0 = Ok tt) as Hfirst.
  { intros Hz. unfold MqttProcessor_more.current in H0. rewrite Hz in H0.
    cbn in H0. by injection H0 as <- _ <-. }
  assert (Forall (λ e, (publication format_int self "current/" e ∨
                        e = Log ERROR "Interval too long: %.2f") ∨
                       publication format_int self "index/" e ∨
                       publication format_int self "powerdown/counter" e) ev0) as Hall0.
  { eapply Forall_impl; [exact Hev0|]. intros e He. by left. }
  destruct r0 as [[]|e].
  2:{ rewrite H. split; [done|]. intros Hz. by destruct (Hfirst Hz). }
  destruct H as (ev1 & s1 & r1 & H1 & H).
  destruct (publish_out self timestamp "index/" true (zip names index) s0)
    as (? & ? & ? & H1' & _ & _ & Hev1).
  rewrite H1 in H1'. injection H1' as <- <- <-.
  destruct r1 as [[]|e].
  2:{ rewrite H. cbn. split.
      - apply Forall_app. split; [done|].
        eapply Forall_impl; [exact Hev1|]. intros e' He. right. by left.
      - intros Hz. destruct (Hfirst Hz) as [-> _]. rewrite app_nil_l.
        eapply Forall_impl; [exact Hev1|]. intros e' He. by left. }
  destruct H as (ev2 & s2 & r2 & H2 & ->).
  destruct (counter_out self (Processor.extract data) (timestamp, index) s1)
    as (? & ? & ? & H2' & _ & Hev2 & _).
  rewrite H2 in H2'. injection H2' as <- <- <-.
  cbn. split.
  - apply Forall_app. split; [done|]. apply Forall_app. split.
    + eapply Forall_impl; [exact Hev1|]. intros e' He. right. by left.
    + eapply Forall_impl; [exact Hev2|]. intros e' He. right. by right.
  - intros Hz. destruct (Hfirst Hz) as [-> _]. rewrite app_nil_l.
    apply Forall_app. split.
    + eapply Forall_impl; [exact Hev1|]. intros e' He. by left.
    + eapply Forall_impl; [exact Hev2|]. intros e' He. by right.
Qed.

Lemma publication_not_rate self topic c :
  topic = "index/" ∨ topic = "powerdown/counter" →
  publication format_int self topic (Exec c) →
  ¬ publishes_under self "current/" c.
Proof.
  intros Ht [?|[?|[?|(c' & [= <-] & k & m & ->)]]]; try done.
  intros (k' & m' & Heq). apply buildCommand_topic in Heq.
  by destruct Ht as [-> | ->].
Qed.

(** X13.  While no reading is retained (the retained timestamp is 0, as
    after [__init__]), [process] computes no rate: it starts no command
    under a [current/] topic and logs no interval error; every command
    it starts publishes under [index/] or the power-down counter. *)
Theorem process_first_block (self : t) (timestamp : float) (data : string) :
  (fst (last self) =? 0)%float = true →
  let out := process timestamp data self in
  (Log ERROR "Interval too long: %.2f" ∉ events out) ∧
  (∀ c, Exec c ∈ events out →
     ¬ publishes_under self "current/" c ∧
     (publishes_under self "index/" c ∨
      publishes_under self "powerdown/counter" c)).
Proof.
  intros Hz out. subst out.
  destruct (process_events self timestamp data) as [_ Hev].
  specialize (Hev Hz). rewrite Forall_forall in Hev. split.
  - intros Hin. apply Hev in Hin.
    destruct Hin as [[?|[?|[?|(? & ? & _)]]]|[?|[?|[?|(? & ? & _)]]]]; done.
  - intros c Hin. apply Hev in Hin. destruct Hin as [Hin|Hin]; split.
    + eapply publication_not_rate; [|exact Hin]. by left.
    + left. by destruct Hin as [?|[?|[?|(c' & [= <-] & ?)]]].
    + eapply publication_not_rate; [|exact Hin]. by right.
    + right. by destruct Hin as [?|[?|[?|(c' & [= <-] & ?)]]].
Qed.

(** X14.  A block without the counter [C.7.0] makes [process] raise,
    and the reading retained stays the one before. *)
Theorem process_without_counter (self : t) (timestamp : float) (data : string) :
  Processor.extract data !! "C.7.0" = None →
  let out := process timestamp data self in
  (∃ e, result out = Raise e) ∧ last (final out) = last self.
Proof.
  intros Hnone out. subst out.
  pose proof (process_out self timestamp data) as H. cbv zeta in H.
  destruct (readings _ _ _) as [index|e]; [|rewrite H; split; [by eexists|done]].
  destruct H as (ev0 & s0 & r0 & H0 & H).
  destruct (current_out self timestamp index self)
    as (? & ? & ? & H0' & Hl0 & _ & _).
  rewrite H0 in H0'. injection H0' as <- <- <-.
  destruct r0 as [[]|e]; [|rewrite H; split; [by eexists|done]].
  destruct H as (ev1 & s1 & r1 & H1 & H).
  destruct (publish_out self timestamp "index/" true (zip names index) s0)
    as (? & ? & ? & H1' & Hl1 & _ & _).
  rewrite H1 in H1'. injection H1' as <- <- <-.
  destruct r1 as [[]|e]; [|rewrite H; split; [by eexists|cbn; congruence]].
  destruct H as (ev2 & s2 & r2 & H2 & ->).
  destruct (counter_out self (Processor.extract data) (timestamp, index) s1)
    as (? & ? & ? & H2' & _ & _ & Hr2).
  rewrite H2 in H2'. injection H2' as <- <- <-.
  destruct r2 as [[]|e].
  - destruct Hr2 as [_ [c Hc]]. congruence.
  - split; [by eexists|]. cbn. congruence.
Qed.

Lemma process_current_raises self timestamp data index e :
  readings float_of_str (Processor.extract data)
    (iter data (Processor.extract data)) = Ok index →
  current self timestamp index self = ([], self, Raise e) →
  process timestamp data self = ([], self, Raise e).
Proof.
  intros Hr Hc.
  pose proof (process_out self timestamp data) as H. cbv zeta in H.
  rewrite Hr in H. destruct H as (ev0 & s0 & r0 & H0 & H).
  rewrite Hc in H0. by injection H0 as <- <- <-.
Qed.

(** X15.  When a reading is retained and the block comes with the very
    timestamp retained, the rate divides by zero: with at least one
    register on both sides, [process] raises [ZeroDivisionError] before
    it has started any command, and retains what it retained. *)
Theorem process_same_timestamp (self : t) (timestamp : float) (data : string)
    (index : list float) :
  readings float_of_str (Processor.extract data)
    (iter data (Processor.extract data)) = Ok index →
  (fst (last self) =? 0)%float = false →
  (timestamp - fst (last self) =? 0)%float = true →
  (timestamp - fst (last self) <? interval self)%float = true →
  index ≠ [] → snd (last self) ≠ [] →
  process timestamp data self = ([], self, Raise ZeroDivisionError).
Proof.
  intros Hr Hprior Hzero Hin Hi Hl. apply (process_current_raises _ _ _ index); [done|].
  unfold MqttProcessor_more.current. rewrite Hprior, Hin. cbn [negb].
  cbv zeta. rewrite bind_run. unfold lift.
  destruct index as [|x index]; [done|].
  destruct (snd (last self)) as [|y ys]; [done|].
  cbn [map2]. by rewrite Hzero.
Qed.

(** X16.  When a reading is retained, the block arrives within the
    tolerance, and it has another number of energy registers than the
    reading retained, [process] raises [TypeError] before it has started
    any command, and retains what it retained: the same happens on the
    next block, until one arrives after the tolerance. *)
Theorem process_register_count (self : t) (timestamp : float) (data : string)
    (index : list float) :
  readings float_of_str (Processor.extract data)
    (iter data (Processor.extract data)) = Ok index →
  (fst (last self) =? 0)%float = false →
  (timestamp - fst (last self) =? 0)%float = false →
  (timestamp - fst (last self) <? interval self)%float = true →
  length index ≠ length (snd (last self)) →
  process timestamp data self = ([], self, Raise TypeError).
Proof.
  intros Hr Hprior Hzero Hin Hlen. apply (process_current_raises _ _ _ index); [done|].
  unfold MqttProcessor_more.current. rewrite Hprior, Hin. cbn [negb].
  cbv zeta. rewrite bind_run. unfold lift.
  rewrite map2_lengths; [done| |done].
  intros x y. rewrite Hzero. by eexists.
Qed.

Lemma publish_first self0 timestamp topic info key value pairs message (s : t) :
  format_reading timestamp value = Ok message →
  Exec (buildCommand self0 (topic +:+ key) message)
    ∈ events (publish self0 timestamp topic info ((key, value) :: pairs) s).
Proof.
  intros Hm. cbn [MqttProcessor.publish]. rewrite bind_run. unfold lift at 1.
  rewrite Hm. rewrite bind_run. unfold MqttProcessor.executeCommand.
  destruct (subprocess_call _ _) as [retcode|e].
  - match goal with |- context [bind ?c ?k ?s'] =>
      destruct (bind c k s') as [[ev' s''] r'] end.
    cbn. in_list.
  - cbn. in_list.
Qed.

Lemma readings_skipped d skipped keys :
  (∀ k, k ∈ skipped → k ∉ edis) →
  readings float_of_str d (skipped ++ keys) = readings float_of_str d keys.
Proof.
  induction skipped as [|k skipped IH]; intros Hs; [done|].
  cbn [app readings]. rewrite bool_decide_eq_false_2 by (apply Hs; by left).
  apply IH. intros k' Hk'. apply Hs. by right.
Qed.

(** X18.  The names [total], [tariff1], [tariff2] go by position, not
    by code: the first energy register the [dict] yields, whichever of
    the three codes it has, is published under [index/total]. *)
Theorem process_names_by_position (self : t) (timestamp : float) (data : string)
    (skipped : list string) (x : string) (keys : list string) (s : string)
    (v : float) (vs : list float) (message : string) :
  let d := Processor.extract data in
  iter data d = skipped ++ x :: keys →
  (∀ k, k ∈ skipped → k ∉ edis) →
  x ∈ edis →
  d !! x = Some s →
  float_of_str (before_star s) = Ok v →
  readings float_of_str d keys = Ok vs →
  (fst (last self) =? 0)%float = true →
  format_reading timestamp v = Ok message →
  Exec (buildCommand self "index/total" message)
    ∈ events (process timestamp data self).
Proof.
  intros d Hiter Hskip Hx Hs Hv Hvs Hz Hm. subst d.
  pose proof (process_out self timestamp data) as H. cbv zeta in H.
  rewrite Hiter, readings_skipped in H by done. cbn [readings] in H.
  rewrite (bool_decide_eq_true_2 _ Hx), Hs, Hv, Hvs in H.
  destruct H as (ev0 & s0 & r0 & H0 & H).
  unfold MqttProcessor_more.current in H0. rewrite Hz in H0.
  cbn in H0. injection H0 as <- <- <-.
  destruct H as (ev1 & s1 & r1 & H1 & H).
  pose proof (publish_first self timestamp "index/" true "total" v
                (zip ["tariff1"; "tariff2"] vs) message self Hm) as Hin.
  change (("total", v) :: zip ["tariff1"; "tariff2"] vs)
    with (zip names (v :: vs)) in Hin.
  rewrite H1 in Hin. cbn [events fst] in Hin.
  destruct r1 as [[]|e].
  - destruct H as (ev2 & s2 & r2 & _ & ->). cbn.
    apply elem_of_app. by left.
  - rewrite H. done.
Qed.

Section failures.
Hypothesis float_fails : ∀ s e, float_of_str s = Raise e → is_Exception e = true.
Hypothesis int_fails : ∀ s e, int_of_str s = Raise e → is_Exception e = true.
Hypothesis reading_fails :
  ∀ t v e, format_reading t v = Raise e → is_Exception e = true.
Hypothesis counter_fails :
  ∀ t n e, format_counter t n = Raise e → is_Exception e = true.
Hypothesis call_fails :
  ∀ n c e, subprocess_call n c = Raise e → is_Exception e = true.

Lemma readings_raises d keys e :
  readings float_of_str d keys = Raise e → is_Exception e = true.
Proof using float_fails.
  induction keys as [|x keys IH]; [done|]. cbn [readings].
  destruct (bool_decide _); [|done].
  destruct (d !! x) as [s|]; [|by intros [= <-]].
  destruct (float_of_str _) as [v|e'] eqn:Hv; [|intros [= <-]; by eapply float_fails].
  destruct (readings _ _ _) as [vs|e']; [done|]. intros [= <-]. by apply IH.
Qed.

Lemma map2_raises f xs ys e :
  (∀ x y e, f x y = Raise e → is_Exception e = true) →
  map2 f xs ys = Raise e → is_Exception e = true.
Proof.
  intros Hf. revert ys. induction xs as [|x xs IH]; intros [|y ys]; cbn [map2];
    try done; try by intros [= <-].
  destruct (f x y) as [v|e'] eqn:Hv; [|intros [= <-]; by eapply Hf].
  destruct (map2 f xs ys) as [vs|e'] eqn:Hvs; [done|]. intros [= <-]. by eapply IH.
Qed.

Lemma executeCommand_raises command (s : t) e :
  result (executeCommand command s) = Raise e → is_Exception e = true.
Proof using call_fails.
  unfold MqttProcessor.executeCommand.
  destruct (subprocess_call _ _) as [retcode|e'] eqn:Hc; [done|].
  intros [= <-]. by eapply call_fails.
Qed.

Lemma publish_raises self0 timestamp topic info pairs (s : t) e :
  result (publish self0 timestamp topic info pairs s) = Raise e →
  is_Exception e = true.
Proof using reading_fails call_fails.
  revert s. induction pairs as [|[key value] pairs IH]; intros s; [done|].
  cbn [MqttProcessor.publish]. rewrite bind_run. unfold lift at 1.
  destruct (format_reading timestamp value) as [message|e'] eqn:Hm;
    [|intros [= <-]; by eapply reading_fails].
  rewrite bind_run.
  pose proof (executeCommand_raises (buildCommand self0 (topic +:+ key) message) s)
    as Hexec.
  destruct (executeCommand _ s) as [[ev1 s1] [retcode|e']];
    [|intros [= <-]; by apply Hexec].
  rewrite bind_run.
  assert ((if info then logging INFO "%s = %.3f kWh" else ret tt) s1
          = ((if info then [Log INFO "%s = %.3f kWh"] else []), s1, Ok tt)) as ->
    by (by destruct info).
  specialize (IH s1). destruct (publish _ _ _ _ _ s1) as [[ev2 s2] r2].
  exact IH.
Qed.

(** X19.  [MqttProcessor.process] is a sink as the scheduler expects
    it: it calls no other sink and does not log the scheduler's record
    of a failed sink, and when the builtins it calls fail with an
    [Exception], what it raises is an [Exception], which the scheduler
    catches. *)
Theorem process_well_behaved (self0 : t) (timestamp : float) (data : string) :
  Scheduler.well_behaved (Scheduler.mkSink (name self0) process) timestamp data.
Proof using float_fails int_fails reading_fails counter_fails call_fails.
  intros self. cbn [Scheduler.process]. split.
  - destruct (process_events self timestamp data) as [Hev _].
    induction Hev as [|e ev He _ [IH1 IH2]]; [done|].
    unfold Scheduler.own, Scheduler.calls, Scheduler.errors_in in *.
    destruct He as [[He| ->]|[He|He]];
      try (destruct He as [-> | [-> | [-> | (c & -> & _)]]]); cbn;
      by rewrite ?IH1, ?IH2.
  - intros e.
    pose proof (process_out self timestamp data) as H. cbv zeta in H.
    destruct (readings _ _ _) as [index|e'] eqn:Hr;
      [|rewrite H; intros [= <-]; by eapply readings_raises].
    destruct H as (ev0 & s0 & r0 & H0 & H).
    assert (∀ e, r0 = Raise e → is_Exception e = true) as Hr0.
    { intros e' ->. unfold MqttProcessor_more.current in H0.
      destruct (negb _); [|done]. cbv zeta in H0.
      destruct (_ <? _)%float; [|done].
      rewrite bind_run in H0. unfold lift in H0.
      destruct (map2 _ _ _) as [values|e''] eqn:Hmap.
      - pose proof (publish_raises self timestamp "current/" false
                      (zip names values) self e') as Hp.
        destruct (publish _ _ _ _ _ self) as [[ev s'] r]. apply Hp.
        cbn. congruence.
      - injection H0 as _ _ <-. eapply map2_raises; [|exact Hmap].
        intros x y e0. by destruct (_ =? 0)%float; intros [= <-]. }
    destruct r0 as [[]|e0]; [|rewrite H; intros [= <-]; by apply Hr0].
    destruct H as (ev1 & s1 & r1 & H1 & H).
    pose proof (publish_raises self timestamp "index/" true (zip names index) s0)
      as Hp. rewrite H1 in Hp.
    destruct r1 as [[]|e1]; [|rewrite H; intros [= <-]; by apply Hp].
    destruct H as (ev2 & s2 & r2 & H2 & ->).
    cbn. intros ->.
    unfold MqttProcessor_more.counter in H2.
    rewrite bind_run in H2. unfold lift at 1 in H2.
    destruct (Processor.extract data !! "C.7.0") as [c|]; [|by injection H2 as _ _ <-].
    rewrite bind_run in H2. unfold lift at 1 in H2.
    destruct (int_of_str c) as [n|e'] eqn:Hn;
      [|injection H2 as _ _ <-; by eapply int_fails].
    rewrite bind_run in H2. unfold lift at 1 in H2.
    destruct (format_counter _ n) as [message|e'] eqn:Hm;
      [|injection H2 as _ _ <-; by eapply counter_fails].
    rewrite bind_run in H2.
    pose proof (executeCommand_raises
                  (buildCommand self "powerdown/counter" message) s1) as Hexec.
    destruct (executeCommand _ s1) as [[ev3 s3] [retcode|e']]; [done|].
    injection H2 as _ _ <-. by apply Hexec.
Qed.
End failures.

End process.

Lemma commands_app ev1 ev2 : commands (ev1 ++ ev2) = commands ev1 ++ commands ev2.
Proof. apply omap_app. Qed.

Lemma alike_refl {σ A} (o : list event * σ * res A) : alike o o.
Proof. done. Qed.

Lemma alike_bind {σ A B} (c1 c2 : M σ A) (k1 k2 : A → M σ B) s :
  alike (c1 s) (c2 s) → (∀ a s', alike (k1 a s') (k2 a s')) →
  alike (bind c1 k1 s) (bind c2 k2 s).
Proof.
  intros Hc Hk. rewrite !bind_run.
  destruct (c1 s) as [[ev1 s1] r1], (c2 s) as [[ev2 s2] r2].
  unfold alike, events, final, result in *. cbn [fst snd] in *.
  destruct Hc as (Hev & <- & <-).
  destruct r1 as [a|e]; [|done].
  specialize (Hk a s1).
  destruct (k1 a s1) as [[ev1' s1'] r1'], (k2 a s1) as [[ev2' s2'] r2'].
  cbn [fst snd] in *. destruct Hk as (Hev' & Hs' & Hr').
  split; [|done]. by rewrite !commands_app, Hev, Hev'.
Qed.

Section return_codes.
Variable iter : string → gmap string string → list string.
Variable float_of_str : string → res float.
Variable int_of_str : string → res Z.
Variable format_reading : float → float → res string.
Variable format_counter : float → Z → res string.
Variable format_int : Z → string.
Variables call1 call2 : nat → list string → res Z.
Hypothesis started1 : ∀ n c, ∃ retcode, call1 n c = Ok retcode.
Hypothesis started2 : ∀ n c, ∃ retcode, call2 n c = Ok retcode.

Lemma alike_exec {B} command (k1 k2 : M t B) (s : t) :
  (∀ s', alike (k1 s') (k2 s')) →
  alike (bind (executeCommand call1 command) (λ _, k1) s)
        (bind (executeCommand call2 command) (λ _, k2) s).
Proof using started1 started2.
  intros Hk. rewrite !bind_run. unfold executeCommand.
  destruct (started1 (spawned s) command) as [z1 ->].
  destruct (started2 (spawned s) command) as [z2 ->].
  match goal with |- context [k1 ?s'] =>
    specialize (Hk s'); destruct (k1 s') as [[ev1 s1] r1], (k2 s') as [[ev2 s2] r2]
  end.
  unfold alike, events, final, result in *. cbn [fst snd] in *.
  destruct Hk as (Hev & Hs & Hr). split; [|done].
  rewrite !commands_app, Hev. by destruct (negb (z1 =? 0)%Z), (negb (z2 =? 0)%Z).
Qed.

Lemma alike_publish self0 timestamp topic info pairs (s : t) :
  alike (publish format_reading format_int call1 self0 timestamp topic info pairs s)
        (publish format_reading format_int call2 self0 timestamp topic info pairs s).
Proof using started1 started2.
  revert s. induction pairs as [|[key value] pairs IH]; intros s; [done|].
  cbn [publish]. apply alike_bind; [done|]. intros message s1.
  apply alike_exec. intros s2.
  apply alike_bind; [done|]. intros _ s3. apply IH.
Qed.

(** X17.  The return codes of the commands do not matter to [process]:
    as long as each command can be started, it starts the same
    commands, returns or raises the same, and retains the same reading,
    whatever the commands return; a command that fails is logged and
    nothing more. *)
Theorem process_ignores_return_codes (self : t) (timestamp : float)
    (data : string) :
  alike
    (process iter float_of_str int_of_str format_reading format_counter
       format_int call1 timestamp data self)
    (process iter float_of_str int_of_str format_reading format_counter
       format_int call2 timestamp data self).
Proof using started1 started2.
  unfold process.
  apply alike_bind; [done|]. intros self0 s0.
  apply alike_bind; [done|]. intros index s1.
  apply alike_bind.
  { destruct (negb _); [|done]. cbv zeta. destruct (_ <? _)%float; [|done].
    apply alike_bind; [done|]. intros values s2. apply alike_publish. }
  intros _ s2. apply alike_bind; [apply alike_publish|]. intros _ s3.
  apply alike_bind; [done|]. intros c s4.
  apply alike_bind; [done|]. intros n s5.
  apply alike_bind; [done|]. intros message s6.
  apply alike_exec. intros s7. done.
Qed.
End return_codes.

Lemma process_ignores_return_codes_witness :
  alike
    (process Builtins.iter Builtins.float_of_str Builtins.int_of_str
       Builtins.format_reading Builtins.format_counter Builtins.format_int
       (λ _ _, Ok 0%Z) 60 Samples.early_block Samples.fresh)
    (process Builtins.iter Builtins.float_of_str Builtins.int_of_str
       Builtins.format_reading Builtins.format_counter Builtins.format_int
       (λ n _, Ok (Z.of_nat n + 1)%Z) 60 Samples.early_block Samples.fresh).
Proof.
  apply (process_ignores_return_codes Builtins.iter Builtins.float_of_str
           Builtins.int_of_str Builtins.format_reading Builtins.format_counter
           Builtins.format_int (λ _ _, Ok 0%Z) (λ n _, Ok (Z.of_nat n + 1)%Z)).
  - intros n c. exists 0%Z. reflexivity.
  - intros n c. exists (Z.of_nat n + 1)%Z. reflexivity.
Defined.

(** The block of the witness has the registers [1.8.0] at 101 kWh and
    [1.8.1] at 50 kWh; the map yields [1.8.1] first. *)
Lemma process_names_by_position_witness :
  Exec ["/usr/bin/mosquitto_pub"; "-i"; "mqtt"; "-h"; "localhost"; "-p"; "1883";
        "-t"; "/home/energy/index/total"; "-m"; "60 50.000"]
  ∈ events (Builtins.process 60
      "1-0:1.8.0*255(0000101.000*kWh) 1-0:1.8.1*255(0000050.000*kWh) 0-0:C.7.0*255(5)"
      Samples.fresh).
Proof.
  apply (process_names_by_position Builtins.iter Builtins.float_of_str
           Builtins.int_of_str Builtins.format_reading Builtins.format_counter
           Builtins.format_int Builtins.subprocess_call
           Samples.fresh 60
           "1-0:1.8.0*255(0000101.000*kWh) 1-0:1.8.1*255(0000050.000*kWh) 0-0:C.7.0*255(5)"
           ["C.7.0"] "1.8.1" ["1.8.0"] "0000050.000*kWh" 50 [101]%float "60 50.000").
  - vm_compute. reflexivity.
  - intros k Hk. apply list_elem_of_singleton in Hk as ->.
    intros Hin. unfold edis in Hin. list_mem.
  - unfold edis. in_list.
  - vm_compute. reflexivity.
  - vm_compute. reflexivity.
  - vm_compute. reflexivity.
  - vm_compute. reflexivity.
  - vm_compute. reflexivity.
Defined.

Lemma builtins_raise_exceptions :
  (∀ s e, Builtins.float_of_str s = Raise e → is_Exception e = true) ∧
  (∀ s e, Builtins.int_of_str s = Raise e → is_Exception e = true) ∧
  (∀ t v e, Builtins.format_reading t v = Raise e → is_Exception e = true) ∧
  (∀ t n e, Builtins.format_counter t n = Raise e → is_Exception e = true) ∧
  (∀ n c e, Builtins.subprocess_call n c = Raise e → is_Exception e = true).
Proof.
  repeat split.
  - intros s e. unfold Builtins.float_of_str.
    repeat case_match; by intros [= <-].
  - intros s e. unfold Builtins.int_of_str.
    repeat case_match; by intros [= <-].
  - intros t v e. unfold Builtins.format_reading.
    repeat case_match; by intros [= <-].
  - intros t n e. unfold Builtins.format_counter.
    repeat case_match; by intros [= <-].
  - done.
Qed.

Lemma process_well_behaved_witness :
  Scheduler.well_behaved (Scheduler.mkSink "mqtt" Builtins.process)
    60 Samples.early_block.
Proof.
  destruct builtins_raise_exceptions as (H1 & H2 & H3 & H4 & H5).
  exact (process_well_behaved Builtins.iter Builtins.float_of_str
           Builtins.int_of_str Builtins.format_reading Builtins.format_counter
           Builtins.format_int Builtins.subprocess_call H1 H2 H3 H4 H5
           Samples.fresh 60 Samples.early_block).
Defined.

Lemma process_first_block_witness :
  let out := Builtins.process 60 Samples.early_block Samples.fresh in
  (Log ERROR "Interval too long: %.2f" ∉ events out) ∧
  (∀ c, Exec c ∈ events out →
     ¬ publishes_under Builtins.format_int Samples.fresh "current/" c ∧
     (publishes_under Builtins.format_int Samples.fresh "index/" c ∨
      publishes_under Builtins.format_int Samples.fresh "powerdown/counter" c)).
Proof.
  apply (process_first_block Builtins.iter Builtins.float_of_str
           Builtins.int_of_str Builtins.format_reading Builtins.format_counter
           Builtins.format_int Builtins.subprocess_call
           Samples.fresh 60 Samples.early_block).
  vm_compute. reflexivity.
Defined.

Lemma process_without_counter_witness :
  let out := Builtins.process 60 "1-0:1.8.0*255(0000100.000*kWh)" Samples.fresh in
  (∃ e, result out = Raise e) ∧ last (final out) = last Samples.fresh.
Proof.
  apply (process_without_counter Builtins.iter Builtins.float_of_str
           Builtins.int_of_str Builtins.format_reading Builtins.format_counter
           Builtins.format_int Builtins.subprocess_call
           Samples.fresh 60 "1-0:1.8.0*255(0000100.000*kWh)").
  vm_compute. reflexivity.
Defined.

Lemma process_same_timestamp_witness :
  Builtins.process 60 Samples.late_block Samples.prior
  = ([], Samples.prior, Raise ZeroDivisionError).
Proof.
  apply (process_same_timestamp Builtins.iter Builtins.float_of_str
           Builtins.int_of_str Builtins.format_reading Builtins.format_counter
           Builtins.format_int Builtins.subprocess_call
           Samples.prior 60 Samples.late_block [101%float]).
  - vm_compute. reflexivity.
  - vm_compute. reflexivity.
  - vm_compute. reflexivity.
  - vm_compute. reflexivity.
  - discriminate.
  - vm_compute. discriminate.
Defined.

Lemma process_register_count_witness :
  Builtins.process 120
    "1-0:1.8.0*255(0000101.000*kWh) 1-0:1.8.1*255(0000050.000*kWh) 0-0:C.7.0*255(5)"
    Samples.prior
  = ([], Samples.prior, Raise TypeError).
Proof.
  apply (process_register_count Builtins.iter Builtins.float_of_str
           Builtins.int_of_str Builtins.format_reading Builtins.format_counter
           Builtins.format_int Builtins.subprocess_call
           Samples.prior 120
           "1-0:1.8.0*255(0000101.000*kWh) 1-0:1.8.1*255(0000050.000*kWh) 0-0:C.7.0*255(5)"
           [50; 101]%float).
  - vm_compute. reflexivity.
  - vm_compute. reflexivity.
  - vm_compute. reflexivity.
  - vm_compute. reflexivity.
  - vm_compute. lia.
Defined.

End MqttProcessor_more_facts.

Module EibdProcessor_facts.
Import EibdProcessor.

Lemma len_app (s t : string) : len (s +:+ t) = (len s + len t)%nat.
Proof.
  unfold len. induction s as [|c s IH]; [done|]. rewrite app_cons. cbn. by rewrite IH.
Qed.

Lemma hex_from_acc fuel n acc : hex_from fuel n acc = hex_from fuel n "" +:+ acc.
Proof.
  revert n acc. induction fuel as [|fuel IH]; intros n acc; cbn [hex_from]; [done|].
  destruct (n / 16 =? 0)%N; [done|].
  rewrite IH, (IH _ (String _ "")). by rewrite app_assoc_str.
Qed.

Lemma zeros_S k : zeros (S k) = zeros k +:+ "0".
Proof.
  induction k as [|k IH]; [done|].
  change (zeros (S (S k))) with (String "0" (zeros (S k))).
  rewrite IH at 1. change (zeros (S k)) with (String "0" (zeros k)).
  by rewrite app_cons.
Qed.

Lemma digits16_zero w : digits16 w 0 = zeros w.
Proof.
  induction w as [|w IH]; [done|]. cbn [digits16].
  change (0 / 16)%N with 0%N. by rewrite IH, zeros_S.
Qed.

(** Filling up with zeros gives the digits at the full width. *)
Lemma hex_from_fill fuel n w :
  (n < 16 ^ N.of_nat (S fuel))%N → (n < 16 ^ N.of_nat w)%N → (1 ≤ w)%nat →
  zeros (w - len (hex_from fuel n "")) +:+ hex_from fuel n "" = digits16 w n.
Proof.
  revert n w. induction fuel as [|fuel IH]; intros n w Hf Hw H1.
  - destruct w as [|w]; [lia|]. cbn [hex_from len String.length digits16].
    replace (n / 16)%N with 0%N by (symmetry; apply N.div_small; by cbn in Hf).
    rewrite digits16_zero. by replace (S w - 1)%nat with w by lia.
  - destruct w as [|w]; [lia|]. cbn [hex_from digits16].
    destruct (N.eqb_spec (n / 16) 0) as [Hq|Hq].
    + rewrite Hq, digits16_zero. cbn [len String.length].
      by replace (S w - 1)%nat with w by lia.
    + rewrite hex_from_acc, len_app. cbn [len String.length].
      replace (S w - (len (hex_from fuel (n / 16) "") + 1))%nat
        with (w - len (hex_from fuel (n / 16) ""))%nat by lia.
      rewrite <- app_assoc_str. f_equal.
      rewrite Nat2N.inj_succ, N.pow_succ_r' in Hf, Hw.
      apply IH.
      * apply N.Div0.div_lt_upper_bound. lia.
      * apply N.Div0.div_lt_upper_bound. lia.
      * destruct w as [|w]; [|lia]. destruct Hq. apply N.div_small.
        cbn in Hw. lia.
Qed.

Lemma size_nat_gt n : (n < 2 ^ N.of_nat (N.size_nat n))%N.
Proof.
  destruct n as [|p]; [done|]. cbn [N.size_nat].
  induction p as [p IH|p IH|]; cbn [Pos.size_nat]; rewrite ?Nat2N.inj_succ, ?N.pow_succ_r';
   [lia|lia|done].
Qed.

Lemma format_0x_digits n w :
  (n < 16 ^ N.of_nat w)%N → (1 ≤ w)%nat → format_0x n w = digits16 w n.
Proof.
  intros Hw H1. unfold format_0x, format_x. apply hex_from_fill; [|done|done].
  pose proof (size_nat_gt n) as Hn.
  eapply N.lt_le_trans; [exact Hn|].
  rewrite Nat2N.inj_succ, N.pow_succ_r'.
  transitivity (16 ^ N.of_nat (N.size_nat n))%N; [|lia].
  apply N.pow_le_mono_l. lia.
Qed.

Lemma mod256_high x : (x mod 256 / 16 = x / 16 mod 16)%N.
Proof. zify. Z.to_euclidean_division_equations. lia. Qed.

Lemma mod256_low x : ((x mod 256) mod 16 = x mod 16)%N.
Proof. zify. Z.to_euclidean_division_equations. lia. Qed.

Lemma digits16_bytes n :
  (n < 2 ^ 31)%N →
  map (λ s, "0x" +:+ s) (slices (digits16 8 n)) =
  [hex_byte (n / 2 ^ 24); hex_byte (n / 2 ^ 16 mod 256);
   hex_byte (n / 2 ^ 8 mod 256); hex_byte (n mod 256)].
Proof.
  intros Hn. unfold hex_byte. rewrite !mod256_high, !mod256_low.
  cbv beta iota delta [digits16 String.append slices map].
  rewrite !N.Div0.div_div.
  change (2 ^ 24)%N with 16777216%N. change (2 ^ 16)%N with 65536%N.
  change (2 ^ 8)%N with 256%N.
  repeat match goal with
  | |- context [(N.pos ?a * N.pos ?b)%N] =>
    let v := eval vm_compute in (N.pos a * N.pos b)%N in
    change (N.pos a * N.pos b)%N with v
  end.
  rewrite (N.mod_small (n / 268435456) 16)
    by (apply N.Div0.div_lt_upper_bound; change (2 ^ 31)%N with 2147483648%N in Hn; lia).
  done.
Qed.

Lemma convertTo4Bytes_cases (value : Z) :
  ((value < 0)%Z →
     convertTo4Bytes value = Raise (Exception "Value smaller than 0: %d")) ∧
  ((2147483647 < value)%Z →
     convertTo4Bytes value = Raise (Exception "Value greater than 2147483647: %d")) ∧
  ((0 ≤ value ≤ 2147483647)%Z →
     convertTo4Bytes value =
     Ok [hex_byte (Z.to_N value / 2 ^ 24); hex_byte (Z.to_N value / 2 ^ 16 mod 256);
         hex_byte (Z.to_N value / 2 ^ 8 mod 256); hex_byte (Z.to_N value mod 256)]).
Proof.
  unfold convertTo4Bytes. repeat split.
  - intros H. by replace (value <? 0)%Z with true by lia.
  - intros H. replace (value <? 0)%Z with false by lia.
    by replace (value >? 2147483647)%Z with true by lia.
  - intros H. replace (value <? 0)%Z with false by lia.
    replace (value >? 2147483647)%Z with false by lia.
    assert (Z.to_N value < 2 ^ 31)%N as Hn by (change (2 ^ 31)%N with 2147483648%N; lia).
    rewrite format_0x_digits; [|change (2 ^ 31)%N with 2147483648%N in Hn;
                                change (16 ^ N.of_nat 8)%N with 4294967296%N; lia|lia].
    by rewrite digits16_bytes.
Qed.

(** X8.  [convertTo4Bytes] takes the integers from 0 to 2147483647 and
    no others: below it raises, above it raises, and in between it
    returns the four bytes of the value, the highest first, each
    written [0x] and two hexadecimal digits. *)
Theorem convertTo4Bytes_big_endian (value : Z) :
  ((value < 0)%Z →
     convertTo4Bytes value = Raise (Exception "Value smaller than 0: %d")) ∧
  ((2147483647 < value)%Z →
     convertTo4Bytes value = Raise (Exception "Value greater than 2147483647: %d")) ∧
  ((0 ≤ value ≤ 2147483647)%Z →
     let n := Z.to_N value in
     convertTo4Bytes value =
     Ok [hex_byte (n / 2 ^ 24); hex_byte (n / 2 ^ 16 mod 256);
         hex_byte (n / 2 ^ 8 mod 256); hex_byte (n mod 256)]).
Proof. exact (convertTo4Bytes_cases value). Qed.

Lemma convertTo4Bytes_big_endian_witness :
  convertTo4Bytes (-1) = Raise (Exception "Value smaller than 0: %d") ∧
  convertTo4Bytes 2147483648 =
    Raise (Exception "Value greater than 2147483647: %d") ∧
  convertTo4Bytes 1798478 = Ok ["0x00"; "0x1b"; "0x71"; "0x4e"].
Proof.
  destruct (convertTo4Bytes_big_endian (-1)) as (H1 & _ & _).
  destruct (convertTo4Bytes_big_endian 2147483648) as (_ & H2 & _).
  destruct (convertTo4Bytes_big_endian 1798478) as (_ & _ & H3).
  split; [apply H1; lia|]. split; [apply H2; lia|]. apply H3. lia.
Defined.

Lemma hex_value_digit d : (d < 16)%N → hex_value (hex_digit d) = Some d.
Proof.
  intros Hd.
  destruct d as [|p]; [done|].
  do 4 (destruct p as [p|p|]; try done); lia.
Qed.

Lemma byte_value_hex b : (b < 256)%N → byte_value (hex_byte b) = Some b.
Proof.
  intros Hb. unfold hex_byte, byte_value.
  cbv beta iota delta [String.append].
  rewrite !hex_value_digit.
  - f_equal. zify. Z.to_euclidean_division_equations. lia.
  - zify. Z.to_euclidean_division_equations. lia.
  - zify. Z.to_euclidean_division_equations. lia.
Qed.

(** X9.  What [convertTo4Bytes] returns can be read back: it is a list
    of four bytes, and taking them as the digits of a number in base
    256, the first counting most, gives the value converted; so two
    values with the same bytes are equal. *)
Theorem convertTo4Bytes_read_back (value : Z) (bytes : list string) :
  convertTo4Bytes value = Ok bytes →
  length bytes = 4%nat ∧ bytes_value bytes = Some (Z.to_N value) ∧
  ∀ value', convertTo4Bytes value' = Ok bytes → value' = value.
Proof.
  assert (∀ v l, convertTo4Bytes v = Ok l →
            (0 ≤ v)%Z ∧ length l = 4%nat ∧ bytes_value l = Some (Z.to_N v)) as Hone.
  { intros v l Hv.
    destruct (convertTo4Bytes_cases v) as (Hlow & Hhigh & Hin).
    destruct (Z.ltb_spec v 0) as [H|H]; [by rewrite Hlow in Hv|].
    destruct (Z.ltb_spec 2147483647 v) as [H'|H']; [by rewrite Hhigh in Hv|].
    rewrite Hin in Hv by lia. injection Hv as <-. split; [done|]. split; [done|].
    unfold bytes_value. cbn [foldl].
    assert (Z.to_N v < 2 ^ 31)%N as Hn by (change (2 ^ 31)%N with 2147483648%N; lia).
    rewrite !byte_value_hex.
    - f_equal. zify. Z.to_euclidean_division_equations. lia.
    - apply N.mod_lt. lia.
    - apply N.mod_lt. lia.
    - apply N.mod_lt. lia.
    - apply N.Div0.div_lt_upper_bound. change (2 ^ 31)%N with 2147483648%N in Hn.
      change (2 ^ 24)%N with 16777216%N. lia. }
  intros Hv. destruct (Hone _ _ Hv) as (H0 & Hlen & Hval).
  split; [done|]. split; [done|].
  intros v' Hv'. destruct (Hone _ _ Hv') as (H0' & _ & Hval').
  rewrite Hval in Hval'. injection Hval' as Heq. lia.
Qed.

Lemma convertTo4Bytes_read_back_witness :
  length ["0x00"; "0x1b"; "0x71"; "0x4e"] = 4%nat ∧
  bytes_value ["0x00"; "0x1b"; "0x71"; "0x4e"] = Some (Z.to_N 1798478) ∧
  ∀ value', convertTo4Bytes value' = Ok ["0x00"; "0x1b"; "0x71"; "0x4e"] →
            value' = 1798478%Z.
Proof.
  apply (convertTo4Bytes_read_back 1798478 ["0x00"; "0x1b"; "0x71"; "0x4e"]).
  vm_compute. reflexivity.
Defined.

Section process.
Variable iter : string → gmap string string → list string.
Variable float_of_str : string → res float.
Variable int_of_str : string → res Z.
Variable int_of_float : float → res Z.
Variable hex : Z → string.

Local Abbreviation write_index := (write_index int_of_float).
Local Abbreviation process :=
  (process iter float_of_str int_of_str int_of_float hex).
Local Abbreviation fits := (fits int_of_float).

Lemma executeCommand_logs command (self : t) :
  executeCommand command self = ([Log DEBUG "Executing: %s"], self, Ok 0%Z).
Proof. done. Qed.

Lemma write_index_run self0 pairs (self : t) :
  ∃ ev r, write_index self0 pairs self = (ev, self, r) ∧
    Forall report ev ∧
    (r = Ok tt ↔ Forall fits pairs.*2).
Proof.
  induction pairs as [|[key value] pairs IH].
  - eexists [], _. split; [done|]. split; [constructor|]. by split.
  - cbn [EibdProcessor.write_index fmap list_fmap snd].
    rewrite bind_run. unfold lift at 1.
    destruct (int_of_float (value * 1000)) as [Wh|e] eqn:HWh.
    2:{ eexists [], _. split; [done|]. split; [constructor|].
        split; [done|]. intros [(Wh & HWh' & _) _]%Forall_cons. congruence. }
    rewrite bind_run. unfold lift at 1.
    destruct (convertTo4Bytes_cases Wh) as (Hlow & Hhigh & Hin).
    destruct (Z.ltb_spec Wh 0) as [H|H].
    { rewrite Hlow by done. eexists [], _. split; [done|]. split; [constructor|].
      split; [done|]. intros [(Wh' & HWh' & ?) _]%Forall_cons.
      rewrite HWh in HWh'. injection HWh' as <-. lia. }
    destruct (Z.ltb_spec 2147483647 Wh) as [H'|H'].
    { rewrite Hhigh by done. eexists [], _. split; [done|]. split; [constructor|].
      split; [done|]. intros [(Wh' & HWh' & ?) _]%Forall_cons.
      rewrite HWh in HWh'. injection HWh' as <-. lia. }
    rewrite Hin by lia.
    rewrite bind_run, executeCommand_logs.
    rewrite bind_run. unfold logging at 1, emit at 1.
    destruct IH as (ev & r & -> & Hev & Hr).
    eexists _, _. split; [done|]. split.
    + cbn [app]. constructor; [eexists; by left|].
      constructor; [eexists; by right|]. done.
    + rewrite Hr. split.
      * intros Hall. constructor; [|done]. exists Wh. split; [done|lia].
      * by intros [_ ?]%Forall_cons.
Qed.

Lemma zip_ga_values (index : list float) :
  (MqttProcessor.zip ga index).*2 = take 3 index.
Proof. unfold ga. by destruct index as [|a [|b [|c index]]]. Qed.

Lemma process_reports (self : t) (timestamp : float) (data : string) :
  final (process timestamp data self) = self ∧
  Forall report (events (process timestamp data self)).
Proof.
  remember (process timestamp data self) as out eqn:Hout.
  unfold EibdProcessor.process in Hout.
  rewrite bind_run in Hout. unfold get at 1 in Hout.
  rewrite bind_run in Hout. unfold lift at 1 in Hout.
  destruct (MqttProcessor.readings _ _ _) as [index|e];
    [|subst out; by split; [|constructor]].
  rewrite bind_run in Hout.
  destruct (write_index_run self (MqttProcessor.zip ga index) self)
    as (ev & r & Hw & Hev & _).
  rewrite Hw in Hout.
  destruct r as [[]|e]; [|subst out; by rewrite !app_nil_l].
  rewrite bind_run in Hout. unfold lift at 1 in Hout.
  destruct (Processor.extract data !! "C.7.0") as [s|];
    [|subst out; by rewrite !app_nil_l, app_nil_r].
  rewrite bind_run in Hout. unfold lift at 1 in Hout.
  destruct (int_of_str s) as [value|e];
    [|subst out; by rewrite !app_nil_l, !app_nil_r].
  subst out. split; [done|]. cbn. apply Forall_app. split; [done|].
  constructor; [eexists; by right|]. constructor; [eexists; by left|]. constructor.
Qed.

(** X10.  [EibdProcessor.process] starts no command, whatever the block:
    the call of [groupwrite] is commented out, so nothing is written to
    the bus.  All the sink does is log at the levels DEBUG and INFO, and
    it keeps no state from one block to the next. *)
Theorem process_starts_nothing (self : t) (timestamp : float) (data : string) :
  final (process timestamp data self) = self ∧
  Forall report (events (process timestamp data self)) ∧
  ∀ command, Exec command ∉ events (process timestamp data self).
Proof.
  destruct (process_reports self timestamp data) as [Hs Hev].
  split; [done|]. split; [done|].
  intros command Hin. rewrite Forall_forall in Hev.
  destruct (Hev _ Hin) as (t & [?|?]); done.
Qed.

(** X11.  [EibdProcessor.process] returns exactly when every energy
    register of the block reads as a float, each of the first three
    readings, times 1000 and cut to an integer, lies between 0 and
    2147483647, and the block has a counter [C.7.0] that reads as an
    integer; in every other case it raises. *)
Theorem process_returns_iff (self : t) (timestamp : float) (data : string) :
  let d := Processor.extract data in
  result (process timestamp data self) = Ok tt ↔
  ∃ index s value,
    MqttProcessor.readings float_of_str d (iter data d) = Ok index ∧
    Forall fits (take 3 index) ∧
    d !! "C.7.0" = Some s ∧ int_of_str s = Ok value.
Proof.
  intros d. subst d.
  remember (process timestamp data self) as out eqn:Hout.
  unfold EibdProcessor.process in Hout.
  rewrite bind_run in Hout. unfold get at 1 in Hout.
  rewrite bind_run in Hout. unfold lift at 1 in Hout.
  destruct (MqttProcessor.readings _ _ _) as [index|e].
  2:{ subst out. split; [done|]. by intros (? & ? & ? & ? & _). }
  rewrite bind_run in Hout.
  destruct (write_index_run self (MqttProcessor.zip ga index) self)
    as (ev & r & Hw & _ & Hr).
  rewrite Hw in Hout. rewrite zip_ga_values in Hr.
  destruct r as [[]|e].
  2:{ subst out. split; [done|]. intros (? & ? & ? & [= <-] & Hfit & _).
      by apply Hr in Hfit. }
  rewrite bind_run in Hout. unfold lift at 1 in Hout.
  destruct (Processor.extract data !! "C.7.0") as [s|].
  2:{ subst out. split; [done|]. by intros (? & ? & ? & _ & _ & ? & _). }
  rewrite bind_run in Hout. unfold lift at 1 in Hout.
  destruct (int_of_str s) as [value|e] eqn:Hvalue.
  2:{ subst out. split; [done|]. intros (? & ? & ? & _ & _ & [= <-] & ?). congruence. }
  subst out. split; [|done]. intros _. exists index, s, value.
  repeat split; try done. by apply Hr.
Qed.

Section failures.
Hypothesis float_fails : ∀ s e, float_of_str s = Raise e → is_Exception e = true.
Hypothesis int_fails : ∀ s e, int_of_str s = Raise e → is_Exception e = true.
Hypothesis cut_fails : ∀ f e, int_of_float f = Raise e → is_Exception e = true.

Lemma write_index_raises self0 pairs (self : t) e :
  result (write_index self0 pairs self) = Raise e → is_Exception e = true.
Proof using cut_fails.
  induction pairs as [|[key value] pairs IH]; [done|].
  cbn [EibdProcessor.write_index].
  rewrite bind_run. unfold lift at 1.
  destruct (int_of_float (value * 1000)) as [Wh|e'] eqn:HWh;
    [|intros [= <-]; by eapply cut_fails].
  rewrite bind_run. unfold lift at 1.
  destruct (convertTo4Bytes Wh) as [bytes|e'] eqn:Hb.
  2:{ intros [= <-]. unfold convertTo4Bytes in Hb.
      destruct (Wh <? 0)%Z; [by injection Hb as <-|].
      destruct (Wh >? 2147483647)%Z; [by injection Hb as <-|done]. }
  rewrite bind_run, executeCommand_logs.
  rewrite bind_run. unfold logging at 1, emit at 1.
  destruct (write_index_run self0 pairs self) as (ev & r & Hw & _).
  rewrite Hw in IH |- *. exact IH.
Qed.

(** X20.  [EibdProcessor.process] is a sink as the scheduler expects
    it: it calls no other sink and logs no error, and when the builtins
    it calls fail with an [Exception], what it raises, the range errors
    of [convertTo4Bytes] included, is an [Exception], which the
    scheduler catches. *)
Theorem eibd_well_behaved (self0 : t) (timestamp : float) (data : string) :
  Scheduler.well_behaved (Scheduler.mkSink (name self0) process) timestamp data.
Proof using float_fails int_fails cut_fails.
  intros self. cbn [Scheduler.process]. split.
  - destruct (process_reports self timestamp data) as (_ & Hev).
    induction Hev as [|e ev He _ [IH1 IH2]]; [done|].
    unfold Scheduler.own, Scheduler.calls, Scheduler.errors_in in *.
    destruct He as [t [-> | ->]]; cbn; by rewrite ?IH1, ?IH2.
  - intros e.
    remember (process timestamp data self) as out eqn:Hout.
    unfold EibdProcessor.process in Hout.
    rewrite bind_run in Hout. unfold get at 1 in Hout.
    rewrite bind_run in Hout. unfold lift at 1 in Hout.
    destruct (MqttProcessor.readings _ _ _) as [index|e'] eqn:Hr.
    2:{ subst out. intros [= <-].
        by eapply MqttProcessor_more_facts.readings_raises. }
    rewrite bind_run in Hout.
    pose proof (write_index_raises self (MqttProcessor.zip ga index) self) as Hw.
    destruct (write_index self _ self) as [[ev s1] [[]|e']];
      [|subst out; intros [= <-]; by apply Hw].
    rewrite bind_run in Hout. unfold lift at 1 in Hout.
    destruct (Processor.extract data !! "C.7.0") as [s|];
      [|subst out; by intros [= <-]].
    rewrite bind_run in Hout. unfold lift at 1 in Hout.
    destruct (int_of_str s) as [value|e'] eqn:Hvalue;
      [|subst out; intros [= <-]; by eapply int_fails].
    by subst out.
Qed.
End failures.

End process.

(** A block with two registers, run with the reference builtins. *)
Example process_sample :
  EibdBuiltins.process 60
    "1-0:1.8.1*255(0001798.478*kWh) 1-0:1.8.2*255(0000000.250*kWh) 0-0:C.7.0*255(5)"
    (init "local:/tmp/eib")
  = ([Log DEBUG "Executing: %s"; Log INFO "%s = %d Wh";
      Log DEBUG "Executing: %s"; Log INFO "%s = %d Wh";
      Log INFO "%s = %d times"; Log DEBUG "Executing: %s"],
     init "local:/tmp/eib", Ok tt).
Proof. by vm_compute. Qed.

Lemma eibd_well_behaved_witness :
  Scheduler.well_behaved (Scheduler.mkSink "eibd" EibdBuiltins.process)
    60 Samples.early_block.
Proof.
  destruct MqttProcessor_more_facts.builtins_raise_exceptions as (H1 & H2 & _).
  assert (∀ f e, EibdBuiltins.int_of_float f = Raise e → is_Exception e = true) as H3.
  { intros f e. unfold EibdBuiltins.int_of_float.
    destruct (Builtins.truncate f); by intros [= <-]. }
  exact (eibd_well_behaved Builtins.iter Builtins.float_of_str
           Builtins.int_of_str EibdBuiltins.int_of_float EibdBuiltins.hex
           H1 H2 H3 (init "local:/tmp/eib") 60 Samples.early_block).
Defined.

End EibdProcessor_facts.

Module Scheduler_more_facts.
Import Scheduler Scheduler_facts Scheduler_more.

Section scheduler.
Context {S : Type}.
Variable mt174 : M S string.
Variable processors : list (Sink S).
Variable interval : float.

Local Abbreviation execute := (execute mt174 processors).
Local Abbreviation turn := (turn mt174 processors interval).
Local Abbreviation loop := (loop mt174 processors interval).
Local Abbreviation run := (run mt174 processors interval).
Local Abbreviation cycle := (cycle mt174 processors).
Local Abbreviation waiting := (waiting (S:=S) interval).

Lemma handler_raises template e (w : World S) e' :
  result (handler template e w) = Raise e' → e' = e ∧ is_Exception e = false.
Proof.
  unfold handler. destruct e; cbn; intros [= <-]; by split.
Qed.

Lemma execute_raises timestamp (w : World S) e :
  result (execute timestamp w) = Raise e → is_Exception e = false.
Proof.
  rewrite execute_eq. unfold try_except.
  match goal with |- context [match ?x with pair _ _ => _ end] =>
    destruct x as [[ev w'] [[]|e0]] end; [by cbn|].
  pose proof (handler_raises "Error in meter reader" e0 w' e) as H.
  destruct (handler _ e0 w') as [[ev' w''] r]. intros Hr. by destruct (H Hr) as [-> ?].
Qed.

Lemma turn_raises start (w : World S) e :
  result (turn start w) = Raise e → is_Exception e = false.
Proof.
  destruct w as [c t sg n s].
  cbv beta iota zeta delta
    [Scheduler.turn bind time_time sleep ret clock ticks signal naps store].
  destruct (_ <? _)%float.
  - destruct (sg n); cbn; [|done]. by intros [= <-].
  - match goal with |- context [execute ?t ?w'] =>
      pose proof (execute_raises t w' e) as H;
      destruct (execute t w') as [[ev w''] [[]|e0]] end; [by cbn|].
    cbn. intros [= <-]. by apply H.
Qed.

Lemma loop_raises fuel start (w : World S) e :
  result (loop fuel start w) = Raise e → is_Exception e = false.
Proof.
  revert start w. induction fuel as [|fuel IH]; intros start w; [done|].
  cbn [Scheduler.loop]. rewrite bind_run.
  pose proof (turn_raises start w e) as H.
  destruct (turn start w) as [[ev w'] [start'|e0]];
    [|cbn; intros [= <-]; by apply H].
  specialize (IH start' w'). by destruct (loop fuel start' w') as [[ev' w''] r].
Qed.

(** X21.  Nothing that derives from [Exception] leaves [execute],
    whether the meter or a sink raised it; so [run] never returns 1 and
    never logs that it exits: observed for any number of turns it is
    still looping, or has returned 0 on an interrupt, or has been left
    by an exception that does not derive from [Exception]. *)
Theorem run_never_fails (fuel : nat) (timestamp : float) (w : World S) :
  (∀ e, result (execute timestamp w) = Raise e → is_Exception e = false) ∧
  (result (run fuel w) = Ok None ∨
   result (run fuel w) = Ok (Some 0%Z) ∨
   ∃ e, result (run fuel w) = Raise e ∧ is_Exception e = false) ∧
  events (run fuel w) = events (loop fuel 0%float w).
Proof.
  split; [intros e; apply execute_raises|].
  unfold Scheduler.run, try_except. rewrite bind_run.
  pose proof (loop_raises fuel 0%float w) as H.
  destruct (loop fuel 0%float w) as [[ev w'] [[]|e]].
  - cbn. rewrite app_nil_r. split; [by left|done].
  - specialize (H e eq_refl).
    destruct e; try done; cbn; rewrite ?app_nil_r; (split; [|done]).
    + right. by left.
    + right. right. by eexists.
Qed.

Lemma waited_0 (w : World S) : waited 0 w = w.
Proof. destruct w. unfold waited. cbn. by rewrite !Nat.add_0_r. Qed.

Lemma waited_S k (w : World S) : waited (Datatypes.S k) w = waited k (waited 1 w).
Proof.
  unfold waited. cbn [clock ticks signal naps store]. f_equal; lia.
Qed.

Lemma waiting_S k start (w : World S) :
  waiting (Datatypes.S k) start w →
  (clock w (ticks w) - start <? interval)%float = true ∧
  signal w (naps w) = false ∧
  waiting k start (waited 1 w).
Proof.
  intros H. destruct (H 0%nat ltac:(lia)) as [H1 H2].
  rewrite !Nat.add_0_r in *. split; [done|]. split; [done|].
  intros i Hi. destruct (H (Datatypes.S i) ltac:(lia)) as [H3 H4].
  unfold waited. cbn [clock ticks signal naps].
  by replace (ticks w + 1 + i)%nat with (ticks w + Datatypes.S i)%nat by lia;
     replace (naps w + 1 + i)%nat with (naps w + Datatypes.S i)%nat by lia.
Qed.

(** A turn with the window open: one tick of sleep. *)
Lemma turn_waits start (w : World S) :
  (clock w (ticks w) - start <? interval)%float = true →
  turn start w =
  ([Sleep SLEEP_TIME], waited 1 w,
   if signal w (naps w) then Raise KeyboardInterrupt else Ok start).
Proof.
  intros H. destruct w as [c t sg n s]. cbn [clock ticks signal naps] in *.
  cbv beta iota zeta delta
    [Scheduler.turn bind time_time sleep ret clock ticks signal naps store waited].
  rewrite H. replace (t + 1)%nat with (Datatypes.S t) by lia.
  replace (n + 1)%nat with (Datatypes.S n) by lia.
  by destruct (sg n).
Qed.

Lemma loop_waits k fuel start (w : World S) :
  waiting k start w →
  loop (k + fuel) start w =
  let '(ev, w', r) := loop fuel start (waited k w) in
  (repeat (Sleep SLEEP_TIME) k ++ ev, w', r).
Proof.
  revert w. induction k as [|k IH]; intros w Hk.
  - rewrite waited_0. cbn [Nat.add repeat]. symmetry. apply out_eta.
  - apply waiting_S in Hk as (Hopen & Hsig & Hk).
    cbn [Nat.add Scheduler.loop]. rewrite bind_run, turn_waits, Hsig by done.
    rewrite IH by done. rewrite (waited_S k w).
    by destruct (loop fuel start (waited k (waited 1 w))) as [[ev w'] r].
Qed.

(** X22.  An interrupt that arrives while [run] waits for the first
    cycle ends it at once with 0: after [k] quiet ticks of sleep the
    interrupted tick is the last thing that happens, the meter has not
    been read and no sink has been called. *)
Theorem run_interrupted_waiting (k fuel : nat) (w : World S) :
  waiting k 0%float w →
  (clock w (ticks w + k) - 0 <? interval)%float = true →
  signal w (naps w + k) = true →
  run (k + Datatypes.S fuel) w =
  (repeat (Sleep SLEEP_TIME) (Datatypes.S k), waited (Datatypes.S k) w,
   Ok (Some 0%Z)).
Proof.
  intros Hk Hopen Hsig. unfold Scheduler.run, try_except.
  rewrite bind_run. rewrite loop_waits by done.
  cbn [Scheduler.loop]. rewrite bind_run.
  rewrite turn_waits by (cbn [waited clock ticks]; exact Hopen).
  cbn [signal naps waited]. rewrite Hsig. cbn.
  rewrite app_nil_r, <- repeat_cons.
  replace (waited 1 (waited k w)) with (waited (Datatypes.S k) w); [done|].
  unfold waited. cbn. f_equal; lia.
Qed.

(** X23.  While the window is open [run] only polls: one reading of the
    clock and one tick of sleep a turn.  The first poll that finds the
    interval elapsed is followed at once by a cycle; the timestamp of
    the cycle is the clock reading after that poll, and the state of the
    meter and the sinks has not been touched until then. *)
Theorem loop_waits_then_cycles (k fuel : nat) (start : float) (w : World S) :
  waiting k start w →
  (clock w (ticks w + k) - start <? interval)%float = false →
  let timestamp := clock w (ticks w + k + 1) in
  let w' := mkWorld (clock w) (ticks w + k + 2) (signal w) (naps w + k) (store w) in
  loop (k + Datatypes.S fuel) start w =
  let '(ev, w'', r) := (execute timestamp;; loop fuel timestamp) w' in
  (repeat (Sleep SLEEP_TIME) k ++ ev, w'', r).
Proof.
  intros Hk Hdue timestamp w'. subst timestamp w'.
  rewrite loop_waits by done. cbn [Scheduler.loop].
  rewrite bind_run. rewrite turn_overdue by exact Hdue.
  destruct w as [c t sg n s]. unfold Scheduler.cycle, waited.
  cbn [clock ticks signal naps store].
  cbv beta iota zeta delta [bind time_time ret clock ticks signal naps store].
  replace (Datatypes.S (Datatypes.S (t + k))) with (t + k + 2)%nat by lia.
  replace (Datatypes.S (t + k)) with (t + k + 1)%nat by lia.
  destruct (execute _ _) as [[ev1 w1] [[]|e]]; [|by rewrite !app_nil_l].
  destruct (loop fuel _ w1) as [[ev2 w2] r]. by rewrite !app_nil_l, app_nil_r.
Qed.

End scheduler.

Lemma run_interrupted_waiting_witness :
  run (S:=unit) Samples.meter [] 60 (2 + 1)
    (mkWorld (λ _, 5%float) 0 (λ n, (n =? 2)%nat) 0 tt)
  = (repeat (Sleep SLEEP_TIME) 3,
     waited 3 (mkWorld (λ _, 5%float) 0 (λ n, (n =? 2)%nat) 0 tt),
     Ok (Some 0%Z)).
Proof.
  apply (run_interrupted_waiting Samples.meter [] 60 2 0
           (mkWorld (λ _, 5%float) 0 (λ n, (n =? 2)%nat) 0 tt)).
  - intros i Hi. destruct i as [|[|i]]; [by vm_compute|by vm_compute|lia].
  - vm_compute. reflexivity.
  - vm_compute. reflexivity.
Defined.

Lemma loop_waits_then_cycles_witness :
  loop (S:=unit) Samples.meter [] 60 (3 + 1) 990 (Samples.world tt) =
  let '(ev, w'', r) :=
    (execute Samples.meter [] 1065;; loop Samples.meter [] 60 0 1065)
      (mkWorld (clock (Samples.world tt)) 5 (λ _, false) 3 tt) in
  (repeat (Sleep SLEEP_TIME) 3 ++ ev, w'', r).
Proof.
  apply (loop_waits_then_cycles Samples.meter [] 60 3 0 990 (Samples.world tt)).
  - intros i Hi. destruct i as [|[|[|i]]]; [by vm_compute..|lia].
  - vm_compute. reflexivity.
Defined.

End Scheduler_more_facts.
